(** * Remapping of CABLE restart tiles onto a new vegetation map

    A shallow embedding of [adjust_restart_for_new_land_cover.py]: the search
    masks, the active tile filter, the fill/empty policy, the per-cell
    aggregation and the per-tile synthesis of [remap_vegetation], followed by
    the properties the design document states about them.

    Modelling conventions.
    - A numpy array is its shape together with a total read function; two
      arrays are compared cell by cell inside the shape. Shape checks,
      broadcasting and index errors of numpy are written out.
    - A Python exception is a [Raise] result; statements are sequenced with
      the bind of the [result] monad, in source order.
    - float64 values are idealised as exact rationals with one extra point
      [NaN] (the missing-value sentinel); rounding and infinities are not
      modelled.
    - Whether xarray's [to_numpy] hands out the dataset's own buffer or a
      fresh copy is library behaviour; it is the Section variable [view]
      and every statement holds for both settings.
    - [InputVegetation] and [OutputVegetation] are arrays of their own: no
      configured variable shares a buffer with them. *)

From Stdlib Require Import String ZArith QArith Bool Arith Lia List.
Import ListNotations.

Local Open Scope Z_scope.

(** ** Exceptions *)

Inductive pyerr : Set :=
| KeyError | NameError | ValueError | IndexError | MaskError
| TypeError | ZeroDivisionError.

Inductive result (A : Type) : Type :=
| Ok (a : A)
| Raise (e : pyerr).

Arguments Ok {A} a.
Arguments Raise {A} e.

Definition bind {A B : Type} (r : result A) (k : A -> result B) : result B :=
  match r with
  | Ok a => k a
  | Raise e => Raise e
  end.

Notation "x <- r ;; k" := (bind r (fun x => k))
  (at level 61, r at next level, right associativity).
Notation "' p <- r ;; k" := (bind r (fun p => k))
  (at level 61, p pattern, r at next level, right associativity).

(** [for x in xs: s = body(s, x)], stopping at the first exception. *)
Fixpoint for_each {S X : Type} (body : S -> X -> result S) (xs : list X) (s : S)
  : result S :=
  match xs with
  | [] => Ok s
  | x :: rest => s' <- body s x ;; for_each body rest s'
  end.

(** ** Numbers *)

Inductive num : Set :=
| NaN
| Num (q : Q).

Definition zero : num := Num 0.

Definition isnan (x : num) : bool :=
  match x with NaN => true | Num _ => false end.

(** [x <= 0.0] and [x > 0.0]; every comparison with NaN is false. *)
Definition le0 (x : num) : bool :=
  match x with NaN => false | Num q => Qle_bool q 0 end.

Definition gt0 (x : num) : bool :=
  match x with NaN => false | Num q => negb (Qle_bool q 0) end.

Definition nadd (x y : num) : num :=
  match x, y with
  | Num p, Num q => Num (p + q)
  | _, _ => NaN
  end.

Definition nmul (x y : num) : num :=
  match x, y with
  | Num p, Num q => Num (p * q)
  | _, _ => NaN
  end.

(** [ndarray.sum()] of a one-dimensional selection; the empty sum is 0.0. *)
Definition nsum (l : list num) : num := fold_left nadd l zero.

(** ** Arrays *)

Record arr2 (A : Type) : Type := mkArr2
  { nrow : nat; ncol : nat; at2 : nat -> nat -> A }.

Record arr3 (A : Type) : Type := mkArr3
  { nveg : nat; nlat : nat; nlon : nat; at3 : nat -> nat -> nat -> A }.

Arguments mkArr2 {A}. Arguments nrow {A}. Arguments ncol {A}. Arguments at2 {A}.
Arguments mkArr3 {A}. Arguments nveg {A}. Arguments nlat {A}. Arguments nlon {A}.
Arguments at3 {A}.

Definition full2 {A} (r c : nat) (x : A) : arr2 A := mkArr2 r c (fun _ _ => x).
Definition map2 {A B} (f : A -> B) (a : arr2 A) : arr2 B :=
  mkArr2 (nrow a) (ncol a) (fun i j => f (at2 a i j)).
Definition map3 {A B} (f : A -> B) (a : arr3 A) : arr3 B :=
  mkArr3 (nveg a) (nlat a) (nlon a) (fun v i j => f (at3 a v i j)).

Definition same_shape2 {A B} (a : arr2 A) (b : arr2 B) : bool :=
  ((nrow a =? nrow b) && (ncol a =? ncol b))%nat.
Definition same_shape3 {A B} (a : arr3 A) (b : arr3 B) : bool :=
  ((nveg a =? nveg b) && (nlat a =? nlat b) && (nlon a =? nlon b))%nat.

(** numpy broadcasting of one axis: equal lengths, or one of them 1. *)
Definition bdim (a b : nat) : result nat :=
  if (a =? b)%nat then Ok a
  else if (a =? 1)%nat then Ok b
  else if (b =? 1)%nat then Ok a
  else Raise ValueError.

(** An axis of length 1 is read at 0 wherever the result is read. *)
Definition bidx (n i : nat) : nat := if (n =? 1)%nat then 0%nat else i.

Definition zip2 {A B C} (f : A -> B -> C) (a : arr2 A) (b : arr2 B)
  : result (arr2 C) :=
  r <- bdim (nrow a) (nrow b) ;;
  c <- bdim (ncol a) (ncol b) ;;
  Ok (mkArr2 r c (fun i j =>
        f (at2 a (bidx (nrow a) i) (bidx (ncol a) j))
          (at2 b (bidx (nrow b) i) (bidx (ncol b) j)))).

Definition zip3 {A B C} (f : A -> B -> C) (a : arr3 A) (b : arr3 B)
  : result (arr3 C) :=
  n <- bdim (nveg a) (nveg b) ;;
  r <- bdim (nlat a) (nlat b) ;;
  c <- bdim (nlon a) (nlon b) ;;
  Ok (mkArr3 n r c (fun v i j =>
        f (at3 a (bidx (nveg a) v) (bidx (nlat a) i) (bidx (nlon a) j))
          (at3 b (bidx (nveg b) v) (bidx (nlat b) i) (bidx (nlon b) j)))).

(** A Python index on an axis of length [n]: negative indices count from the
    end, anything outside [-n, n) raises. *)
Definition py_index (n : nat) (i : Z) : result nat :=
  if (0 <=? i) && (i <? Z.of_nat n) then Ok (Z.to_nat i)
  else if (- Z.of_nat n <=? i) && (i <? 0) then Ok (Z.to_nat (i + Z.of_nat n))
  else Raise IndexError.

(** [a[v, :, :]] *)
Definition plane {A} (a : arr3 A) (v : Z) : result (arr2 A) :=
  k <- py_index (nveg a) v ;;
  Ok (mkArr2 (nlat a) (nlon a) (fun i j => at3 a k i j)).

(** [m[i, j] = x] *)
Definition setitem2 {A} (m : arr2 A) (i j : Z) (x : A) : result (arr2 A) :=
  r <- py_index (nrow m) i ;;
  c <- py_index (ncol m) j ;;
  Ok (mkArr2 (nrow m) (ncol m)
        (fun i' j' => if ((i' =? r) && (j' =? c))%nat then x else at2 m i' j')).

(** [m[i, :] = x] *)
Definition setrow2 {A} (m : arr2 A) (i : Z) (x : A) : result (arr2 A) :=
  r <- py_index (nrow m) i ;;
  Ok (mkArr2 (nrow m) (ncol m)
        (fun i' j' => if (i' =? r)%nat then x else at2 m i' j')).

(** [a[v, i, j] = x] with indices an enumeration produced. *)
Definition setitem3 {A} (a : arr3 A) (p : nat * nat * nat) (x : A)
  : result (arr3 A) :=
  let '(v, i, j) := p in
  if ((v <? nveg a) && (i <? nlat a) && (j <? nlon a))%nat
  then Ok (mkArr3 (nveg a) (nlat a) (nlon a)
             (fun v' i' j' =>
                if ((v' =? v) && (i' =? i) && (j' =? j))%nat then x
                else at3 a v' i' j'))
  else Raise IndexError.

(** The cells of a plane and of a cube in C order (last axis fastest). *)
Definition cells2 (r c : nat) : list (nat * nat) :=
  flat_map (fun i => map (pair i) (seq 0 c)) (seq 0 r).

Definition cells3 (n r c : nat) : list (nat * nat * nat) :=
  flat_map (fun v => map (fun p => (v, fst p, snd p)) (cells2 r c)) (seq 0 n).

(** The cells a boolean mask marks, in C order. *)
Definition marked (m : arr2 bool) : list (nat * nat) :=
  filter (fun p => at2 m (fst p) (snd p)) (cells2 (nrow m) (ncol m)).

(** [mask.sum()] *)
Definition count_true (m : arr2 bool) : nat := List.length (marked m).

(** [data[mask]] for a boolean mask: the shapes must agree. *)
Definition select {A} (data : arr2 A) (m : arr2 bool) : result (list A) :=
  if same_shape2 data m
  then Ok (map (fun p => at2 data (fst p) (snd p)) (marked m))
  else Raise IndexError.

(** ** Search masks (lines 103-156) *)

(** [numpy.arange(lo, hi)] on integers, as long as the bounds and the length
    fit the 64-bit integers numpy counts with. *)
Definition arange (lo hi : Z) : list Z :=
  map (fun k => lo + Z.of_nat k) (seq 0 (Z.to_nat (hi - lo))).

(** [numpy.clip(x, lo, hi)] is [minimum(maximum(x, lo), hi)]. *)
Definition clip (x lo hi : Z) : Z := Z.min (Z.max x lo) hi.

(** [numpy.mod(x, n)] on integers: the sign of the divisor, and 0 (with a
    warning) for a zero divisor. *)
Definition np_mod (x n : Z) : Z := if n =? 0 then 0 else x mod n.

Definition coord : Set := (Z * Z)%type.   (* (Lon, Lat) *)

Definition mask_method : Type :=
  arr2 bool -> option Z -> coord -> result (arr2 bool).

Definition modify_mask_for_cell : mask_method :=
  fun SearchMask GridCell Coord =>
    let '(Lon, Lat) := Coord in
    setitem2 SearchMask Lat Lon true.

Definition modify_mask_for_nearest : mask_method :=
  fun SearchMask SearchRadius Coord =>
    let '(Lon, Lat) := Coord in
    let nLat := Z.of_nat (nrow SearchMask) in
    let nLon := Z.of_nat (ncol SearchMask) in
    match SearchRadius with
    | None => Raise TypeError
    | Some radius =>
        let SearchInds := arange (- radius) (radius + 1) in
        let LatInds := map (fun k => clip (Lat + k) 0 (nLat - 1)) SearchInds in
        let LonInds := map (fun k => np_mod (Lon + k) nLon) SearchInds in
        for_each (fun m LatSearch =>
          for_each (fun m' LonSearch => setitem2 m' LatSearch LonSearch true)
                   LonInds m)
          LatInds SearchMask
    end.

Definition modify_mask_for_latitude_band : mask_method :=
  fun SearchMask LatitudeBand Coord =>
    let '(Lon, Lat) := Coord in
    let nLat := Z.of_nat (nrow SearchMask) in
    match LatitudeBand with
    | None => Raise TypeError
    | Some band =>
        let SearchInds := arange (- band) (band + 1) in
        let LatInds := map (fun k => clip (Lat + k) 0 (nLat - 1)) SearchInds in
        for_each (fun m LatSearch => setrow2 m LatSearch true) LatInds SearchMask
    end.

Definition modify_mask_for_global : mask_method :=
  fun SearchMask Global Coord =>
    Ok (full2 (nrow SearchMask) (ncol SearchMask) true).

(** ** Active tile filter (lines 158-186) *)

Definition tile_search_map (SearchMask : arr2 bool) (InputVegetation : arr3 num)
    (VegType : Z) : result (arr2 bool) :=
  frac <- plane InputVegetation VegType ;;
  land <- zip2 andb (map2 (fun x => negb (isnan x)) frac) SearchMask ;;
  zip2 andb land (map2 gt0 frac).

Fixpoint find_active_tiles (SearchMask : arr2 bool) (InputVegetation : arr3 num)
    (VegetationMapping : list Z) : result (list (arr2 bool)) :=
  match VegetationMapping with
  | [] => Ok []
  | VegType :: rest =>
      TileSearchMap <- tile_search_map SearchMask InputVegetation VegType ;;
      others <- find_active_tiles SearchMask InputVegetation rest ;;
      Ok (TileSearchMap :: others)
  end.

(** [sum([ActiveTileMask.sum() for ActiveTileMask in ActiveTileMasks])] *)
Definition points_found (ActiveTileMasks : list (arr2 bool)) : Z :=
  Z.of_nat (list_sum (map count_true ActiveTileMasks)).

(** ** Configuration (lines 44-72) *)

(** The parsed YAML document: every key may be absent. *)
Record yaml : Type := mkYaml
  { yaml_vegetation_map : option (list (Z * list Z));
    yaml_search_radius : option Z;
    yaml_latitude_band : option Z;
    yaml_minimum_points : option Z;
    yaml_per_cell : option (list string);
    yaml_per_tile : option (list string) }.

(** A Python dict from output vegetation type to input vegetation types. *)
Definition dict : Set := list (Z * list Z).

Fixpoint dict_set (d : dict) (k : Z) (v : list Z) : dict :=
  match d with
  | [] => [(k, v)]
  | (k', v') :: rest =>
      if k' =? k then (k, v) :: rest else (k', v') :: dict_set rest k v
  end.

Fixpoint dict_get (d : dict) (k : Z) : result (list Z) :=
  match d with
  | [] => Raise KeyError
  | (k', v') :: rest => if k' =? k then Ok v' else dict_get rest k
  end.

Record MappingConf : Type := mkConf
  { vegetation_map : dict;
    search_radius : Z;
    latitude_band : Z;
    minimum_points : Z;
    per_cell : option (list string);
    per_tile : option (list string) }.

Definition get_default {A} (o : option A) (d : A) : A :=
  match o with Some a => a | None => d end.

Definition prepare_mapping (nVeg : nat) (ConfigFile : yaml) : MappingConf :=
  let VegetationMapping : dict :=
    map (fun i => (Z.of_nat i, [Z.of_nat i])) (seq 0 nVeg) in
  let VegetationMapping :=
    match yaml_vegetation_map ConfigFile with
    | None => VegetationMapping
    | Some items =>
        fold_left (fun d item =>
                     dict_set d (fst item - 1)
                              (map (fun InVeg => InVeg - 1) (snd item)))
                  items VegetationMapping
    end in
  mkConf VegetationMapping
         (get_default (yaml_search_radius ConfigFile) 2)
         (get_default (yaml_latitude_band ConfigFile) 8)
         (get_default (yaml_minimum_points ConfigFile) 1)
         (yaml_per_cell ConfigFile)
         (yaml_per_tile ConfigFile).

(** [MappingConf['per_cell']] *)
Definition required {A} (o : option A) : result A :=
  match o with Some a => Ok a | None => Raise KeyError end.

(** ** Datasets *)

(** The variables of an xarray dataset, by name. *)
Definition variables : Type := string -> option (arr3 num).

Definition var_set (d : variables) (name : string) (a : arr3 num) : variables :=
  fun k => if String.eqb k name then Some a else d k.

Definition getitem (d : variables) (name : string) : result (arr3 num) :=
  required (d name).

(** The output dataset: the sizes of its coordinates veg, lat, lon and its
    data variables. *)
Record Dataset : Type := mkDataset
  { coords : nat * nat * nat; data_vars : variables }.

Definition shape3 {A} (a : arr3 A) : nat * nat * nat := (nveg a, nlat a, nlon a).

Definition shape_eqb (s t : nat * nat * nat) : bool :=
  ((fst (fst s) =? fst (fst t)) && (snd (fst s) =? snd (fst t))
   && (snd s =? snd t))%nat.

(** [ds[name] = (('veg', 'lat', 'lon'), a)]: xarray refuses an array whose
    sizes conflict with the coordinates. *)
Definition ds_assign (ds : Dataset) (name : string) (a : arr3 num)
  : result Dataset :=
  if shape_eqb (shape3 a) (coords ds)
  then Ok (mkDataset (coords ds) (var_set (data_vars ds) name a))
  else Raise ValueError.

(** Lines 74-101: only the shape of [OutputVegetation] is used. *)
Definition setup_output_dataset (OutputVegetation : arr3 num)
    (InputDataset : variables) (VariableList : list string) : Dataset :=
  let '(nOutputVeg, nLat, nLon) := shape3 OutputVegetation in
  mkDataset (nOutputVeg, nLat, nLon) (fun _ => None).

(** ** Fill and empty policy (lines 222-241) *)

Definition tiles_policy (FillAll : bool) (InputVegetation OutputVegetation : arr3 num)
  : result (arr3 bool * arr3 bool) :=
  if FillAll then
    let TilesToFill := map3 le0 InputVegetation in
    let TilesToEmpty := map3 (fun _ => false) InputVegetation in
    Ok (TilesToFill, TilesToEmpty)
  else
    TilesToFill <- zip3 andb (map3 le0 InputVegetation)
                             (map3 gt0 OutputVegetation) ;;
    let TilesToEmpty := map3 le0 OutputVegetation in
    Ok (TilesToFill, TilesToEmpty).

(** ** Per-cell aggregation (lines 243-270) *)

(** The mask of [MaskedInputVegetation]. *)
Definition masked_out (frac : num) : bool := le0 frac || isnan frac.

(** A masked product entry counts as 0 in the sum ([filled(0).sum]). *)
Definition weighted (value frac : num) : num :=
  if masked_out frac then zero else nmul value frac.

Definition sum_axis0 (a : arr3 num) : arr2 num :=
  mkArr2 (nlat a) (nlon a)
         (fun i j => nsum (map (fun k => at3 a k i j) (seq 0 (nveg a)))).

(** [numpy.stack([a] * n, axis=0)]: an empty list cannot be stacked. *)
Definition stack (n : nat) (a : arr2 num) : result (arr3 num) :=
  if (n =? 0)%nat then Raise ValueError
  else Ok (mkArr3 n (nrow a) (ncol a) (fun _ i j => at2 a i j)).

(** [dst[mask] = src[mask]]: both boolean indexings need the mask's shape;
    gather and scatter walk the marked cells in the same order. *)
Definition masked_copy (dst : arr3 num) (mask : arr3 bool) (src : arr3 num)
  : result (arr3 num) :=
  if same_shape3 src mask && same_shape3 dst mask
  then Ok (mkArr3 (nveg dst) (nlat dst) (nlon dst)
             (fun v i j => if at3 mask v i j then at3 src v i j else at3 dst v i j))
  else Raise IndexError.

(** [dst[mask] = x] *)
Definition masked_fill (dst : arr3 num) (mask : arr3 bool) (x : num)
  : result (arr3 num) :=
  if same_shape3 dst mask
  then Ok (mkArr3 (nveg dst) (nlat dst) (nlon dst)
             (fun v i j => if at3 mask v i j then x else at3 dst v i j))
  else Raise IndexError.

(** ** Per-tile synthesis (lines 280-355) *)

Definition size3 {A} (a : arr3 A) : nat := (nveg a * nlat a * nlon a)%nat.

(** The mask [numpy.ma.masked_array(data, mask=m)] ends up with: [m] itself
    when the shapes agree, a one-element mask repeated, a mask of the same
    size reshaped in C order, and an error otherwise. *)
Definition masked_array_mask (data : arr3 num) (m : arr3 bool)
  : result (arr3 bool) :=
  if same_shape3 data m then Ok m
  else if (size3 m =? 1)%nat then
    Ok (mkArr3 (nveg data) (nlat data) (nlon data) (fun _ _ _ => at3 m 0 0 0)%nat)
  else if (size3 m =? size3 data)%nat then
    Ok (mkArr3 (nveg data) (nlat data) (nlon data)
          (fun v i j =>
             let f := ((v * nlat data + i) * nlon data + j)%nat in
             at3 m (f / (nlat m * nlon m))%nat
                   ((f / nlon m) mod nlat m)%nat
                   (f mod nlon m)%nat))
  else Raise MaskError.

(** The indices [numpy.ma.ndenumerate] yields: the unmasked cells, C order. *)
Definition ndenumerate (shape : nat * nat * nat) (mask : arr3 bool)
  : list (nat * nat * nat) :=
  let '(n, r, c) := shape in
  filter (fun p => negb (at3 mask (fst (fst p)) (snd (fst p)) (snd p)))
         (cells3 n r c).

Definition SearchMethods : list mask_method :=
  [ modify_mask_for_cell; modify_mask_for_nearest;
    modify_mask_for_latitude_band; modify_mask_for_global ].

(** What the stage loop leaves behind when it ends. *)
Record search_outcome : Type := mkOutcome
  { SearchMask_after : arr2 bool;
    ActiveTileMasks : list (arr2 bool);
    PointsFound : Z;
    stages_run : nat }.

(** Lines 309-326: the loop over the stages still to run; [last] is what the
    previous iteration bound (nothing before the first). *)
Fixpoint staged_search (stages : list (mask_method * option Z * Z))
    (InputVegetation : arr3 num) (VegMapping : dict) (OutVeg : nat) (Coord : coord)
    (SearchMask : arr2 bool) (done : nat) (last : option search_outcome)
  : result search_outcome :=
  match stages with
  | [] => match last with Some o => Ok o | None => Raise NameError end
  | (Method, Param, MinPoints) :: rest =>
      SearchMask' <- Method SearchMask Param Coord ;;
      InVegs <- dict_get VegMapping (Z.of_nat OutVeg) ;;
      Masks <- find_active_tiles SearchMask' InputVegetation InVegs ;;
      let now := mkOutcome SearchMask' Masks (points_found Masks) (S done) in
      if MinPoints <=? points_found Masks then Ok now
      else staged_search rest InputVegetation VegMapping OutVeg Coord
                         SearchMask' (S done) (Some now)
  end.

Definition ndiv (x : num) (n : Z) : num :=
  match x with NaN => NaN | Num q => Num (q / inject_Z n) end.

(** [Total / PointsFound]. With no contributing index both operands are
    plain Python numbers and dividing by 0 raises; otherwise they are numpy
    scalars and 0.0 / 0 is NaN. *)
Definition divide (Total : num) (PointsFound : Z) (numpy_scalars : bool)
  : result num :=
  if PointsFound =? 0
  then if numpy_scalars then Ok NaN else Raise ZeroDivisionError
  else Ok (ndiv Total PointsFound).

(** Lines 342-348: the loop over [zip(VegMapping[OutVeg], ActiveTileMasks)]. *)
Fixpoint tile_total (InputDataset : variables) (Variable_ : string)
    (pairs : list (Z * arr2 bool)) (Total : num) : result num :=
  match pairs with
  | [] => Ok Total
  | (InVeg, TileMask) :: rest =>
      Var <- getitem InputDataset Variable_ ;;
      VarData <- plane Var InVeg ;;
      Selected <- select VarData TileMask ;;
      let TotalForVegType := nsum Selected in
      tile_total InputDataset Variable_ rest (nadd Total TotalForVegType)
  end.

Definition nonempty {A} (l : list A) : bool :=
  match l with [] => false | _ :: _ => true end.

Section Remap.

(** [true] when [to_numpy] returns the dataset's own buffer, so that
    writing to the array also writes to [InputDataset]. *)
Variable view : bool.

(** [InputDataset] and [OutDataset] as the run goes on. *)
Record state : Type := mkState { Input : variables; Output : Dataset }.

(** The array [OutData] went through its in-place updates and was bound
    in the output dataset. *)
Definition store (s : state) (Variable_ : string) (OutData : arr3 num)
  : result state :=
  out <- ds_assign (Output s) Variable_ OutData ;;
  Ok (mkState (if view then var_set (Input s) Variable_ OutData else Input s)
              out).

(** Lines 254-270, one variable. *)
Definition per_cell_variable (nOutputVeg : nat) (InputVegetation : arr3 num)
    (TilesToFill TilesToEmpty : arr3 bool) (s : state) (Variable_ : string)
  : result state :=
  Var <- getitem (Input s) Variable_ ;;
  Product <- zip3 weighted Var InputVegetation ;;
  AreaWeightedMean <- stack nOutputVeg (sum_axis0 Product) ;;
  OutData <- masked_copy Var TilesToFill AreaWeightedMean ;;
  OutData <- masked_fill OutData TilesToEmpty zero ;;
  store s Variable_ OutData.

(** Lines 274-278, one variable. *)
Definition per_tile_variable (TilesToEmpty : arr3 bool) (s : state)
    (Variable_ : string) : result state :=
  Var <- getitem (Input s) Variable_ ;;
  OutData <- masked_fill Var TilesToEmpty zero ;;
  store s Variable_ OutData.

(** [OutDataset[Variable][OutVeg, Lat, Lon] = x] *)
Definition assign_point (p : nat * nat * nat) (x : num) (s : state)
    (Variable_ : string) : result state :=
  Arr <- getitem (data_vars (Output s)) Variable_ ;;
  Arr' <- setitem3 Arr p x ;;
  Ok (mkState (if view then var_set (Input s) Variable_ Arr' else Input s)
              (mkDataset (coords (Output s))
                         (var_set (data_vars (Output s)) Variable_ Arr'))).

(** Lines 335-352, one variable. *)
Definition average_point (p : nat * nat * nat) (VegMapping : dict)
    (o : search_outcome) (s : state) (Variable_ : string) : result state :=
  InVegs <- dict_get VegMapping (Z.of_nat (fst (fst p))) ;;
  Total <- tile_total (Input s) Variable_
                      (combine InVegs (ActiveTileMasks o)) zero ;;
  Mean <- divide Total (PointsFound o)
                 (nonempty (combine InVegs (ActiveTileMasks o))) ;;
  assign_point p Mean s Variable_.

(** Lines 306-355, one unmasked point of [MaskedOutputVeg]. *)
Definition synthesise_point (InputVegetation : arr3 num) (Conf : MappingConf)
    (PerTileVariables : list string)
    (st : state * arr2 bool) (p : nat * nat * nat)
  : result (state * arr2 bool) :=
  let '(s, SearchMask) := st in
  let '(OutVeg, Lat, Lon) := p in
  let MinPointsFound := minimum_points Conf in
  let SearchParams :=
    [None; Some (search_radius Conf); Some (latitude_band Conf); None] in
  let PointsThreshold := [1; MinPointsFound; MinPointsFound; 1] in
  o <- staged_search
         (combine (combine SearchMethods SearchParams) PointsThreshold)
         InputVegetation (vegetation_map Conf) OutVeg
         (Z.of_nat Lon, Z.of_nat Lat) SearchMask 0%nat None ;;
  s' <- (if PointsFound o <? MinPointsFound
         then for_each (assign_point p zero) PerTileVariables s
         else for_each (average_point p (vegetation_map Conf) o)
                       PerTileVariables s) ;;
  Ok (s', full2 (nrow (SearchMask_after o)) (ncol (SearchMask_after o)) false).

(** Lines 188-357. [NewVegetation] is the module-level name the function
    reads at lines 214 and 216: [None] when it is not bound. *)
Definition remap_vegetation (NewVegetation : option (arr3 num))
    (InputDataset : variables) (InputVegetation OutputVegetation : arr3 num)
    (FillAll : bool) (Config : yaml) : result Dataset :=
  let '(nOutputVeg, nLat, nLon) := shape3 OutputVegetation in
  let Conf := prepare_mapping nOutputVeg Config in
  PerCellVariables <- required (per_cell Conf) ;;
  PerTileVariables <- required (per_tile Conf) ;;
  let OutDataset :=
    setup_output_dataset OutputVegetation InputDataset
                         (PerCellVariables ++ PerTileVariables) in
  Fractions <- match NewVegetation with
               | Some a => Ok a
               | None => Raise NameError
               end ;;
  OutDataset <- ds_assign OutDataset "FRACTIONS OF SURFACE TYPES" Fractions ;;
  OutDataset <- ds_assign OutDataset "PREVIOUS YEAR SURF FRACTIONS (TILES)"
                          Fractions ;;
  '(TilesToFill, TilesToEmpty) <-
    tiles_policy FillAll InputVegetation OutputVegetation ;;
  s <- for_each (per_cell_variable nOutputVeg InputVegetation
                                   TilesToFill TilesToEmpty)
                PerCellVariables (mkState InputDataset OutDataset) ;;
  s <- for_each (per_tile_variable TilesToEmpty) PerTileVariables s ;;
  Mask <- masked_array_mask OutputVegetation (map3 negb TilesToFill) ;;
  let SearchMask := full2 nLat nLon false in
  final <- for_each (synthesise_point InputVegetation Conf PerTileVariables)
                    (ndenumerate (shape3 OutputVegetation) Mask)
                    (s, SearchMask) ;;
  Ok (Output (fst final)).

End Remap.

(** * Specification vocabulary *)

(** A valid position on an axis, and the position it names. *)
Definition valid_index (n : nat) (i : Z) : Prop := - Z.of_nat n <= i < Z.of_nat n.

Definition position (n : nat) (i : Z) : nat :=
  Z.to_nat (if i <? 0 then i + Z.of_nat n else i).

(** [M'] has the shape of [M] and marks every cell [M] marks. *)
Definition covers (M M' : arr2 bool) : Prop :=
  nrow M' = nrow M /\ ncol M' = ncol M /\
  forall i j, at2 M i j = true -> at2 M' i j = true.

(** The active tile mask of the design document for one contributing
    vegetation type: the search mask, and the fraction not missing, and the
    fraction positive, cell by cell. *)
Definition is_active_tile_mask (SearchMask : arr2 bool) (InputVegetation : arr3 num)
    (VegType : Z) (T : arr2 bool) : Prop :=
  nrow T = nrow SearchMask /\ ncol T = ncol SearchMask /\
  forall i j, (i < nrow SearchMask)%nat -> (j < ncol SearchMask)%nat ->
    let fraction := at3 InputVegetation (position (nveg InputVegetation) VegType) i j in
    at2 T i j = at2 SearchMask i j && negb (isnan fraction) && gt0 fraction.

(** Every cell of a cube of masks is false. *)
Definition all_false (a : arr3 bool) : Prop := forall v i j, at3 a v i j = false.

(** Small grids for examples. *)
Definition cube {A} (d : A) (l : list (list (list A))) : arr3 A :=
  mkArr3 (List.length l) (List.length (nth 0 l [])) (List.length (nth 0 (nth 0 l []) []))
         (fun v i j => nth j (nth i (nth v l []) []) d).

Definition q (z : Z) : num := Num (inject_Z z).
Definition half : num := Num (1 # 2).

(** One vegetation type on one cell, half covered. *)
Definition one_tile : arr3 num := cube NaN [[[half]]].

(** The per-cell value of the design document at grid cell [(i, j)]: the sum
    over the input vegetation types of value times fraction, leaving out the
    types whose fraction is missing or not positive. *)
Definition area_weighted_sum (Var InputVegetation : arr3 num) (i j : nat) : num :=
  nsum (map (fun k => nmul (at3 Var k i j) (at3 InputVegetation k i j))
            (filter (fun k => negb (isnan (at3 InputVegetation k i j)
                                    || le0 (at3 InputVegetation k i j)))
                    (seq 0 (nveg InputVegetation)))).

(** A position inside a cube. *)
Definition inside {A} (a : arr3 A) (v i j : nat) : Prop :=
  (v < nveg a)%nat /\ (i < nlat a)%nat /\ (j < nlon a)%nat.

(** The values of a variable at all matched (contributing type, cell)
    pairs, pooled into one list: for each contributing type in turn, the
    value at every cell its active tile mask marks. *)
Definition matched_values (Var : arr3 num) (InVegs : list Z)
    (Masks : list (arr2 bool)) : list num :=
  flat_map (fun pair =>
              map (fun cell => at3 Var (position (nveg Var) (fst pair))
                                   (fst cell) (snd cell))
                  (marked (snd pair)))
           (combine InVegs Masks).

(** The stages of one episode with their parameters and thresholds
    (lines 291-302 and 309). *)
Definition stages_of (Conf : MappingConf) : list (mask_method * option Z * Z) :=
  combine (combine SearchMethods
                   [None; Some (search_radius Conf); Some (latitude_band Conf); None])
          [1; minimum_points Conf; minimum_points Conf; 1].

(** The stage loop of the episode at [(OutVeg, Lat, Lon)], from the mask
    the episode starts with. *)
Definition episode_search (InputVegetation : arr3 num) (Conf : MappingConf)
    (SearchMask : arr2 bool) (p : nat * nat * nat) : result search_outcome :=
  let '(OutVeg, Lat, Lon) := p in
  staged_search (stages_of Conf) InputVegetation (vegetation_map Conf) OutVeg
                (Z.of_nat Lon, Z.of_nat Lat) SearchMask 0%nat None.

(** Every per-tile variable is in the input and bound in the output, on
    the grid of [OutputVegetation]; when [to_numpy] returns views the two
    are one buffer. *)
Definition tiles_ready (view : bool) (OutputVegetation : arr3 num)
    (PerTile : list string) (s : state) : Prop :=
  coords (Output s) = shape3 OutputVegetation /\
  forall name, In name PerTile ->
    exists V Out,
      Input s name = Some V /\ shape3 V = shape3 OutputVegetation /\
      data_vars (Output s) name = Some Out /\
      shape3 Out = shape3 OutputVegetation /\
      (view = true -> V = Out).

(** Two arrays of one shape that agree everywhere except possibly at [p]. *)
Definition same_off (p : nat * nat * nat) (V V' : arr3 num) : Prop :=
  shape3 V = shape3 V' /\
  forall v i j, (v, i, j) <> p -> at3 V v i j = at3 V' v i j.

(** The input variables of [s'] are those of [s] except possibly at [p]. *)
Definition inputs_kept (p : nat * nat * nat) (s s' : state) : Prop :=
  forall name V, Input s name = Some V ->
    exists V', Input s' name = Some V' /\ same_off p V V'.

(** The value a bound output variable holds at a point. *)
Definition output_at (s : state) (name : string) (p : nat * nat * nat)
  : option num :=
  match data_vars (Output s) name with
  | Some Out => Some (at3 Out (fst (fst p)) (snd (fst p)) (snd p))
  | None => None
  end.

(** What makes one episode well defined: grids of one shape, the point on
    the grid and among the tiles to fill, a search mask of the grid's plane,
    and contributing types that index the vegetation axis. *)
Record episode_ready (InputVegetation OutputVegetation : arr3 num)
    (Conf : MappingConf) (SearchMask : arr2 bool) (p : nat * nat * nat)
    (InVegs : list Z) : Prop := mkReady
  { ready_shape : same_shape3 InputVegetation OutputVegetation = true;
    ready_inside : inside OutputVegetation (fst (fst p)) (snd (fst p)) (snd p);
    ready_fill :
      le0 (at3 InputVegetation (fst (fst p)) (snd (fst p)) (snd p)) = true;
    ready_rows : nrow SearchMask = nlat OutputVegetation;
    ready_cols : ncol SearchMask = nlon OutputVegetation;
    ready_types :
      dict_get (vegetation_map Conf) (Z.of_nat (fst (fst p))) = Ok InVegs;
    ready_valid : Forall (valid_index (nveg InputVegetation)) InVegs }.

(** What the episode may rely on in the outcome of the stage loop. *)
Definition outcome_ok (IV : arr3 num) (InVegs : list Z) (M : arr2 bool)
    (o : search_outcome) : Prop :=
  covers M (SearchMask_after o) /\
  Forall2 (is_active_tile_mask (SearchMask_after o) IV) InVegs (ActiveTileMasks o) /\
  PointsFound o = points_found (ActiveTileMasks o).

(** The arithmetic mean of the pooled matched values. *)
Definition pooled_mean (Var : arr3 num) (InVegs : list Z)
    (Masks : list (arr2 bool)) : num :=
  ndiv (nsum (matched_values Var InVegs Masks))
       (Z.of_nat (List.length (matched_values Var InVegs Masks))).

(** The pooled mean of a named input variable. *)
Definition pooled_mean_of (s : state) (InVegs : list Z)
    (Masks : list (arr2 bool)) (name : string) : num :=
  match Input s name with
  | Some Var => pooled_mean Var InVegs Masks
  | None => NaN
  end.

(** The names of the two fraction variables written at lines 213-216. *)
Definition FRACTIONS : string := "FRACTIONS OF SURFACE TYPES".
Definition PREVIOUS : string := "PREVIOUS YEAR SURF FRACTIONS (TILES)".

(** The output dataset after line 216, once the fractions are in. *)
Definition start_dataset (OutputVegetation Fractions : arr3 num) : Dataset :=
  mkDataset (shape3 OutputVegetation)
            (var_set (var_set (fun _ => None) FRACTIONS Fractions)
                     PREVIOUS Fractions).

(** Lines 218-357: the run from the fill policy on. *)
Definition synthesis (view : bool) (Conf : MappingConf)
    (PerCellVariables PerTileVariables : list string) (OutDataset : Dataset)
    (InputDataset : variables) (InputVegetation OutputVegetation : arr3 num)
    (FillAll : bool) : result Dataset :=
  '(TilesToFill, TilesToEmpty) <-
    tiles_policy FillAll InputVegetation OutputVegetation ;;
  s <- for_each (per_cell_variable view (nveg OutputVegetation) InputVegetation
                                   TilesToFill TilesToEmpty)
                PerCellVariables (mkState InputDataset OutDataset) ;;
  s <- for_each (per_tile_variable view TilesToEmpty) PerTileVariables s ;;
  Mask <- masked_array_mask OutputVegetation (map3 negb TilesToFill) ;;
  final <- for_each (synthesise_point view InputVegetation Conf PerTileVariables)
                    (ndenumerate (shape3 OutputVegetation) Mask)
                    (s, full2 (nlat OutputVegetation) (nlon OutputVegetation) false) ;;
  Ok (Output (fst final)).

Definition valid_indexb (n : nat) (i : Z) : bool :=
  (- Z.of_nat n <=? i) && (i <? Z.of_nat n).

Definition on_grid (OutputVegetation : arr3 num) (d : variables) (name : string)
  : bool :=
  match d name with
  | Some V => shape_eqb (shape3 V) (shape3 OutputVegetation)
  | None => false
  end.

(** The inputs on which the run is well defined: both variable lists are
    configured, the module-level fractions are bound on the output grid,
    the two fraction grids have one shape with at least one vegetation type,
    every configured variable lies on that grid, every contributing type
    indexes the input vegetation axis, and [minimum_points] is positive. *)
Definition well_formed_run (NewVegetation : option (arr3 num))
    (InputDataset : variables) (InputVegetation OutputVegetation : arr3 num)
    (Config : yaml) : bool :=
  let Conf := prepare_mapping (nveg OutputVegetation) Config in
  match per_cell Conf, per_tile Conf, NewVegetation with
  | Some PerCell, Some PerTile, Some Fractions =>
      shape_eqb (shape3 Fractions) (shape3 OutputVegetation)
      && same_shape3 InputVegetation OutputVegetation
      && (0 <? nveg OutputVegetation)%nat
      && forallb (on_grid OutputVegetation InputDataset) (PerCell ++ PerTile)
      && forallb (fun OutVeg =>
                    match dict_get (vegetation_map Conf) (Z.of_nat OutVeg) with
                    | Ok InVegs => forallb (valid_indexb (nveg InputVegetation)) InVegs
                    | Raise _ => false
                    end)
                 (seq 0 (nveg OutputVegetation))
      && (1 <=? minimum_points Conf)
  | _, _, _ => false
  end.

(** Two arrays of one shape that agree at every position of the grid. *)
Definition same_inside (V V' : arr3 num) : Prop :=
  shape3 V' = shape3 V /\
  forall v i j, inside V v i j -> at3 V' v i j = at3 V v i j.

(** A variable is in the input and bound in the output, both satisfying
    [R], and one buffer when [to_numpy] returns views. *)
Definition bound_ok (view : bool) (R : string -> arr3 num -> Prop) (s : state)
    (name : string) : Prop :=
  exists V Out,
    Input s name = Some V /\ R name V /\
    data_vars (Output s) name = Some Out /\ R name Out /\
    (view = true -> V = Out).

(** Every listed variable is in the input and satisfies [R]. *)
Definition inputs_ok (R : string -> arr3 num -> Prop) (names : list string)
    (s : state) : Prop :=
  forall name, In name names -> exists V, Input s name = Some V /\ R name V.

(** The state a variable step leaves: [OutData] bound in the output and,
    with views, written through to the input. *)
Definition stored (view : bool) (s : state) (name : string) (OutData : arr3 num)
  : state :=
  mkState (if view then var_set (Input s) name OutData else Input s)
          (mkDataset (coords (Output s))
                     (var_set (data_vars (Output s)) name OutData)).

(** No tile of the grid has a fraction [<= 0.0]. *)
Definition fully_populated (InputVegetation : arr3 num) : bool :=
  forallb (fun p => negb (le0 (at3 InputVegetation (fst (fst p)) (snd (fst p)) (snd p))))
          (cells3 (nveg InputVegetation) (nlat InputVegetation)
                  (nlon InputVegetation)).

(** The variables the configuration names, per-cell first. *)
Definition configured (Config : yaml) : list string :=
  get_default (yaml_per_cell Config) [] ++ get_default (yaml_per_tile Config) [].

(** ** A worked example

    A 3 by 3 grid with two vegetation types. In the input, type 1 covers
    half of the north-east cell and type 2 a quarter of the south-west cell;
    the output map makes type 1 newly active at the centre. Output type 1 is
    configured to draw on input types 1 and 2. *)

Definition ex_IV : arr3 num := cube NaN
  [ [ [q 0; q 0; half]; [q 0; q 0; q 0]; [q 0; q 0; q 0] ];
    [ [q 0; q 0; q 0]; [q 0; q 0; q 0]; [Num (1 # 4); q 0; q 0] ] ].

Definition ex_OV : arr3 num := cube NaN
  [ [ [q 0; q 0; half]; [q 0; Num (1 # 3); q 0]; [q 0; q 0; q 0] ];
    [ [q 0; q 0; q 0]; [q 0; q 0; q 0]; [Num (1 # 4); q 0; q 0] ] ].

Definition ex_T : arr3 num := cube NaN
  [ [ [q 1; q 2; q 10]; [q 4; q 5; q 6]; [q 7; q 8; q 9] ];
    [ [q 11; q 12; q 13]; [q 14; q 15; q 16]; [q 20; q 18; q 19] ] ].

Definition ex_inputs : variables :=
  var_set (var_set (fun _ => None) "T" ex_T) "C" ex_T.

(** [search_radius: 1] and the given [minimum_points]; one per-cell and one
    per-tile variable. *)
Definition ex_yaml (minimum : Z) : yaml :=
  mkYaml (Some [(1, [1; 2])]) (Some 1) None (Some minimum)
         (Some ["C"%string]) (Some ["T"%string]).

Definition ex_conf (minimum : Z) : MappingConf := prepare_mapping 2 (ex_yaml minimum).

(** The state when the episodes begin: the per-tile variable is bound. *)
Definition ex_state : state :=
  mkState ex_inputs (mkDataset (2, 3, 3)%nat (var_set (fun _ => None) "T" ex_T)).

Definition unwrap {A} (d : A) (r : result A) : A :=
  match r with Ok a => a | Raise _ => d end.

Definition ex_empty_mask : arr2 bool := full2 3 3 false.

(** The search mask after the cell stage and after the radius stage at the
    centre. *)
Definition ex_cell_mask : arr2 bool :=
  unwrap ex_empty_mask (modify_mask_for_cell ex_empty_mask None (1, 1)).
Definition ex_block_mask : arr2 bool :=
  unwrap ex_empty_mask (modify_mask_for_nearest ex_cell_mask (Some 1) (1, 1)).

(** The value of a variable of a returned dataset at a position. *)
Definition value_at (r : result Dataset) (name : string) (v i j : nat)
  : option num :=
  match r with
  | Ok d => option_map (fun a => at3 a v i j) (data_vars d name)
  | Raise _ => None
  end.

(** Grids of different vegetation lengths: two input types, three output
    types, on a single cell; and one input type against two output types. *)
Definition two_types : arr3 num := cube NaN [ [[q 0]]; [[half]] ].
Definition three_types : arr3 num := cube NaN [ [[half]]; [[q 0]]; [[half]] ].
Definition two_full : arr3 num := cube NaN [ [[half]]; [[half]] ].

Definition no_variables : yaml := mkYaml None None None None (Some []) (Some []).
Definition one_per_cell : yaml :=
  mkYaml None None None None (Some ["C"%string]) (Some []).
Definition one_per_tile : yaml :=
  mkYaml None None None None (Some []) (Some ["T"%string]).
Definition only (name : string) (a : arr3 num) : variables :=
  var_set (fun _ => None) name a.

(** * Further vocabulary: the stages in closed form, whole runs, the script *)

(** The cells the radius stage adds around [(Lat, Lon)]: rows within
    [radius] of [Lat], columns within [radius] of [Lon] around the globe. *)
(** One axis broadcasts against another: equal lengths, or one of them 1. *)
Definition broadcasts (a b : nat) : bool :=
  ((a =? b) || (a =? 1) || (b =? 1))%nat.

(** The search mask broadcasts against the lat/lon plane of the grid. *)
Definition mask_broadcasts (SearchMask : arr2 bool) (InputVegetation : arr3 num)
  : bool :=
  broadcasts (nlat InputVegetation) (nrow SearchMask)
  && broadcasts (nlon InputVegetation) (ncol SearchMask).

(** A bound on a search radius or band: far beyond any grid, and far inside
    the range where [numpy.arange(-r, r + 1)] is the array of the [2r + 1]
    consecutive indices (it is empty or raises from [r = 2^62] on). *)
Definition search_extent_limit : Z := 65536.

Definition in_block (nLon : nat) (radius Lat Lon : Z) (i j : nat) : bool :=
  (Z.abs (Z.of_nat i - Lat) <=? radius)
  && ((Z.of_nat j - Lon + radius) mod Z.of_nat nLon <=? 2 * radius).

(** The rows the band stage adds around [Lat]. *)
Definition in_band (band Lat : Z) (i : nat) : bool :=
  Z.abs (Z.of_nat i - Lat) <=? band.

(** The search mask after the first [k] stages at a coordinate. *)
Definition apply_stages (Conf : MappingConf) (Coord : coord) (k : nat)
    (SearchMask : arr2 bool) : result (arr2 bool) :=
  for_each (fun m stage => fst (fst stage) m (snd (fst stage)) Coord)
           (firstn k (stages_of Conf)) SearchMask.

(** The points the filter finds with the mask after the first [k] stages. *)
Definition points_at_stage (InputVegetation : arr3 num) (InVegs : list Z)
    (Conf : MappingConf) (Coord : coord) (SearchMask : arr2 bool) (k : nat)
  : result Z :=
  M <- apply_stages Conf Coord k SearchMask ;;
  Masks <- find_active_tiles M InputVegetation InVegs ;;
  Ok (points_found Masks).

(** The threshold of stage [k], counted from 1 ([PointsThreshold], line 302). *)
Definition stage_threshold (Conf : MappingConf) (k : nat) : Z :=
  snd (nth (k - 1) (stages_of Conf) (modify_mask_for_global, None, 1)).

(** No contributing type covers any cell of the grid. *)
Definition absent_everywhere (InputVegetation : arr3 num) (InVegs : list Z) : Prop :=
  forall InVeg i j, In InVeg InVegs ->
    (i < nlat InputVegetation)%nat -> (j < nlon InputVegetation)%nat ->
    gt0 (at3 InputVegetation (position (nveg InputVegetation) InVeg) i j) = false.

(** Every cell of a plane mask is unmarked, or marked. *)
Definition unmarked (M : arr2 bool) : Prop := forall i j, at2 M i j = false.
Definition all_marked (M : arr2 bool) : Prop := forall i j, at2 M i j = true.

(** The value an episode writes at its point: zero when the search found
    fewer than [minimum_points] points, else the pooled mean over the data
    of [s] (lines 331-352). *)
Definition episode_value (Conf : MappingConf) (s : state) (InVegs : list Z)
    (o : search_outcome) (name : string) : num :=
  if PointsFound o <? minimum_points Conf then zero
  else pooled_mean_of s InVegs (ActiveTileMasks o) name.

(** The fill and empty policy cell by cell (lines 222-241). *)
Definition to_fill (FillAll : bool) (InputVegetation OutputVegetation : arr3 num)
    (v i j : nat) : bool :=
  le0 (at3 InputVegetation v i j)
  && (FillAll || gt0 (at3 OutputVegetation v i j)).

Definition to_empty (FillAll : bool) (OutputVegetation : arr3 num)
    (v i j : nat) : bool :=
  negb FillAll && le0 (at3 OutputVegetation v i j).

(** The input variables of [s'] are those of [s] wherever the input
    fraction is not [<= 0.0]. *)
Definition sources_kept (InputVegetation : arr3 num) (s s' : state) : Prop :=
  forall name V, Input s name = Some V ->
    exists V', Input s' name = Some V' /\ shape3 V' = shape3 V /\
      forall v i j, le0 (at3 InputVegetation v i j) = false ->
                    at3 V' v i j = at3 V v i j.

(** The output of [s'] is that of [s] at every position outside [points]. *)
Definition outputs_kept_outside (points : list (nat * nat * nat))
    (s s' : state) : Prop :=
  forall n q, ~ In q points -> output_at s' n q = output_at s n q.

(** A point of the grid among the tiles to fill. *)
Definition fill_point (InputVegetation OutputVegetation : arr3 num)
    (p : nat * nat * nat) : Prop :=
  inside OutputVegetation (fst (fst p)) (snd (fst p)) (snd p) /\
  le0 (at3 InputVegetation (fst (fst p)) (snd (fst p)) (snd p)) = true.

(** Lines 197-278: the state when the two loops over the configured
    variables are done. *)
Definition variables_done (view : bool) (NewVegetation : option (arr3 num))
    (InputDataset : variables) (InputVegetation OutputVegetation : arr3 num)
    (FillAll : bool) (Config : yaml) : result state :=
  let Conf := prepare_mapping (nveg OutputVegetation) Config in
  PerCellVariables <- required (per_cell Conf) ;;
  PerTileVariables <- required (per_tile Conf) ;;
  Fractions <- match NewVegetation with
               | Some a => Ok a
               | None => Raise NameError
               end ;;
  '(TilesToFill, TilesToEmpty) <-
    tiles_policy FillAll InputVegetation OutputVegetation ;;
  s <- for_each (per_cell_variable view (nveg OutputVegetation) InputVegetation
                                   TilesToFill TilesToEmpty)
                PerCellVariables
                (mkState InputDataset (start_dataset OutputVegetation Fractions)) ;;
  for_each (per_tile_variable view TilesToEmpty) PerTileVariables s.

(** The mask every episode of a run starts with (lines 288 and 355). *)
Definition unmarked_plane (OutputVegetation : arr3 num) : arr2 bool :=
  full2 (nlat OutputVegetation) (nlon OutputVegetation) false.

(** An array on the output grid that holds the value of the input variable
    of its name on every tile the run neither fills nor empties. *)
Definition untouched_kept (InputDataset : variables) (OutputVegetation : arr3 num)
    (Fill Empty : arr3 bool) (name : string) (D : arr3 num) : Prop :=
  shape3 D = shape3 OutputVegetation /\
  exists V0, InputDataset name = Some V0 /\
    forall v i j, inside OutputVegetation v i j ->
      at3 Fill v i j = false -> at3 Empty v i j = false ->
      at3 D v i j = at3 V0 v i j.

(** The contributing types the prepared configuration holds for output
    type [k] (counted from 0): those of the last entry of the YAML
    [vegetation_map] for type [k + 1], each less one; without such an entry,
    [k] itself when [k] is one of the [nVeg] types; otherwise none. *)
Definition contributing (nVeg : nat) (Config : yaml) (k : Z) : result (list Z) :=
  match find (fun item => fst item - 1 =? k)
             (rev (get_default (yaml_vegetation_map Config) [])) with
  | Some item => Ok (map (fun InVeg => InVeg - 1) (snd item))
  | None => if (0 <=? k) && (k <? Z.of_nat nVeg) then Ok [k] else Raise KeyError
  end.

(** While a run is on its variable loops: the output is on the grid, the
    variable [name] is not in the input, and every other configured variable
    is, on the grid. *)
Definition missing_only (OutputVegetation : arr3 num) (all : list string)
    (name : string) (s : state) : Prop :=
  coords (Output s) = shape3 OutputVegetation /\
  Input s name = None /\
  forall n, In n all -> n <> name ->
    exists V, Input s n = Some V /\ shape3 V = shape3 OutputVegetation.

(** The array a per-cell step binds for an input array [V0] (lines 254-270). *)
Definition per_cell_result (InputVegetation OutputVegetation : arr3 num)
    (Fill Empty : arr3 bool) (V0 D : arr3 num) : Prop :=
  shape3 D = shape3 OutputVegetation /\
  forall v i j, inside OutputVegetation v i j ->
    at3 D v i j = if at3 Empty v i j then zero
                  else if at3 Fill v i j
                       then area_weighted_sum V0 InputVegetation i j
                       else at3 V0 v i j.

(** Some contributing type has a positive fraction at some cell of the grid. *)
Definition present_somewhere (InputVegetation : arr3 num) (InVegs : list Z) : Prop :=
  exists InVeg i j,
    In InVeg InVegs /\
    (i < nlat InputVegetation)%nat /\ (j < nlon InputVegetation)%nat /\
    gt0 (at3 InputVegetation (position (nveg InputVegetation) InVeg) i j) = true.

(** No tile with a positive input fraction is among the tiles the run
    empties: always so with fill-all, and without it when every such tile
    keeps an output fraction that is not [<= 0.0]. *)
Definition no_source_emptied (FillAll : bool)
    (InputVegetation OutputVegetation : arr3 num) : Prop :=
  forall v i j, inside OutputVegetation v i j ->
    gt0 (at3 InputVegetation v i j) = true ->
    to_empty FillAll OutputVegetation v i j = false.

(** The value of a filled tile in terms of the input variable [Var]: zero
    when the search found fewer than [minimum_points] points, else the
    mean of [Var] over the matched pairs. *)
Definition filled_value (Conf : MappingConf) (Var : arr3 num) (InVegs : list Z)
    (o : search_outcome) : num :=
  if PointsFound o <? minimum_points Conf then zero
  else ndiv (nsum (matched_values Var InVegs (ActiveTileMasks o)))
            (PointsFound o).

(** ** Further example data *)

(** An input grid on which no vegetation type covers any cell. *)
Definition ex_bare_IV : arr3 num := mkArr3 2 3 3 (fun _ _ _ => q 0).

(** What the stage loop leaves at the centre of the worked example. *)
Definition ex_outcome : search_outcome :=
  unwrap (mkOutcome ex_empty_mask [] 0 0)
         (episode_search ex_IV (ex_conf 1) ex_empty_mask (0, 1, 1)%nat).

(** The state and mask after the episode at the centre. *)
Definition ex_after_centre : state * arr2 bool :=
  unwrap (ex_state, ex_empty_mask)
         (for_each (synthesise_point true ex_IV (ex_conf 1) ["T"%string])
                   [(0, 1, 1)%nat] (ex_state, ex_empty_mask)).

(** The dataset the worked example returns. *)
Definition ex_out : Dataset :=
  unwrap (mkDataset (0, 0, 0)%nat (fun _ => None))
         (remap_vegetation true (Some ex_OV) ex_inputs ex_IV ex_OV false (ex_yaml 1)).

(** A configuration without the two variable lists, and one whose only
    per-tile variable goes by the name of the fraction field. *)
Definition no_lists : yaml := mkYaml None None None None None None.
Definition fraction_as_variable : yaml :=
  mkYaml None None None None (Some []) (Some [FRACTIONS]).

(** One vegetation type on two cells: the tile at the west exists in the
    input (value 10) and leaves in the new map, the tile at the east is
    new. *)
Definition leaving_IV : arr3 num := cube NaN [[[half; q 0]]].
Definition leaving_OV : arr3 num := cube NaN [[[q 0; half]]].
Definition leaving_T : arr3 num := cube NaN [[[q 10; q 0]]].


(** * Properties *)

(** ** The result monad and loops *)

Lemma bind_ok {A B} (r : result A) (k : A -> result B) (b : B) :
  bind r k = Ok b -> exists a, r = Ok a /\ k a = Ok b.
Proof.
  destruct r as [a|e]; simpl; intros H; [exists a; auto | discriminate].
Qed.

Tactic Notation "bind_inv" hyp(H) "as" ident(x) ident(Hx) :=
  apply bind_ok in H; destruct H as (x & Hx & H).

(** A loop whose body keeps an invariant and never raises under it runs to
    the end and keeps the invariant. *)
Lemma for_each_total {S X} (body : S -> X -> result S) (Inv : S -> Prop)
    (P : X -> Prop) :
  (forall s x, Inv s -> P x -> exists s', body s x = Ok s' /\ Inv s') ->
  forall xs s, Forall P xs -> Inv s ->
    exists s', for_each body xs s = Ok s' /\ Inv s'.
Proof.
  intros Hbody xs; induction xs as [|x xs IH]; intros s HP Hinv; simpl.
  - exists s; auto.
  - inversion HP; subst.
    destruct (Hbody s x Hinv) as (s1 & -> & Hinv1); auto.
    simpl. apply IH; auto.
Qed.

(** The partial version: whatever a finished loop returns satisfies every
    invariant of its body. *)
Lemma for_each_inv {S X} (body : S -> X -> result S) (Inv : S -> Prop)
    (P : X -> Prop) :
  (forall s x s', Inv s -> P x -> body s x = Ok s' -> Inv s') ->
  forall xs s s', Forall P xs -> Inv s -> for_each body xs s = Ok s' -> Inv s'.
Proof.
  intros Hbody xs; induction xs as [|x xs IH]; intros s s' HP Hinv H; simpl in H.
  - inversion H; subst; auto.
  - inversion HP; subst. bind_inv H as s1 Hs1.
    apply (IH s1 s'); auto. apply (Hbody s x s1); auto.
Qed.

(** ** Shapes, broadcasting and indices *)

Lemma bdim_same n : bdim n n = Ok n.
Proof. unfold bdim. now rewrite Nat.eqb_refl. Qed.

Lemma bidx_lt n i : (i < n)%nat -> bidx n i = i.
Proof.
  unfold bidx. destruct (Nat.eqb_spec n 1); intros; [lia | reflexivity].
Qed.

Lemma bdim_ok a b n :
  bdim a b = Ok n -> (n = a /\ (b = a \/ b = 1%nat)) \/ (n = b /\ a = 1%nat).
Proof.
  unfold bdim.
  destruct (Nat.eqb_spec a b); [intros [= <-]; auto|].
  destruct (Nat.eqb_spec a 1); [intros [= <-]; auto|].
  destruct (Nat.eqb_spec b 1); [intros [= <-]; auto|discriminate].
Qed.

(** Reading through a broadcast result and then through an operand is
    reading the operand directly. *)
Lemma bidx_bdim a b n i :
  bdim a b = Ok n -> bidx b (bidx n i) = bidx b i /\ bidx a (bidx n i) = bidx a i.
Proof.
  intros H. apply bdim_ok in H. unfold bidx.
  destruct (Nat.eqb_spec n 1), (Nat.eqb_spec a 1), (Nat.eqb_spec b 1);
    split; try reflexivity; lia.
Qed.

Lemma same_shape2_true {A B} (a : arr2 A) (b : arr2 B) :
  same_shape2 a b = true <-> nrow a = nrow b /\ ncol a = ncol b.
Proof.
  unfold same_shape2. rewrite andb_true_iff, !Nat.eqb_eq. tauto.
Qed.

Lemma same_shape3_true {A B} (a : arr3 A) (b : arr3 B) :
  same_shape3 a b = true <->
  nveg a = nveg b /\ nlat a = nlat b /\ nlon a = nlon b.
Proof.
  unfold same_shape3. rewrite !andb_true_iff, !Nat.eqb_eq. tauto.
Qed.

Lemma shape_eqb_true s t : shape_eqb s t = true <-> s = t.
Proof.
  destruct s as [[a b] c], t as [[a' b'] c']; unfold shape_eqb; simpl.
  rewrite !andb_true_iff, !Nat.eqb_eq.
  split; [intros [[-> ->] ->]; auto | intros [= -> -> ->]; auto].
Qed.

Lemma py_index_valid n i :
  valid_index n i -> py_index n i = Ok (position n i) /\ (position n i < n)%nat.
Proof.
  unfold valid_index, py_index, position. intros H.
  destruct (Z.leb_spec 0 i), (Z.ltb_spec i (Z.of_nat n)),
           (Z.leb_spec (- Z.of_nat n) i), (Z.ltb_spec i 0);
    simpl; try lia; split; try reflexivity; lia.
Qed.

Lemma py_index_invalid n i : ~ valid_index n i -> py_index n i = Raise IndexError.
Proof.
  unfold valid_index, py_index.
  destruct (Z.leb_spec 0 i), (Z.ltb_spec i (Z.of_nat n)),
           (Z.leb_spec (- Z.of_nat n) i), (Z.ltb_spec i 0);
    simpl; intros; try reflexivity; lia.
Qed.

Lemma in_cells2 r c i j : In (i, j) (cells2 r c) <-> (i < r)%nat /\ (j < c)%nat.
Proof.
  unfold cells2. rewrite in_flat_map. split.
  - intros (k & Hk & Hin). apply in_map_iff in Hin as (l & [= <- <-] & Hl).
    apply in_seq in Hk, Hl. lia.
  - intros [Hi Hj]. exists i. split; [apply in_seq; lia|].
    apply in_map. apply in_seq; lia.
Qed.

Lemma in_cells3 n r c v i j :
  In (v, i, j) (cells3 n r c) <-> (v < n)%nat /\ (i < r)%nat /\ (j < c)%nat.
Proof.
  unfold cells3. rewrite in_flat_map. split.
  - intros (k & Hk & Hin). apply in_map_iff in Hin as ([a b] & [= <- <- <-] & Hl).
    apply in_cells2 in Hl. apply in_seq in Hk. simpl. lia.
  - intros (Hv & Hi & Hj). exists v. split; [apply in_seq; lia|].
    apply in_map_iff. exists (i, j). split; auto. apply in_cells2; auto.
Qed.

(** ** Search masks only grow *)

Lemma covers_refl M : covers M M.
Proof. repeat split; auto. Qed.

Lemma covers_trans M1 M2 M3 : covers M1 M2 -> covers M2 M3 -> covers M1 M3.
Proof.
  intros (r12 & c12 & H12) (r23 & c23 & H23).
  repeat split; [congruence | congruence | auto].
Qed.

Lemma setitem2_covers M i j M' : setitem2 M i j true = Ok M' -> covers M M'.
Proof.
  unfold setitem2. intros H. bind_inv H as r Hr. bind_inv H as c Hc.
  inversion H; subst; clear H.
  repeat split; simpl; auto.
  intros i' j' Hm. now destruct ((i' =? r) && (j' =? c))%nat.
Qed.

Lemma setrow2_covers M i M' : setrow2 M i true = Ok M' -> covers M M'.
Proof.
  unfold setrow2. intros H. bind_inv H as r Hr. inversion H; subst; clear H.
  repeat split; simpl; auto.
  intros i' j' Hm. now destruct (i' =? r)%nat.
Qed.

(** A loop of steps that each only add marks only adds marks. *)
Lemma for_each_covers {X} (body : arr2 bool -> X -> result (arr2 bool)) :
  (forall M x M', body M x = Ok M' -> covers M M') ->
  forall xs M M', for_each body xs M = Ok M' -> covers M M'.
Proof.
  intros Hbody xs M M' H.
  apply (for_each_inv body (covers M) (fun _ => True)) with (xs := xs) (s := M);
    auto using covers_refl.
  - intros s x s' Hs _ Hstep. eapply covers_trans; eauto.
  - apply Forall_forall; auto.
Qed.

Lemma cell_covers M P C M' : modify_mask_for_cell M P C = Ok M' -> covers M M'.
Proof. destruct C as [Lon Lat]. apply setitem2_covers. Qed.

Lemma nearest_covers M P C M' :
  modify_mask_for_nearest M P C = Ok M' -> covers M M'.
Proof.
  destruct C as [Lon Lat], P as [radius|]; simpl; [|discriminate].
  apply for_each_covers. intros M1 LatSearch M2.
  apply for_each_covers. intros M3 LonSearch M4. apply setitem2_covers.
Qed.

Lemma latitude_band_covers M P C M' :
  modify_mask_for_latitude_band M P C = Ok M' -> covers M M'.
Proof.
  destruct C as [Lon Lat], P as [band|]; simpl; [|discriminate].
  apply for_each_covers. intros M1 LatSearch M2. apply setrow2_covers.
Qed.

Lemma global_covers M P C M' : modify_mask_for_global M P C = Ok M' -> covers M M'.
Proof. intros [= <-]. repeat split; auto. Qed.

Lemma method_covers Method M P C M' :
  In Method SearchMethods -> Method M P C = Ok M' -> covers M M'.
Proof.
  intros [<-|[<-|[<-|[<-|[]]]]];
    eauto using cell_covers, nearest_covers, latitude_band_covers, global_covers.
Qed.

(** Conjunction with a fixed mask keeps the order of masks, on either side. *)
Lemma zip2_andb_covers_r (A M M' T : arr2 bool) :
  covers M M' -> zip2 andb A M = Ok T ->
  exists T', zip2 andb A M' = Ok T' /\ covers T T'.
Proof.
  intros (Hr & Hc & Hm) H. unfold zip2 in *. rewrite Hr, Hc.
  bind_inv H as r Hrow. bind_inv H as c Hcol. rewrite Hrow, Hcol. simpl.
  inversion H; subst; clear H.
  eexists; split; [reflexivity|]. repeat split; simpl; auto.
  intros i j. rewrite !andb_true_iff. intros [Ha Hs]; auto.
Qed.

Lemma zip2_andb_covers_l (M M' B T : arr2 bool) :
  covers M M' -> zip2 andb M B = Ok T ->
  exists T', zip2 andb M' B = Ok T' /\ covers T T'.
Proof.
  intros (Hr & Hc & Hm) H. unfold zip2 in *. rewrite Hr, Hc.
  bind_inv H as r Hrow. bind_inv H as c Hcol. rewrite Hrow, Hcol. simpl.
  inversion H; subst; clear H.
  eexists; split; [reflexivity|]. repeat split; simpl; auto.
  intros i j. rewrite !andb_true_iff. intros [Ha Hs]; auto.
Qed.

(** More marks in the search mask give more marks in every active tile mask. *)
Lemma tile_search_map_covers M M' IV VegType T :
  covers M M' -> tile_search_map M IV VegType = Ok T ->
  exists T', tile_search_map M' IV VegType = Ok T' /\ covers T T'.
Proof.
  intros Hcov H. unfold tile_search_map in *.
  bind_inv H as frac Hfrac. rewrite Hfrac. simpl.
  bind_inv H as land Hland.
  destruct (zip2_andb_covers_r _ _ _ _ Hcov Hland) as (land' & -> & Hl). simpl.
  eapply zip2_andb_covers_l; eauto.
Qed.

Lemma find_active_tiles_covers M M' IV InVegs :
  covers M M' -> forall Masks, find_active_tiles M IV InVegs = Ok Masks ->
  exists Masks', find_active_tiles M' IV InVegs = Ok Masks' /\
                 Forall2 covers Masks Masks'.
Proof.
  intros Hcov. induction InVegs as [|VegType rest IH]; simpl; intros Masks H.
  - inversion H; subst. exists []; auto.
  - bind_inv H as T HT0. bind_inv H as others Hothers. inversion H; subst; clear H.
    destruct (tile_search_map_covers _ _ _ _ _ Hcov HT0) as (T' & -> & HT).
    destruct (IH _ Hothers) as (Masks' & -> & HM). simpl.
    eexists; split; [reflexivity|]. constructor; auto.
Qed.

Lemma filter_length_le {A} (f g : A -> bool) (l : list A) :
  (forall x, f x = true -> g x = true) ->
  (List.length (filter f l) <= List.length (filter g l))%nat.
Proof.
  intros H. induction l as [|a l IH]; simpl; auto.
  destruct (f a) eqn:Hf.
  - rewrite (H a Hf). simpl. lia.
  - destruct (g a); simpl; lia.
Qed.

Lemma count_true_covers T T' : covers T T' -> (count_true T <= count_true T')%nat.
Proof.
  intros (Hr & Hc & Hm). unfold count_true, marked. rewrite Hr, Hc.
  apply filter_length_le. intros [i j]; simpl; auto.
Qed.

Lemma points_found_covers Masks Masks' :
  Forall2 covers Masks Masks' -> points_found Masks <= points_found Masks'.
Proof.
  unfold points_found. intros H. apply Nat2Z.inj_le.
  induction H as [|T T' l l' HT _ IH]; simpl; auto.
  apply count_true_covers in HT. lia.
Qed.

(** One stage. Whatever the mask holds when a search stage starts, the
    stage only adds marks to it: the mask it leaves has the same shape and
    marks every cell marked before. Consequently the points found through
    the filter with the mask after the stage are at least the points found
    with the mask before it, for every fraction grid and list of
    contributing vegetation types. *)
Lemma stage_only_adds_marks :
  forall (Method : mask_method) (Param : option Z) (Coord : coord)
         (SearchMask SearchMask' : arr2 bool),
    In Method SearchMethods ->
    Method SearchMask Param Coord = Ok SearchMask' ->
    covers SearchMask SearchMask' /\
    forall (InputVegetation : arr3 num) (InVegs : list Z) Masks,
      find_active_tiles SearchMask InputVegetation InVegs = Ok Masks ->
      exists Masks',
        find_active_tiles SearchMask' InputVegetation InVegs = Ok Masks' /\
        points_found Masks <= points_found Masks'.
Proof.
  intros Method Param Coord M M' Hin Hrun.
  pose proof (method_covers _ _ _ _ _ Hin Hrun) as Hcov.
  split; [exact Hcov|].
  intros IV InVegs Masks HM.
  destruct (find_active_tiles_covers _ _ IV InVegs Hcov _ HM) as (Masks' & HM' & HF).
  exists Masks'. split; [exact HM'|]. now apply points_found_covers.
Qed.

(** ** The active tile filter *)

Lemma zip2_same_shape {A B C} (f : A -> B -> C) (a : arr2 A) (b : arr2 B) :
  nrow a = nrow b -> ncol a = ncol b ->
  exists c, zip2 f a b = Ok c /\ nrow c = nrow a /\ ncol c = ncol a /\
    forall i j, (i < nrow a)%nat -> (j < ncol a)%nat ->
      at2 c i j = f (at2 a i j) (at2 b i j).
Proof.
  intros Hr Hc. unfold zip2. rewrite <- Hr, <- Hc, !bdim_same. simpl.
  eexists; split; [reflexivity|]. repeat split; simpl; auto.
  intros i j Hi Hj. now rewrite !bidx_lt.
Qed.

Lemma tile_search_map_spec SearchMask IV VegType :
  nrow SearchMask = nlat IV -> ncol SearchMask = nlon IV ->
  valid_index (nveg IV) VegType ->
  exists T, tile_search_map SearchMask IV VegType = Ok T /\
            is_active_tile_mask SearchMask IV VegType T.
Proof.
  intros Hr Hc Hv. unfold tile_search_map, plane.
  destruct (py_index_valid _ _ Hv) as [-> Hlt]. simpl.
  set (frac := mkArr2 (nlat IV) (nlon IV)
                 (fun i j => at3 IV (position (nveg IV) VegType) i j)).
  destruct (zip2_same_shape andb (map2 (fun x => negb (isnan x)) frac) SearchMask)
    as (land & -> & Hlr & Hlc & Hland); simpl; auto.
  simpl in *.
  destruct (zip2_same_shape andb land (map2 gt0 frac))
    as (T & -> & HTr & HTc & HT); simpl; try congruence.
  exists T. split; [reflexivity|].
  repeat split; try congruence.
  intros i j Hi Hj. simpl.
  rewrite HT, Hland by congruence. simpl.
  now rewrite (andb_comm (negb _) (at2 SearchMask i j)).
Qed.

Lemma find_active_tiles_spec SearchMask IV InVegs :
  nrow SearchMask = nlat IV -> ncol SearchMask = nlon IV ->
  Forall (valid_index (nveg IV)) InVegs ->
  exists Masks, find_active_tiles SearchMask IV InVegs = Ok Masks /\
                Forall2 (is_active_tile_mask SearchMask IV) InVegs Masks.
Proof.
  intros Hr Hc. induction 1 as [|VegType rest Hv _ IH]; simpl.
  - exists []; auto.
  - destruct (tile_search_map_spec SearchMask IV VegType Hr Hc Hv) as (T & -> & HT).
    destruct IH as (Masks & -> & HM). simpl.
    exists (T :: Masks); auto.
Qed.

(** Outside its preconditions the filter fails: the first contributing type
    that is not a valid index of the vegetation axis raises IndexError. *)
Lemma find_active_tiles_invalid_index SearchMask (IV : arr3 num) VegType rest :
  ~ valid_index (nveg IV) VegType ->
  find_active_tiles SearchMask IV (VegType :: rest) = Raise IndexError.
Proof.
  intros H. cbn [find_active_tiles]. unfold tile_search_map, plane.
  now rewrite (py_index_invalid _ _ H).
Qed.

Lemma bdim_broadcasts a b :
  bdim a b = if broadcasts a b
             then Ok (if (a =? b)%nat then a else if (a =? 1)%nat then b else a)
             else Raise ValueError.
Proof.
  unfold bdim, broadcasts.
  destruct (a =? b)%nat, (a =? 1)%nat, (b =? 1)%nat; reflexivity.
Qed.

Lemma bdim_back a b n : bdim a b = Ok n -> exists m, bdim n a = Ok m.
Proof.
  intros H. apply bdim_ok in H as [[-> _]|[-> ->]].
  - exists a. apply bdim_same.
  - unfold bdim. destruct (b =? 1)%nat; [eauto|]. cbn. eauto.
Qed.

(** For a valid vegetation type the one mask is computed exactly when the
    search mask broadcasts against the plane of the grid. *)
Lemma tile_search_map_broadcast SearchMask (IV : arr3 num) VegType :
  valid_index (nveg IV) VegType ->
  if mask_broadcasts SearchMask IV
  then exists T, tile_search_map SearchMask IV VegType = Ok T
  else tile_search_map SearchMask IV VegType = Raise ValueError.
Proof.
  intros Hv. unfold tile_search_map, plane, mask_broadcasts.
  destruct (py_index_valid _ _ Hv) as [-> _]. cbn [bind].
  pose proof (bdim_broadcasts (nlat IV) (nrow SearchMask)) as Er.
  pose proof (bdim_broadcasts (nlon IV) (ncol SearchMask)) as Ec.
  destruct (broadcasts (nlat IV) (nrow SearchMask)); cbn [andb].
  - destruct (broadcasts (nlon IV) (ncol SearchMask)).
    + destruct (bdim_back _ _ _ Er) as (r & Hr).
      destruct (bdim_back _ _ _ Ec) as (c & Hc).
      unfold zip2. cbn [map2 nrow ncol]. rewrite Er, Ec. cbn [bind nrow ncol].
      rewrite Hr, Hc. cbn [bind]. eauto.
    + unfold zip2. cbn [map2 nrow ncol]. rewrite Er, Ec. reflexivity.
  - unfold zip2. cbn [map2 nrow ncol]. rewrite Er. reflexivity.
Qed.

(** The indices are taken in order: those that get through do not hide the
    first one outside the vegetation axis. *)
Lemma find_active_tiles_first_invalid SearchMask (IV : arr3 num)
    before VegType after :
  Forall (valid_index (nveg IV)) before ->
  ~ valid_index (nveg IV) VegType ->
  before = [] \/ mask_broadcasts SearchMask IV = true ->
  find_active_tiles SearchMask IV (before ++ VegType :: after) = Raise IndexError.
Proof.
  intros Hval Hbad Hcase.
  induction Hval as [|x before Hx _ IH]; cbn [app].
  - now apply find_active_tiles_invalid_index.
  - destruct Hcase as [E|Hb]; [discriminate|].
    cbn [find_active_tiles].
    pose proof (tile_search_map_broadcast SearchMask IV x Hx) as HT.
    rewrite Hb in HT. destruct HT as (T & ->). cbn [bind].
    rewrite IH by (now right). reflexivity.
Qed.

(** C4, as amended. For a search mask of the fraction grid's lat/lon shape
    and contributing vegetation types that are valid indices of the grid's
    vegetation axis, the filter returns, without raising, exactly one mask
    per contributing type, in order, each equal cell by cell to
    search mask AND NOT missing AND fraction > 0. Outside these conditions:
    the empty list gives the empty list for every mask and grid; the first
    type outside the vegetation axis raises IndexError when every type
    before it is valid and either there is none or the mask broadcasts
    against the grid's plane; and a mask that does not broadcast raises
    ValueError when the first type is valid. *)
Theorem find_active_tiles_contract :
  forall (SearchMask : arr2 bool) (InputVegetation : arr3 num),
    (forall InVegs : list Z,
        nrow SearchMask = nlat InputVegetation ->
        ncol SearchMask = nlon InputVegetation ->
        Forall (valid_index (nveg InputVegetation)) InVegs ->
        exists Masks,
          find_active_tiles SearchMask InputVegetation InVegs = Ok Masks /\
          List.length Masks = List.length InVegs /\
          Forall2 (is_active_tile_mask SearchMask InputVegetation) InVegs Masks) /\
    find_active_tiles SearchMask InputVegetation [] = Ok [] /\
    (forall (before : list Z) (VegType : Z) (after : list Z),
        Forall (valid_index (nveg InputVegetation)) before ->
        ~ valid_index (nveg InputVegetation) VegType ->
        before = [] \/ mask_broadcasts SearchMask InputVegetation = true ->
        find_active_tiles SearchMask InputVegetation (before ++ VegType :: after)
        = Raise IndexError) /\
    (forall (VegType : Z) (rest : list Z),
        valid_index (nveg InputVegetation) VegType ->
        mask_broadcasts SearchMask InputVegetation = false ->
        find_active_tiles SearchMask InputVegetation (VegType :: rest)
        = Raise ValueError).
Proof.
  intros M IV. split; [|split; [reflexivity|split]].
  - intros InVegs Hr Hc Hv.
    destruct (find_active_tiles_spec M IV InVegs Hr Hc Hv) as (Masks & HM & HF).
    exists Masks. repeat split; auto.
    symmetry. eapply Forall2_length; eauto.
  - apply find_active_tiles_first_invalid.
  - intros VegType rest Hv Hb. cbn [find_active_tiles].
    pose proof (tile_search_map_broadcast M IV VegType Hv) as HT.
    rewrite Hb in HT. rewrite HT. reflexivity.
Qed.

(** C4 as stated fails: a contributing type past the end of the vegetation
    axis makes the filter raise IndexError, and a search mask that cannot be
    broadcast against the grid makes it raise ValueError. *)
Lemma find_active_tiles_raises :
  find_active_tiles (full2 1 1 true) one_tile [1] = Raise IndexError /\
  find_active_tiles (full2 2 2 true) (cube NaN [[[half; half; half]]]) [0]
    = Raise ValueError.
Proof. split; reflexivity. Qed.

(** ** The fill and empty policy *)

Lemma zip3_ok {A B C} (f : A -> B -> C) (a : arr3 A) (b : arr3 B) c :
  zip3 f a b = Ok c ->
  bdim (nveg a) (nveg b) = Ok (nveg c) /\
  bdim (nlat a) (nlat b) = Ok (nlat c) /\
  bdim (nlon a) (nlon b) = Ok (nlon c) /\
  at3 c = fun v i j =>
    f (at3 a (bidx (nveg a) v) (bidx (nlat a) i) (bidx (nlon a) j))
      (at3 b (bidx (nveg b) v) (bidx (nlat b) i) (bidx (nlon b) j)).
Proof.
  unfold zip3. intros H.
  bind_inv H as n Hn. bind_inv H as r Hr. bind_inv H as k Hk.
  inversion H; subst; simpl; auto.
Qed.

Lemma zip3_same_shape {A B C} (f : A -> B -> C) (a : arr3 A) (b : arr3 B) :
  same_shape3 a b = true ->
  exists c, zip3 f a b = Ok c /\ same_shape3 c a = true /\
    forall v i j, (v < nveg a)%nat -> (i < nlat a)%nat -> (j < nlon a)%nat ->
      at3 c v i j = f (at3 a v i j) (at3 b v i j).
Proof.
  intros H. apply same_shape3_true in H as (Hv & Hr & Hc).
  unfold zip3. rewrite <- Hv, <- Hr, <- Hc, !bdim_same. simpl.
  eexists; split; [reflexivity|]. split.
  - apply same_shape3_true; simpl; auto.
  - intros v i j Hi Hj Hk. simpl. now rewrite !bidx_lt.
Qed.

Lemma gt0_not_le0 x : gt0 x = true -> le0 x = false.
Proof. destruct x; simpl; [discriminate|]. now destruct (Qle_bool q0 0). Qed.

(** C6. In both modes the tiles to fill and the tiles to empty that the
    policy computes have an elementwise conjunction, and every cell of it
    is false. *)
Theorem fill_and_empty_disjoint :
  forall (FillAll : bool) (InputVegetation OutputVegetation : arr3 num)
         (TilesToFill TilesToEmpty : arr3 bool),
    tiles_policy FillAll InputVegetation OutputVegetation
      = Ok (TilesToFill, TilesToEmpty) ->
    exists Both, zip3 andb TilesToFill TilesToEmpty = Ok Both /\ all_false Both.
Proof.
  intros FillAll IV OV Fill Empty H. unfold tiles_policy in H.
  destruct FillAll.
  - inversion H; subst; clear H.
    unfold zip3; simpl. rewrite !bdim_same; simpl.
    eexists; split; [reflexivity|]. intros v i j; simpl. apply andb_false_r.
  - bind_inv H as F HF. inversion H; subst; clear H.
    apply zip3_ok in HF as (Hn & Hr & Hc & Hat). simpl in *.
    unfold zip3; simpl.
    assert (Hb : forall a b n, bdim a b = Ok n -> bdim n b = Ok n).
    { intros a b n Hab. apply bdim_ok in Hab. unfold bdim.
      destruct (Nat.eqb_spec n b); [congruence|].
      destruct (Nat.eqb_spec n 1); [lia|].
      destruct (Nat.eqb_spec b 1); [reflexivity|lia]. }
    rewrite (Hb _ _ _ Hn), (Hb _ _ _ Hr), (Hb _ _ _ Hc). simpl.
    eexists; split; [reflexivity|]. intros v i j; simpl. rewrite Hat.
    destruct (bidx_bdim _ _ _ v Hn) as [-> _].
    destruct (bidx_bdim _ _ _ i Hr) as [-> _].
    destruct (bidx_bdim _ _ _ j Hc) as [-> _].
    match goal with |- _ && gt0 ?x && le0 ?y = false =>
      destruct (gt0 x) eqn:Hg; [rewrite (gt0_not_le0 _ Hg)|] end;
      now rewrite ?andb_false_r.
Qed.

(** ** Exact arithmetic on the idealised numbers *)

Lemma Qplus_0_r_eq (x : Q) : (x + 0)%Q = x.
Proof.
  destruct x as [n d]. unfold Qplus; simpl.
  now rewrite Z.mul_1_r, Z.add_0_r, Pos.mul_1_r.
Qed.

Lemma Qplus_0_l_eq (x : Q) : (0 + x)%Q = x.
Proof.
  destruct x as [n d]. unfold Qplus; simpl. now rewrite Z.mul_1_r.
Qed.

Lemma Qplus_assoc_eq (x y z : Q) : (x + (y + z))%Q = (x + y + z)%Q.
Proof.
  destruct x as [a b], y as [c d], z as [e f]. unfold Qplus; simpl.
  rewrite Pos.mul_assoc. f_equal. rewrite !Pos2Z.inj_mul. ring.
Qed.

Lemma nadd_zero_r x : nadd x zero = x.
Proof. destruct x; simpl; [reflexivity|]. now rewrite Qplus_0_r_eq. Qed.

Lemma nadd_zero_l x : nadd zero x = x.
Proof. destruct x; simpl; [reflexivity|]. now rewrite Qplus_0_l_eq. Qed.

Lemma nadd_assoc x y z : nadd x (nadd y z) = nadd (nadd x y) z.
Proof. destruct x, y, z; simpl; try reflexivity. now rewrite Qplus_assoc_eq. Qed.

Lemma fold_nadd_shift l x y :
  fold_left nadd l (nadd x y) = nadd x (fold_left nadd l y).
Proof.
  revert y. induction l as [|a l IH]; intros y; simpl; auto.
  now rewrite <- nadd_assoc, IH.
Qed.

Lemma nsum_cons x l : nsum (x :: l) = nadd x (nsum l).
Proof.
  unfold nsum. cbn [fold_left]. rewrite nadd_zero_l.
  rewrite <- (nadd_zero_r x) at 1. apply fold_nadd_shift.
Qed.

Lemma nsum_app l1 l2 : nsum (l1 ++ l2) = nadd (nsum l1) (nsum l2).
Proof.
  induction l1 as [|a l1 IH]; cbn [app].
  - change (nsum []) with zero. now rewrite nadd_zero_l.
  - now rewrite !nsum_cons, IH, nadd_assoc.
Qed.

(** Summing with the left-out entries counted as 0.0 is summing the entries
    that are kept. *)
Lemma nsum_skip_zero {X} (skip : X -> bool) (h : X -> num) (l : list X) :
  nsum (map (fun k => if skip k then zero else h k) l)
  = nsum (map h (filter (fun k => negb (skip k)) l)).
Proof.
  induction l as [|a l IH]; cbn [map filter]; auto.
  rewrite nsum_cons, IH. destruct (skip a); cbn [negb map].
  - apply nadd_zero_l.
  - now rewrite nsum_cons.
Qed.

(** ** The fill policy on grids of one shape *)

Lemma tiles_policy_same_shape FillAll (IV OV : arr3 num) :
  same_shape3 IV OV = true ->
  exists Fill Empty,
    tiles_policy FillAll IV OV = Ok (Fill, Empty) /\
    same_shape3 Fill OV = true /\ same_shape3 Empty OV = true /\
    forall v i j, inside OV v i j ->
      at3 Fill v i j = le0 (at3 IV v i j) && (FillAll || gt0 (at3 OV v i j)) /\
      at3 Empty v i j = negb FillAll && le0 (at3 OV v i j).
Proof.
  intros Hs. unfold tiles_policy. destruct FillAll.
  - do 2 eexists. split; [reflexivity|].
    apply same_shape3_true in Hs as (Hv & Hr & Hc).
    repeat split; try (apply same_shape3_true; simpl; auto).
    simpl. now rewrite andb_true_r.
  - destruct (zip3_same_shape andb (map3 le0 IV) (map3 gt0 OV))
      as (F & -> & HF & Hat); [exact Hs|]. simpl.
    apply same_shape3_true in Hs as (Hv & Hr & Hc).
    apply same_shape3_true in HF as (Fv & Fr & Fc). simpl in *.
    do 2 eexists. split; [reflexivity|].
    repeat split; try (apply same_shape3_true; simpl; repeat split; congruence).
    apply Hat; simpl; destruct H as (? & ? & ?); lia.
Qed.

Lemma masked_fill_ok dst mask x :
  same_shape3 dst mask = true ->
  exists d, masked_fill dst mask x = Ok d /\ shape3 d = shape3 dst /\
    forall v i j, at3 d v i j = if at3 mask v i j then x else at3 dst v i j.
Proof.
  intros H. unfold masked_fill. rewrite H.
  eexists; split; [reflexivity|]. split; reflexivity.
Qed.

Lemma masked_copy_ok dst mask src :
  same_shape3 src mask = true -> same_shape3 dst mask = true ->
  exists d, masked_copy dst mask src = Ok d /\ shape3 d = shape3 dst /\
    forall v i j,
      at3 d v i j = if at3 mask v i j then at3 src v i j else at3 dst v i j.
Proof.
  intros H1 H2. unfold masked_copy. rewrite H1, H2.
  eexists; split; [reflexivity|]. split; reflexivity.
Qed.

Lemma same_shape3_shape {A B} (a : arr3 A) (b : arr3 B) :
  same_shape3 a b = true <-> shape3 a = shape3 b.
Proof.
  rewrite same_shape3_true. unfold shape3.
  split; [intros (-> & -> & ->); auto | intros [= -> -> ->]; auto].
Qed.

Lemma var_set_same d name a : var_set d name a name = Some a.
Proof. unfold var_set. now rewrite String.eqb_refl. Qed.

Lemma var_set_other d name a k : k <> name -> var_set d name a k = d k.
Proof.
  unfold var_set. intros H. destruct (String.eqb_spec k name); congruence.
Qed.

Lemma store_ok view s name OutData :
  shape3 OutData = coords (Output s) ->
  store view s name OutData
  = Ok (mkState (if view then var_set (Input s) name OutData else Input s)
                (mkDataset (coords (Output s))
                           (var_set (data_vars (Output s)) name OutData))).
Proof.
  intros H. unfold store, ds_assign.
  now rewrite (proj2 (shape_eqb_true _ _) H).
Qed.

(** The per-cell step on grids of one shape: it returns, and the array it
    binds is described cell by cell. *)
Lemma per_cell_variable_ok view (IV OV : arr3 num) (Fill Empty : arr3 bool)
    s name (Var : arr3 num) :
  same_shape3 Fill OV = true -> same_shape3 Empty OV = true ->
  same_shape3 IV OV = true -> same_shape3 Var OV = true ->
  (0 < nveg OV)%nat -> coords (Output s) = shape3 OV ->
  Input s name = Some Var ->
  exists OutData,
    per_cell_variable view (nveg OV) IV Fill Empty s name
    = Ok (mkState (if view then var_set (Input s) name OutData else Input s)
                  (mkDataset (coords (Output s))
                             (var_set (data_vars (Output s)) name OutData))) /\
    shape3 OutData = shape3 OV /\
    forall v i j, inside OV v i j ->
      at3 OutData v i j =
        if at3 Empty v i j then zero
        else if at3 Fill v i j then area_weighted_sum Var IV i j
        else at3 Var v i j.
Proof.
  intros HF HE HI HV Hpos Hco Hin.
  unfold per_cell_variable, getitem. rewrite Hin. cbn [required bind].
  pose proof HF as HF'. pose proof HE as HE'. pose proof HI as HI'.
  pose proof HV as HV'.
  apply same_shape3_true in HF' as (Fv & Fr & Fc).
  apply same_shape3_true in HE' as (Ev & Er & Ec).
  apply same_shape3_true in HI' as (Iv & Ir & Ic).
  apply same_shape3_true in HV' as (Vv & Vr & Vc).
  destruct (zip3_same_shape weighted Var IV) as (P & -> & HP & HPat).
  { apply same_shape3_true; repeat split; congruence. }
  apply same_shape3_true in HP as (Pv & Pr & Pc). cbn [bind].
  unfold stack. destruct (Nat.eqb_spec (nveg OV) 0); [lia|]. cbn [bind].
  set (AWM := mkArr3 (nveg OV) (nrow (sum_axis0 P)) (ncol (sum_axis0 P))
                (fun _ i j => at2 (sum_axis0 P) i j)).
  destruct (masked_copy_ok Var Fill AWM) as (D1 & -> & HD1 & HD1at).
  { apply same_shape3_true; simpl; repeat split; congruence. }
  { apply same_shape3_true; repeat split; congruence. }
  cbn [bind].
  destruct (masked_fill_ok D1 Empty zero) as (D2 & -> & HD2 & HD2at).
  { apply same_shape3_shape. rewrite HD1.
    apply same_shape3_shape, same_shape3_true; repeat split; congruence. }
  cbn [bind]. exists D2.
  assert (HD2s : shape3 D2 = shape3 OV).
  { rewrite HD2, HD1. now apply same_shape3_shape. }
  rewrite store_ok by congruence.
  repeat split; auto.
  intros v i j (Hv & Hi & Hj).
  rewrite HD2at, HD1at. destruct (at3 Empty v i j); [reflexivity|].
  destruct (at3 Fill v i j); [|reflexivity].
  simpl. unfold area_weighted_sum.
  rewrite <- (nsum_skip_zero
                (fun k => isnan (at3 IV k i j) || le0 (at3 IV k i j))
                (fun k => nmul (at3 Var k i j) (at3 IV k i j))).
  rewrite Pv, Vv, <- Iv. f_equal. apply map_ext_in. intros k Hk.
  apply in_seq in Hk. rewrite HPat by lia.
  unfold weighted, masked_out. now rewrite orb_comm.
Qed.

(** ** The staged search *)

Lemma setitem2_ok (M : arr2 bool) i j :
  valid_index (nrow M) i -> valid_index (ncol M) j ->
  exists M', setitem2 M i j true = Ok M' /\ covers M M'.
Proof.
  intros Hi Hj.
  destruct (setitem2 M i j true) as [M'|e] eqn:H.
  - exists M'. split; auto. now apply setitem2_covers in H.
  - unfold setitem2 in H.
    destruct (py_index_valid _ _ Hi) as [Hpi _].
    destruct (py_index_valid _ _ Hj) as [Hpj _].
    rewrite Hpi, Hpj in H. discriminate.
Qed.

Lemma setrow2_ok (M : arr2 bool) i :
  valid_index (nrow M) i -> exists M', setrow2 M i true = Ok M' /\ covers M M'.
Proof.
  intros Hi.
  destruct (setrow2 M i true) as [M'|e] eqn:H.
  - exists M'. split; auto. now apply setrow2_covers in H.
  - unfold setrow2 in H.
    destruct (py_index_valid _ _ Hi) as [Hpi _]. rewrite Hpi in H. discriminate.
Qed.

Lemma clip_valid n x : (0 < n)%nat -> valid_index n (clip x 0 (Z.of_nat n - 1)).
Proof. unfold valid_index, clip. lia. Qed.

Lemma np_mod_valid n x : (0 < n)%nat -> valid_index n (np_mod x (Z.of_nat n)).
Proof.
  intros Hn. unfold valid_index, np_mod.
  destruct (Z.eqb_spec (Z.of_nat n) 0); [lia|].
  pose proof (Z.mod_pos_bound x (Z.of_nat n)). lia.
Qed.

(** A loop of mark-adding steps over valid indices runs to the end. *)
Lemma for_each_marks {X} (body : arr2 bool -> X -> result (arr2 bool))
    (P : X -> Prop) (M0 : arr2 bool) :
  (forall M x, covers M0 M -> P x -> exists M', body M x = Ok M' /\ covers M M') ->
  forall xs, Forall P xs ->
    exists M', for_each body xs M0 = Ok M' /\ covers M0 M'.
Proof.
  intros Hbody xs HP.
  apply (for_each_total body (covers M0) P); auto using covers_refl.
  intros M x HM Hx. destruct (Hbody M x HM Hx) as (M' & HM' & Hc).
  exists M'. split; auto. eapply covers_trans; eauto.
Qed.

(** Inside a non-empty plane every stage runs and only adds marks. *)
Lemma stage_runs Conf (M : arr2 bool) (Lat Lon : nat) stage :
  In stage (stages_of Conf) ->
  (Lat < nrow M)%nat -> (Lon < ncol M)%nat ->
  exists M', fst (fst stage) M (snd (fst stage)) (Z.of_nat Lon, Z.of_nat Lat) = Ok M'
             /\ covers M M'.
Proof.
  intros Hin HLat HLon.
  assert (Hv : forall n k, (k < n)%nat -> valid_index n (Z.of_nat k))
    by (unfold valid_index; lia).
  destruct Hin as [<-|[<-|[<-|[<-|[]]]]]; cbn [fst snd].
  - apply setitem2_ok; auto.
  - unfold modify_mask_for_nearest.
    apply (for_each_marks _ (valid_index (nrow M))).
    + intros M1 LatSearch (Hr1 & Hc1 & _) HvLat.
      apply (for_each_marks _ (valid_index (ncol M))).
      * intros M2 LonSearch (Hr2 & Hc2 & _) HvLon.
        apply setitem2_ok; congruence.
      * apply Forall_forall. intros x Hx. apply in_map_iff in Hx as (k & <- & _).
        apply np_mod_valid; lia.
    + apply Forall_forall. intros x Hx. apply in_map_iff in Hx as (k & <- & _).
      apply clip_valid; lia.
  - unfold modify_mask_for_latitude_band.
    apply (for_each_marks _ (valid_index (nrow M))).
    + intros M1 LatSearch (Hr1 & Hc1 & _) HvLat. apply setrow2_ok; congruence.
    + apply Forall_forall. intros x Hx. apply in_map_iff in Hx as (k & <- & _).
      apply clip_valid; lia.
  - eexists; split; [reflexivity|]. repeat split; auto.
Qed.


Lemma staged_search_ok Conf (IV : arr3 num) OutVeg Lat Lon InVegs M0 :
  dict_get (vegetation_map Conf) (Z.of_nat OutVeg) = Ok InVegs ->
  Forall (valid_index (nveg IV)) InVegs ->
  nrow M0 = nlat IV -> ncol M0 = nlon IV ->
  (Lat < nlat IV)%nat -> (Lon < nlon IV)%nat ->
  forall stages M done last,
    (forall st, In st stages -> In st (stages_of Conf)) ->
    covers M0 M ->
    match last with
    | Some o => outcome_ok IV InVegs M0 o
    | None => stages <> []
    end ->
    exists o,
      staged_search stages IV (vegetation_map Conf) OutVeg
                    (Z.of_nat Lon, Z.of_nat Lat) M done last = Ok o /\
      outcome_ok IV InVegs M0 o.
Proof.
  intros Hget Hvalid Hr Hc HLat HLon.
  induction stages as [|[[Method Param] MinPoints] rest IH];
    intros M done last Hsub Hcov Hlast; cbn [staged_search].
  - destruct last as [o|]; [exists o; auto | congruence].
  - destruct Hcov as (HMr & HMc & HMm).
    destruct (stage_runs Conf M Lat Lon (Method, Param, MinPoints))
      as (M' & HM' & Hcov'); [apply Hsub; left; reflexivity | lia | lia |].
    cbn [fst snd] in HM'. rewrite HM'. cbn [bind]. rewrite Hget. cbn [bind].
    assert (Hcov0 : covers M0 M').
    { eapply covers_trans; [|exact Hcov']. repeat split; auto. }
    destruct Hcov0 as (H0r & H0c & H0m).
    destruct (find_active_tiles_spec M' IV InVegs) as (Masks & -> & HF);
      try congruence; auto.
    cbn [bind].
    set (now := mkOutcome M' Masks (points_found Masks) (S done)).
    assert (Hnow : outcome_ok IV InVegs M0 now).
    { repeat split; auto. }
    destruct (MinPoints <=? points_found Masks).
    + exists now; auto.
    + apply IH; auto.
      * intros st Hst. apply Hsub. now right.
      * repeat split; auto.
Qed.

Lemma stages_of_nonempty Conf : stages_of Conf <> [].
Proof. discriminate. Qed.

(** The stage loop of a well-defined episode returns. *)
Lemma episode_search_ok IV OV Conf M p InVegs :
  episode_ready IV OV Conf M p InVegs ->
  exists o, episode_search IV Conf M p = Ok o /\ outcome_ok IV InVegs M o.
Proof.
  destruct p as [[OutVeg Lat] Lon]. intros [Hs (Hv & Hi & Hj) Hfill Hr Hc Hg Hval].
  cbn [fst snd] in *.
  apply same_shape3_true in Hs as (Sv & Sr & Sc).
  unfold episode_search.
  apply staged_search_ok with (InVegs := InVegs) (M0 := M);
    auto using covers_refl, stages_of_nonempty; congruence.
Qed.

(** ** Writing one point *)

Lemma same_off_refl p V : same_off p V V.
Proof. split; auto. Qed.

Lemma same_off_trans p V1 V2 V3 :
  same_off p V1 V2 -> same_off p V2 V3 -> same_off p V1 V3.
Proof.
  intros [S12 H12] [S23 H23]. split; [congruence|].
  intros v i j Hne. now rewrite H12, H23.
Qed.

Lemma inputs_kept_refl p s : inputs_kept p s s.
Proof. intros name V H. exists V. split; auto using same_off_refl. Qed.

Lemma inputs_kept_trans p s1 s2 s3 :
  inputs_kept p s1 s2 -> inputs_kept p s2 s3 -> inputs_kept p s1 s3.
Proof.
  intros H12 H23 name V H.
  destruct (H12 name V H) as (V2 & H2 & S2).
  destruct (H23 name V2 H2) as (V3 & H3 & S3).
  exists V3. split; auto. eapply same_off_trans; eauto.
Qed.

Lemma setitem3_ok (a : arr3 num) v i j x :
  inside a v i j ->
  exists a', setitem3 a (v, i, j) x = Ok a' /\ shape3 a' = shape3 a /\
             at3 a' v i j = x /\ same_off (v, i, j) a a'.
Proof.
  intros (Hv & Hi & Hj). unfold setitem3.
  destruct (Nat.ltb_spec v (nveg a)); [|lia].
  destruct (Nat.ltb_spec i (nlat a)); [|lia].
  destruct (Nat.ltb_spec j (nlon a)); [|lia].
  cbn [andb]. eexists; split; [reflexivity|].
  repeat split; cbn [at3].
  - now rewrite !Nat.eqb_refl.
  - intros v' i' j' Hne.
    destruct (Nat.eqb_spec v' v), (Nat.eqb_spec i' i), (Nat.eqb_spec j' j);
      cbn [andb]; auto. subst. congruence.
Qed.

Lemma assign_point_ok view (OV : arr3 num) PerTile s name v i j x :
  tiles_ready view OV PerTile s -> In name PerTile -> inside OV v i j ->
  exists s',
    assign_point view (v, i, j) x s name = Ok s' /\
    tiles_ready view OV PerTile s' /\
    output_at s' name (v, i, j) = Some x /\
    (forall n, n <> name -> output_at s' n (v, i, j) = output_at s n (v, i, j)) /\
    inputs_kept (v, i, j) s s'.
Proof.
  intros [Hco Hready] Hin Hp.
  destruct (Hready name Hin) as (V & Out & HV & HVs & HO & HOs & Hview).
  unfold assign_point, getitem. rewrite HO. cbn [required bind].
  destruct (setitem3_ok Out v i j x) as (Out' & -> & HO's & Hat & Hoff).
  { unfold inside in *. unfold shape3 in HOs. inversion HOs. lia. }
  cbn [bind]. eexists; split; [reflexivity|].
  split; [|split; [|split]].
  - split; [exact Hco|]. cbn [Input Output data_vars].
    intros n Hn. destruct (String.eqb_spec n name) as [->|Hne].
    + exists (if view then Out' else V), Out'.
      rewrite var_set_same. destruct view.
      * rewrite var_set_same. repeat split; congruence.
      * repeat split; congruence.
    + destruct (Hready n Hn) as (V1 & O1 & H1 & H2 & H3 & H4 & H5).
      exists V1, O1. rewrite var_set_other by auto.
      destruct view; [rewrite var_set_other by auto|]; repeat split; auto.
  - unfold output_at. cbn [Output data_vars]. rewrite var_set_same.
    cbn [fst snd]. now rewrite Hat.
  - intros n Hne. unfold output_at. cbn [Output data_vars].
    now rewrite var_set_other.
  - intros n V1 H1. cbn [Input].
    destruct view; [|exists V1; split; auto using same_off_refl].
    destruct (String.eqb_spec n name) as [->|Hne].
    + rewrite var_set_same. exists Out'. split; auto.
      rewrite HV in H1. inversion H1; subst. now rewrite Hview.
    + rewrite var_set_other by auto. exists V1; split; auto using same_off_refl.
Qed.

(** ** The loop over the per-tile variables at one point *)

Lemma point_loop (body : state -> string -> result state) (Inv : state -> Prop)
    (val : string -> num) (p : nat * nat * nat) (PerTile : list string) :
  (forall s name, Inv s -> In name PerTile ->
     exists s', body s name = Ok s' /\ Inv s' /\
                output_at s' name p = Some (val name) /\
                forall n, n <> name -> output_at s' n p = output_at s n p) ->
  forall l s, incl l PerTile -> Inv s ->
    exists s', for_each body l s = Ok s' /\ Inv s' /\
      (forall name, In name l -> output_at s' name p = Some (val name)) /\
      (forall n, output_at s n p = Some (val n) ->
                 output_at s' n p = Some (val n)).
Proof.
  intros Hbody. induction l as [|name l IH]; intros s Hincl Hinv; cbn [for_each].
  - exists s. repeat split; auto. intros name [].
  - destruct (Hbody s name Hinv) as (s1 & -> & Hinv1 & Hval & Hframe).
    { apply Hincl. now left. }
    cbn [bind].
    assert (Hkeep : forall n, output_at s n p = Some (val n) ->
                              output_at s1 n p = Some (val n)).
    { intros n Hn. destruct (String.eqb_spec n name) as [->|Hne]; auto.
      now rewrite Hframe. }
    destruct (IH s1) as (s' & Hrun & Hinv' & Hall & Hkeep'); auto.
    { intros n Hn. apply Hincl. now right. }
    exists s'. repeat split; auto.
    intros n [<-|Hn]; auto.
Qed.

(** ** The pooled sum *)

Lemma select_ok (V : arr2 num) (T : arr2 bool) :
  nrow T = nrow V -> ncol T = ncol V ->
  select V T = Ok (map (fun cell => at2 V (fst cell) (snd cell)) (marked T)).
Proof.
  intros Hr Hc. unfold select.
  now rewrite (proj2 (same_shape2_true V T) (conj (eq_sym Hr) (eq_sym Hc))).
Qed.

Lemma tile_total_ok (Inp : variables) name (V : arr3 num) InVegs Masks :
  Inp name = Some V ->
  Forall2 (fun InVeg T => valid_index (nveg V) InVeg /\
                          nrow T = nlat V /\ ncol T = nlon V) InVegs Masks ->
  forall Total,
    tile_total Inp name (combine InVegs Masks) Total
    = Ok (nadd Total (nsum (matched_values V InVegs Masks))).
Proof.
  intros HV. induction 1 as [|InVeg T InVegs Masks (Hv & Hr & Hc) _ IH];
    intros Total; cbn [combine tile_total].
  - unfold matched_values. cbn [combine flat_map].
    change (nsum []) with zero. now rewrite nadd_zero_r.
  - unfold getitem. rewrite HV. cbn [required bind]. unfold plane.
    destruct (py_index_valid _ _ Hv) as [-> _]. cbn [bind].
    rewrite select_ok by auto. cbn [bind nrow ncol at2].
    rewrite IH. unfold matched_values. cbn [combine flat_map fst snd].
    now rewrite nsum_app, nadd_assoc.
Qed.

Lemma matched_values_length (V : arr3 num) InVegs Masks :
  List.length InVegs = List.length Masks ->
  Z.of_nat (List.length (matched_values V InVegs Masks)) = points_found Masks.
Proof.
  unfold points_found. intros H. f_equal. revert Masks H.
  induction InVegs as [|InVeg InVegs IH]; intros [|T Masks] H;
    try discriminate; auto.
  unfold matched_values in *. cbn [combine flat_map map list_sum fst snd].
  rewrite length_app, length_map. unfold count_true at 1.
  rewrite (IH Masks); [reflexivity|]. now inversion H.
Qed.

(** Matched cells have a positive fraction, so a point among the tiles to
    fill is never one of them: arrays that differ only there pool the same
    values. *)
Lemma matched_values_same_off (IV V V' : arr3 num) (M : arr2 bool) v i j
    InVegs Masks :
  same_off (v, i, j) V V' ->
  nveg V = nveg IV ->
  le0 (at3 IV v i j) = true ->
  Forall2 (is_active_tile_mask M IV) InVegs Masks ->
  matched_values V' InVegs Masks = matched_values V InVegs Masks.
Proof.
  intros [Hs Hoff] Hn Hle. unfold shape3 in Hs. inversion Hs as [[Hv Hr Hc]].
  induction 1 as [|InVeg T InVegs Masks (HTr & HTc & HT) _ IH]; auto.
  unfold matched_values in *. cbn [combine flat_map fst snd].
  rewrite IH. f_equal. apply map_ext_in. intros [a b] Hab. cbn [fst snd].
  rewrite <- Hv. symmetry. apply Hoff. intros [= E1 E2 E3]. subst a b.
  unfold marked in Hab. apply filter_In in Hab as [Hcell Htrue].
  cbn [fst snd] in Htrue. rewrite HTr, HTc in Hcell.
  apply in_cells2 in Hcell as [Hi Hj].
  rewrite (HT i j Hi Hj) in Htrue. cbv zeta in Htrue.
  rewrite <- Hn, E1 in Htrue.
  apply andb_true_iff in Htrue as [_ Hg].
  apply gt0_not_le0 in Hg. congruence.
Qed.

Lemma active_masks_shapes (IV V : arr3 num) (M : arr2 bool) InVegs Masks :
  shape3 V = shape3 IV -> nrow M = nlat IV -> ncol M = nlon IV ->
  Forall (valid_index (nveg IV)) InVegs ->
  Forall2 (is_active_tile_mask M IV) InVegs Masks ->
  Forall2 (fun InVeg T => valid_index (nveg V) InVeg /\
                          nrow T = nlat V /\ ncol T = nlon V) InVegs Masks.
Proof.
  intros Hs Hr Hc Hval HF. unfold shape3 in Hs. inversion Hs as [[Hv Hr' Hc']].
  induction HF as [|InVeg T InVegs Masks (HTr & HTc & _) _ IH]; auto.
  inversion Hval; subst. constructor; auto.
  rewrite Hv. split; [assumption | split; congruence].
Qed.

(** ** One episode *)

Lemma divide_ok Total PointsFound numpy_scalars :
  1 <= PointsFound ->
  divide Total PointsFound numpy_scalars = Ok (ndiv Total PointsFound).
Proof.
  intros H. unfold divide. destruct (Z.eqb_spec PointsFound 0); [lia|reflexivity].
Qed.

Lemma average_point_ok view (IV OV : arr3 num) Conf PerTile M p InVegs o s0 :
  episode_ready IV OV Conf M p InVegs ->
  outcome_ok IV InVegs M o ->
  1 <= PointsFound o ->
  tiles_ready view OV PerTile s0 ->
  forall s name,
    tiles_ready view OV PerTile s /\ inputs_kept p s0 s ->
    In name PerTile ->
    exists s',
      average_point view p (vegetation_map Conf) o s name = Ok s' /\
      (tiles_ready view OV PerTile s' /\ inputs_kept p s0 s') /\
      output_at s' name p
        = Some (pooled_mean_of s0 InVegs (ActiveTileMasks o) name) /\
      forall n, n <> name -> output_at s' n p = output_at s n p.
Proof.
  destruct p as [[v i] j].
  intros [Hs Hin Hfill Hr Hc Hget Hval] (Hcov & HF & HPF) Hpos Hready0
         s name [Hready Hkept] Hname.
  cbn [fst snd] in *.
  destruct (proj2 Hready0 name Hname) as (V0 & O0 & HV0 & HV0s & _).
  destruct (Hkept name V0 HV0) as (V & HV & Hoff).
  pose proof (proj1 (same_shape3_shape IV OV) Hs) as HsIV.
  assert (HVs : shape3 V = shape3 IV) by (destruct Hoff; congruence).
  pose proof HsIV as HsIV'. unfold shape3 in HsIV'. inversion HsIV' as [[Iv Ir Ic]].
  destruct Hcov as (Cr & Cc & _).
  unfold average_point. cbn [fst]. rewrite Hget. cbn [bind].
  rewrite (tile_total_ok (Input s) name V InVegs (ActiveTileMasks o) HV).
  2:{ apply (active_masks_shapes IV V (SearchMask_after o)); auto; congruence. }
  cbn [bind]. rewrite divide_ok by assumption. cbn [bind].
  destruct (assign_point_ok view OV PerTile s name v i j
              (ndiv (nadd zero (nsum (matched_values V InVegs (ActiveTileMasks o))))
                    (PointsFound o)))
    as (s' & -> & Hready' & Hout & Hframe & Hkept'); auto.
  exists s'. split; [reflexivity|]. split; [|split]; auto.
  - split; auto. eapply inputs_kept_trans; eauto.
  - rewrite Hout. unfold pooled_mean_of, pooled_mean. rewrite HV0.
    rewrite nadd_zero_l.
    rewrite (matched_values_same_off IV V0 V (SearchMask_after o) v i j); auto.
    + rewrite matched_values_length, <- HPF; [reflexivity|].
      eapply Forall2_length; eauto.
    + unfold shape3 in HV0s, HsIV. congruence.
Qed.

(** The stage list of [synthesise_point] is [stages_of], its stage loop is
    [episode_search], and the episode continues in one of two branches. *)
Lemma synthesise_point_unfold view IV Conf PerTile s M p :
  synthesise_point view IV Conf PerTile (s, M) p =
  (o <- episode_search IV Conf M p ;;
   s' <- (if PointsFound o <? minimum_points Conf
          then for_each (assign_point view p zero) PerTile s
          else for_each (average_point view p (vegetation_map Conf) o) PerTile s) ;;
   Ok (s', full2 (nrow (SearchMask_after o)) (ncol (SearchMask_after o)) false)).
Proof. destruct p as [[v i] j]. reflexivity. Qed.

Lemma synthesise_point_ok view (IV OV : arr3 num) Conf PerTile s M p InVegs :
  episode_ready IV OV Conf M p InVegs ->
  tiles_ready view OV PerTile s ->
  exists o,
    episode_search IV Conf M p = Ok o /\ outcome_ok IV InVegs M o /\
    (PointsFound o < minimum_points Conf ->
     exists s',
       synthesise_point view IV Conf PerTile (s, M) p
       = Ok (s', full2 (nrow M) (ncol M) false) /\
       tiles_ready view OV PerTile s' /\
       forall name, In name PerTile -> output_at s' name p = Some zero) /\
    (minimum_points Conf <= PointsFound o -> 1 <= PointsFound o ->
     exists s',
       synthesise_point view IV Conf PerTile (s, M) p
       = Ok (s', full2 (nrow M) (ncol M) false) /\
       tiles_ready view OV PerTile s' /\
       forall name, In name PerTile ->
         output_at s' name p
         = Some (pooled_mean_of s InVegs (ActiveTileMasks o) name)).
Proof.
  intros Hep Hready.
  destruct (episode_search_ok IV OV Conf M p InVegs Hep) as (o & Ho & Hok).
  exists o. split; [exact Ho|]. split; [exact Hok|].
  destruct Hok as ((Cr & Cc & Cm) & HF & HPF).
  rewrite synthesise_point_unfold, Ho. cbn [bind]. rewrite Cr, Cc.
  split.
  - intros Hlt. apply Z.ltb_lt in Hlt. rewrite Hlt.
    destruct p as [[v i] j].
    destruct (point_loop (assign_point view (v, i, j) zero)
                (tiles_ready view OV PerTile) (fun _ => zero) (v, i, j) PerTile)
      with (l := PerTile) (s := s) as (s' & -> & Hready' & Hall & _);
      auto using incl_refl.
    { intros s1 name H1 Hname.
      destruct (assign_point_ok view OV PerTile s1 name v i j zero)
        as (s2 & H2 & Hr2 & Ho2 & Hf2 & _); auto.
      - exact (ready_inside _ _ _ _ _ _ Hep).
      - exists s2; auto. }
    exists s'. cbn [bind]. auto.
  - intros Hge Hpos. apply Z.ltb_ge in Hge. rewrite Hge.
    destruct (point_loop (average_point view p (vegetation_map Conf) o)
                (fun s1 => tiles_ready view OV PerTile s1 /\ inputs_kept p s s1)
                (pooled_mean_of s InVegs (ActiveTileMasks o)) p PerTile)
      with (l := PerTile) (s := s) as (s' & -> & [Hready' _] & Hall & _);
      auto using incl_refl, inputs_kept_refl.
    { apply (average_point_ok view IV OV Conf PerTile M p InVegs o s); auto.
      repeat split; auto. }
    exists s'. cbn [bind]. auto.
Qed.

(** One episode, taken by itself. At a point among the tiles to fill
    where the staged search stops with at least [minimum_points] points (a
    positive number), the episode returns and every per-tile variable holds
    at that point the sum, over all matched (contributing type, cell) pairs
    pooled into one list, of the values [InputDataset] holds when the
    episode starts, divided by PointsFound; PointsFound is the number of
    pooled pairs. In a run whose [to_numpy] returns the dataset's buffer
    those values are no longer the input's where a tile has been emptied. *)
Theorem synthesised_value_is_pooled_mean :
  forall (view : bool) (InputVegetation OutputVegetation : arr3 num)
         (Conf : MappingConf) (PerTileVariables : list string) (s : state)
         (SearchMask : arr2 bool) (p : nat * nat * nat) (InVegs : list Z),
    episode_ready InputVegetation OutputVegetation Conf SearchMask p InVegs ->
    tiles_ready view OutputVegetation PerTileVariables s ->
    1 <= minimum_points Conf ->
    exists o,
      episode_search InputVegetation Conf SearchMask p = Ok o /\
      (minimum_points Conf <= PointsFound o ->
       exists s',
         synthesise_point view InputVegetation Conf PerTileVariables
                          (s, SearchMask) p
         = Ok (s', full2 (nrow SearchMask) (ncol SearchMask) false) /\
         forall name Var,
           In name PerTileVariables -> Input s name = Some Var ->
           let Pool := matched_values Var InVegs (ActiveTileMasks o) in
           output_at s' name p = Some (ndiv (nsum Pool) (PointsFound o)) /\
           PointsFound o = Z.of_nat (List.length Pool)).
Proof.
  intros view IV OV Conf PerTile s M p InVegs Hep Hready Hmin.
  destruct (synthesise_point_ok view IV OV Conf PerTile s M p InVegs Hep Hready)
    as (o & Ho & Hok & _ & Hmean).
  exists o. split; [exact Ho|]. intros Hge.
  destruct (Hmean Hge) as (s' & Hrun & _ & Hall); [lia|].
  exists s'. split; [exact Hrun|].
  intros name Var Hname HVar Pool.
  assert (HPF : PointsFound o = Z.of_nat (List.length Pool)).
  { destruct Hok as (_ & HF & ->). symmetry. apply matched_values_length.
    eapply Forall2_length; eauto. }
  split; [|exact HPF].
  rewrite (Hall name Hname). unfold pooled_mean_of, pooled_mean.
  rewrite HVar. fold Pool. now rewrite <- HPF.
Qed.

(** C3. At a point among the tiles to fill the stage loop returns, and
    whenever the points it found are fewer than [minimum_points] (in
    particular after the global stage has been applied) the episode returns
    without raising and every per-tile variable holds exactly zero at that
    point. *)
Theorem too_few_points_gives_zero :
  forall (view : bool) (InputVegetation OutputVegetation : arr3 num)
         (Conf : MappingConf) (PerTileVariables : list string) (s : state)
         (SearchMask : arr2 bool) (p : nat * nat * nat) (InVegs : list Z),
    episode_ready InputVegetation OutputVegetation Conf SearchMask p InVegs ->
    tiles_ready view OutputVegetation PerTileVariables s ->
    exists o,
      episode_search InputVegetation Conf SearchMask p = Ok o /\
      (PointsFound o < minimum_points Conf ->
       exists s',
         synthesise_point view InputVegetation Conf PerTileVariables
                          (s, SearchMask) p
         = Ok (s', full2 (nrow SearchMask) (ncol SearchMask) false) /\
         forall name, In name PerTileVariables ->
           output_at s' name p = Some zero).
Proof.
  intros view IV OV Conf PerTile s M p InVegs Hep Hready.
  destruct (synthesise_point_ok view IV OV Conf PerTile s M p InVegs Hep Hready)
    as (o & Ho & _ & Hzero & _).
  exists o. split; [exact Ho|]. intros Hlt.
  destruct (Hzero Hlt) as (s' & Hrun & _ & Hall).
  exists s'. auto.
Qed.

(** ** The two loops over the configured variables *)

Lemma remap_vegetation_unfold view G InputDataset IV OV FillAll Config
    PerCell PerTile :
  yaml_per_cell Config = Some PerCell ->
  yaml_per_tile Config = Some PerTile ->
  shape3 G = shape3 OV ->
  remap_vegetation view (Some G) InputDataset IV OV FillAll Config
  = synthesis view (prepare_mapping (nveg OV) Config) PerCell PerTile
              (start_dataset OV G) InputDataset IV OV FillAll.
Proof.
  intros Hc Ht Hs. unfold remap_vegetation, synthesis, start_dataset.
  unfold shape3 at 1. cbn [prepare_mapping per_cell per_tile].
  rewrite Hc, Ht. cbn [required bind]. unfold setup_output_dataset.
  unfold shape3 at 1. unfold ds_assign. cbn [coords data_vars].
  change (nveg OV, nlat OV, nlon OV) with (shape3 OV).
  rewrite (proj2 (shape_eqb_true _ _) Hs). cbn [bind coords data_vars].
  rewrite (proj2 (shape_eqb_true _ _) Hs). cbn [bind coords data_vars].
  reflexivity.
Qed.

(** A loop of variable steps, each of which rebinds its variable to an
    array satisfying [R] whenever the input array does. *)
Lemma variable_loop view (R : string -> arr3 num -> Prop)
    (body : state -> string -> result state) (all : list string)
    (shape : nat * nat * nat) :
  (forall s name V,
      coords (Output s) = shape -> Input s name = Some V -> R name V ->
      exists OutData, body s name = Ok (stored view s name OutData) /\
                      R name OutData) ->
  forall l s,
    incl l all -> coords (Output s) = shape -> inputs_ok R all s ->
    exists s',
      for_each body l s = Ok s' /\
      coords (Output s') = shape /\ inputs_ok R all s' /\
      (forall name, In name l -> bound_ok view R s' name) /\
      (forall n, bound_ok view R s n -> bound_ok view R s' n) /\
      (forall n, ~ In n l -> data_vars (Output s') n = data_vars (Output s) n).
Proof.
  intros Hbody. induction l as [|name l IH]; intros s Hincl Hco Hin;
    cbn [for_each].
  - exists s. repeat split; auto. intros name [].
  - assert (Hname : In name all) by (apply Hincl; now left).
    destruct (Hin name Hname) as (V & HV & HR).
    destruct (Hbody s name V Hco HV HR) as (OutData & -> & HRo).
    cbn [bind]. set (s1 := stored view s name OutData).
    assert (Hin1 : inputs_ok R all s1).
    { intros n Hn. unfold s1, stored; cbn [Input].
      destruct view; [|auto].
      destruct (String.eqb_spec n name) as [->|Hne].
      - exists OutData. now rewrite var_set_same.
      - rewrite var_set_other by auto. auto. }
    assert (Hb1 : bound_ok view R s1 name).
    { unfold bound_ok, s1, stored; cbn [Input Output data_vars].
      rewrite var_set_same. destruct view.
      - exists OutData, OutData. rewrite var_set_same. repeat split; auto.
      - exists V, OutData. repeat split; auto. discriminate. }
    assert (Hkeep1 : forall n, bound_ok view R s n -> bound_ok view R s1 n).
    { intros n Hn. destruct (String.eqb_spec n name) as [->|Hne]; auto.
      destruct Hn as (V1 & O1 & H1 & H2 & H3 & H4 & H5).
      exists V1, O1. unfold s1, stored; cbn [Input Output data_vars].
      rewrite var_set_other by auto.
      destruct view; [rewrite var_set_other by auto|]; repeat split; auto. }
    destruct (IH s1) as (s' & Hrun & Hco' & Hin' & Hall & Hkeep & Hframe); auto.
    { intros n Hn. apply Hincl. now right. }
    exists s'. repeat split; auto.
    + intros n [<-|Hn]; auto.
    + intros n Hn. rewrite Hframe by (intros Hl; apply Hn; now right).
      unfold s1, stored; cbn [Output data_vars].
      apply var_set_other. intros ->. apply Hn. now left.
Qed.

Lemma per_tile_variable_ok view (OV : arr3 num) (Empty : arr3 bool) s name
    (Var : arr3 num) :
  same_shape3 Empty OV = true -> shape3 Var = shape3 OV ->
  coords (Output s) = shape3 OV -> Input s name = Some Var ->
  exists OutData,
    per_tile_variable view Empty s name = Ok (stored view s name OutData) /\
    shape3 OutData = shape3 OV /\
    forall v i j,
      at3 OutData v i j = if at3 Empty v i j then zero else at3 Var v i j.
Proof.
  intros HE HV Hco Hin. unfold per_tile_variable, getitem.
  rewrite Hin. cbn [required bind].
  destruct (masked_fill_ok Var Empty zero) as (D & -> & HD & HDat).
  { apply same_shape3_shape. rewrite HV. symmetry. now apply same_shape3_shape. }
  cbn [bind]. exists D. rewrite store_ok by congruence.
  repeat split; auto. congruence.
Qed.

(** Both variable loops, for any property [R] of arrays that the two steps
    preserve under the given fill and empty masks. *)
Lemma variable_phase view (R : string -> arr3 num -> Prop)
    (IV OV : arr3 num) (Fill Empty : arr3 bool) PerCell PerTile s0 :
  same_shape3 Fill OV = true -> same_shape3 Empty OV = true ->
  same_shape3 IV OV = true -> (0 < nveg OV)%nat ->
  coords (Output s0) = shape3 OV ->
  inputs_ok R (PerCell ++ PerTile) s0 ->
  (forall name V, R name V -> shape3 V = shape3 OV) ->
  (forall name V D, R name V -> shape3 D = shape3 OV ->
     (forall v i j, inside OV v i j ->
        at3 D v i j = if at3 Empty v i j then zero
                      else if at3 Fill v i j then area_weighted_sum V IV i j
                      else at3 V v i j) -> R name D) ->
  (forall name V D, R name V -> shape3 D = shape3 OV ->
     (forall v i j,
        at3 D v i j = if at3 Empty v i j then zero else at3 V v i j) ->
     R name D) ->
  exists s1 s2,
    for_each (per_cell_variable view (nveg OV) IV Fill Empty) PerCell s0 = Ok s1 /\
    for_each (per_tile_variable view Empty) PerTile s1 = Ok s2 /\
    coords (Output s2) = shape3 OV /\
    (forall name, In name (PerCell ++ PerTile) -> bound_ok view R s2 name) /\
    (forall n, ~ In n (PerCell ++ PerTile) ->
               data_vars (Output s2) n = data_vars (Output s0) n).
Proof.
  intros HF HE HI Hpos Hco Hin Rshape Rcell Rtile.
  destruct (variable_loop view R
              (per_cell_variable view (nveg OV) IV Fill Empty)
              (PerCell ++ PerTile) (shape3 OV))
    with (l := PerCell) (s := s0)
    as (s1 & Hrun1 & Hco1 & Hin1 & Hall1 & _ & Hframe1); auto.
  { intros s name V Hcs HV HR.
    destruct (per_cell_variable_ok view IV OV Fill Empty s name V HF HE HI
                (proj2 (same_shape3_shape V OV) (Rshape _ _ HR)) Hpos Hcs HV)
      as (D & HD & HDs & HDat).
    exists D. split; [exact HD|]. eapply Rcell; eauto. }
  { apply incl_appl, incl_refl. }
  destruct (variable_loop view R (per_tile_variable view Empty)
              (PerCell ++ PerTile) (shape3 OV))
    with (l := PerTile) (s := s1)
    as (s2 & Hrun2 & Hco2 & Hin2 & Hall2 & Hkeep2 & Hframe2); auto.
  { intros s name V Hcs HV HR.
    destruct (per_tile_variable_ok view OV Empty s name V HE
                (Rshape _ _ HR) Hcs HV) as (D & HD & HDs & HDat).
    exists D. split; [exact HD|]. eapply Rtile; eauto. }
  { apply incl_appr, incl_refl. }
  exists s1, s2. repeat split; auto.
  - intros name Hname. apply in_app_or in Hname as [Hc|Ht]; auto.
  - intros n Hn. rewrite Hframe2, Hframe1; auto.
    + intros Hc. apply Hn, in_or_app. now left.
    + intros Ht. apply Hn, in_or_app. now right.
Qed.

Lemma valid_indexb_true n i : valid_indexb n i = true <-> valid_index n i.
Proof.
  unfold valid_indexb, valid_index.
  rewrite andb_true_iff, Z.leb_le, Z.ltb_lt. tauto.
Qed.

(** What the well-formedness check establishes. *)
Lemma well_formed_run_true NV Inp (IV OV : arr3 num) Config :
  well_formed_run NV Inp IV OV Config = true ->
  exists PerCell PerTile G,
    yaml_per_cell Config = Some PerCell /\
    yaml_per_tile Config = Some PerTile /\
    NV = Some G /\ shape3 G = shape3 OV /\
    same_shape3 IV OV = true /\ (0 < nveg OV)%nat /\
    (forall name, In name (PerCell ++ PerTile) ->
       exists V, Inp name = Some V /\ shape3 V = shape3 OV) /\
    (forall OutVeg, (OutVeg < nveg OV)%nat ->
       exists InVegs,
         dict_get (vegetation_map (prepare_mapping (nveg OV) Config))
                  (Z.of_nat OutVeg) = Ok InVegs /\
         Forall (valid_index (nveg IV)) InVegs) /\
    1 <= minimum_points (prepare_mapping (nveg OV) Config).
Proof.
  unfold well_formed_run. cbn [prepare_mapping per_cell per_tile].
  destruct (yaml_per_cell Config) as [PerCell|]; [|discriminate].
  destruct (yaml_per_tile Config) as [PerTile|]; [|discriminate].
  destruct NV as [G|]; [|discriminate].
  rewrite !andb_true_iff. intros [[[[[HG HS] Hpos] Hon] Hmap] Hmin].
  exists PerCell, PerTile, G. repeat split; auto.
  - now apply shape_eqb_true.
  - now apply Nat.ltb_lt.
  - intros name Hname. rewrite forallb_forall in Hon.
    specialize (Hon name Hname). unfold on_grid in Hon.
    destruct (Inp name) as [V|]; [|discriminate].
    exists V. split; auto. now apply shape_eqb_true.
  - intros OutVeg Hlt. rewrite forallb_forall in Hmap.
    specialize (Hmap OutVeg). cbn [prepare_mapping vegetation_map] in *.
    destruct (dict_get _ (Z.of_nat OutVeg)) as [InVegs|e].
    + exists InVegs. split; auto. apply Forall_forall. intros x Hx.
      apply valid_indexb_true.
      assert (H := Hmap ltac:(apply in_seq; lia)).
      rewrite forallb_forall in H. auto.
    + assert (H := Hmap ltac:(apply in_seq; lia)). discriminate.
  - now apply Z.leb_le.
Qed.

Lemma masked_array_mask_same (data : arr3 num) (m : arr3 bool) :
  same_shape3 m data = true -> masked_array_mask data m = Ok m.
Proof.
  intros H. unfold masked_array_mask.
  apply same_shape3_true in H as (Hv & Hr & Hc).
  now rewrite (proj2 (same_shape3_true data m)) by (repeat split; congruence).
Qed.

Lemma in_ndenumerate (a : arr3 num) (Mask : arr3 bool) v i j :
  In (v, i, j) (ndenumerate (shape3 a) Mask) <->
  inside a v i j /\ at3 Mask v i j = false.
Proof.
  unfold ndenumerate, shape3. rewrite filter_In, in_cells3. cbn [fst snd].
  rewrite negb_true_iff. reflexivity.
Qed.

(** The episodes of a well-formed run all return. *)
Lemma episodes_ok view (IV OV : arr3 num) Conf PerTile points s :
  same_shape3 IV OV = true ->
  1 <= minimum_points Conf ->
  (forall OutVeg, (OutVeg < nveg OV)%nat ->
     exists InVegs,
       dict_get (vegetation_map Conf) (Z.of_nat OutVeg) = Ok InVegs /\
       Forall (valid_index (nveg IV)) InVegs) ->
  Forall (fun p => inside OV (fst (fst p)) (snd (fst p)) (snd p) /\
                   le0 (at3 IV (fst (fst p)) (snd (fst p)) (snd p)) = true)
         points ->
  tiles_ready view OV PerTile s ->
  exists final,
    for_each (synthesise_point view IV Conf PerTile) points
             (s, full2 (nlat OV) (nlon OV) false) = Ok final /\
    tiles_ready view OV PerTile (fst final).
Proof.
  intros Hs Hmin Hmap Hpts Hready.
  destruct (for_each_total (synthesise_point view IV Conf PerTile)
              (fun st => tiles_ready view OV PerTile (fst st) /\
                         nrow (snd st) = nlat OV /\ ncol (snd st) = nlon OV)
              (fun p => inside OV (fst (fst p)) (snd (fst p)) (snd p) /\
                        le0 (at3 IV (fst (fst p)) (snd (fst p)) (snd p)) = true))
    with (xs := points) (s := (s, full2 (nlat OV) (nlon OV) false))
    as (final & Hrun & Hfinal & _); auto.
  - intros [s1 M] p (Hr1 & Hrow & Hcol) (Hin & Hfill). cbn [fst snd] in *.
    destruct (Hmap (fst (fst p))) as (InVegs & Hget & Hval).
    { destruct Hin; auto. }
    assert (Hep : episode_ready IV OV Conf M p InVegs) by (constructor; auto).
    destruct (synthesise_point_ok view IV OV Conf PerTile s1 M p InVegs Hep Hr1)
      as (o & _ & _ & Hzero & Hmean).
    destruct (Z.lt_ge_cases (PointsFound o) (minimum_points Conf)) as [Hlt|Hge].
    + destruct (Hzero Hlt) as (s' & -> & Hr' & _).
      eexists; split; [reflexivity|]. cbn [fst snd full2 nrow ncol]. auto.
    + destruct (Hmean Hge) as (s' & -> & Hr' & _); [lia|].
      eexists; split; [reflexivity|]. cbn [fst snd full2 nrow ncol]. auto.
  - eauto.
Qed.

(** A well-formed run returns a dataset. *)
Lemma synthesis_total view NV Inp (IV OV : arr3 num) FillAll Config :
  well_formed_run NV Inp IV OV Config = true ->
  exists out, remap_vegetation view NV Inp IV OV FillAll Config = Ok out.
Proof.
  intros Hwf.
  destruct (well_formed_run_true _ _ _ _ _ Hwf)
    as (PerCell & PerTile & G & Hpc & Hpt & -> & HG & HS & Hpos & Hin & Hmap & Hmin).
  rewrite (remap_vegetation_unfold view G Inp IV OV FillAll Config PerCell PerTile)
    by auto.
  unfold synthesis.
  destruct (tiles_policy_same_shape FillAll IV OV HS)
    as (Fill & Empty & -> & HF & HE & Hat).
  cbn [bind].
  destruct (variable_phase view (fun _ V => shape3 V = shape3 OV)
              IV OV Fill Empty PerCell PerTile
              (mkState Inp (start_dataset OV G)))
    as (s1 & s2 & -> & Hrun2 & Hco2 & Hall & _); auto.
  cbn [bind]. rewrite Hrun2. cbn [bind].
  rewrite masked_array_mask_same.
  2:{ apply same_shape3_true in HF as (? & ? & ?).
      apply same_shape3_true; cbn [map3 nveg nlat nlon]; auto. }
  cbn [bind].
  destruct (episodes_ok view IV OV (prepare_mapping (nveg OV) Config) PerTile
              (ndenumerate (shape3 OV) (map3 negb Fill)) s2)
    as (final & -> & _); auto.
  - apply Forall_forall. intros [[v i] j] Hp.
    apply in_ndenumerate in Hp as [Hp Hm]. cbn [fst snd map3 at3] in *.
    split; auto. apply negb_false_iff in Hm.
    destruct (Hat v i j Hp) as [HFill _]. rewrite HFill in Hm.
    now apply andb_true_iff in Hm as [Hle _].
  - split; auto. intros name Hname.
    destruct (Hall name) as (V & Out & H1 & H2 & H3 & H4 & H5).
    { apply in_or_app. now right. }
    exists V, Out. repeat split; auto.
  - cbn [bind]. eexists; reflexivity.
Qed.

(** In a well-formed run both variable loops return, they leave every
    per-tile variable ready, and every point the synthesis loop visits is
    the point of a well-defined episode starting from the all-false mask:
    the hypotheses of the statements about one episode hold throughout a
    well-formed run ([episodes_ok] carries them from one episode to the
    next). *)
Lemma run_reaches_ready_episodes view NV Inp (IV OV : arr3 num) FillAll Config :
  well_formed_run NV Inp IV OV Config = true ->
  exists PerCell PerTile Fill Empty s1 s2,
    yaml_per_cell Config = Some PerCell /\
    yaml_per_tile Config = Some PerTile /\
    tiles_policy FillAll IV OV = Ok (Fill, Empty) /\
    for_each (per_cell_variable view (nveg OV) IV Fill Empty) PerCell
             (mkState Inp (start_dataset OV (get_default NV OV))) = Ok s1 /\
    for_each (per_tile_variable view Empty) PerTile s1 = Ok s2 /\
    tiles_ready view OV PerTile s2 /\
    masked_array_mask OV (map3 negb Fill) = Ok (map3 negb Fill) /\
    Forall (fun p =>
              exists InVegs,
                episode_ready IV OV (prepare_mapping (nveg OV) Config)
                              (full2 (nlat OV) (nlon OV) false) p InVegs)
           (ndenumerate (shape3 OV) (map3 negb Fill)).
Proof.
  intros Hwf.
  destruct (well_formed_run_true _ _ _ _ _ Hwf)
    as (PerCell & PerTile & G & Hpc & Hpt & -> & HG & HS & Hpos & Hin & Hmap & Hmin).
  destruct (tiles_policy_same_shape FillAll IV OV HS)
    as (Fill & Empty & Hpol & HF & HE & Hat).
  destruct (variable_phase view (fun _ V => shape3 V = shape3 OV)
              IV OV Fill Empty PerCell PerTile
              (mkState Inp (start_dataset OV G)))
    as (s1 & s2 & Hrun1 & Hrun2 & Hco2 & Hall & _); auto.
  exists PerCell, PerTile, Fill, Empty, s1, s2.
  repeat (split; [assumption|]).
  split; [|split].
  - split; auto. intros name Hname.
    destruct (Hall name) as (V & Out & H1 & H2 & H3 & H4 & H5).
    { apply in_or_app. now right. }
    exists V, Out. repeat split; auto.
  - apply masked_array_mask_same.
    apply same_shape3_true in HF as (? & ? & ?).
    apply same_shape3_true; cbn [map3 nveg nlat nlon]; auto.
  - apply Forall_forall. intros [[v i] j] Hp.
    apply in_ndenumerate in Hp as [Hp Hm]. cbn [fst snd map3 at3] in *.
    apply negb_false_iff in Hm.
    destruct (Hat v i j Hp) as [HFill _]. rewrite HFill in Hm.
    apply andb_true_iff in Hm as [Hle _].
    destruct (Hmap v) as (InVegs & Hget & Hval); [destruct Hp; auto|].
    exists InVegs. constructor; auto.
Qed.

(** ** The per-cell value *)

(** C5. On grids of one shape the per-cell step of a variable returns, and
    the array it binds in the output holds, at every position among the
    tiles to fill and whatever the vegetation slot, the sum over the input
    vegetation types of value times fraction at that grid cell, the types
    with missing or non-positive fraction left out; at every other position
    it holds zero where the tile is to be emptied and the input's value
    otherwise. *)
Theorem per_cell_value_is_area_weighted_sum :
  forall (view FillAll : bool) (InputVegetation OutputVegetation : arr3 num)
         (s : state) (name : string) (Var : arr3 num),
    same_shape3 InputVegetation OutputVegetation = true ->
    shape3 Var = shape3 OutputVegetation ->
    (0 < nveg OutputVegetation)%nat ->
    coords (Output s) = shape3 OutputVegetation ->
    Input s name = Some Var ->
    exists TilesToFill TilesToEmpty OutData,
      tiles_policy FillAll InputVegetation OutputVegetation
        = Ok (TilesToFill, TilesToEmpty) /\
      per_cell_variable view (nveg OutputVegetation) InputVegetation
                        TilesToFill TilesToEmpty s name
        = Ok (stored view s name OutData) /\
      forall v i j, inside OutputVegetation v i j ->
        (at3 TilesToFill v i j = true ->
         at3 OutData v i j = area_weighted_sum Var InputVegetation i j) /\
        (at3 TilesToFill v i j = false ->
         at3 OutData v i j
         = if at3 TilesToEmpty v i j then zero else at3 Var v i j).
Proof.
  intros view FillAll IV OV s name Var HS HV Hpos Hco Hin.
  destruct (tiles_policy_same_shape FillAll IV OV HS)
    as (Fill & Empty & Hpol & HF & HE & Hat).
  destruct (per_cell_variable_ok view IV OV Fill Empty s name Var HF HE HS
              (proj2 (same_shape3_shape Var OV) HV) Hpos Hco Hin)
    as (D & HD & _ & HDat).
  exists Fill, Empty, D. split; [exact Hpol|]. split; [exact HD|].
  intros v i j Hp. rewrite (HDat v i j Hp).
  destruct (Hat v i j Hp) as [HFill HEmpty].
  split; intros Hf; rewrite Hf.
  - rewrite HFill in Hf. apply andb_true_iff in Hf as [_ Hf].
    rewrite HEmpty. destruct FillAll; [reflexivity|]. cbn [orb negb andb] in *.
    now rewrite (gt0_not_le0 _ Hf).
  - now destruct (at3 Empty v i j).
Qed.

(** ** Well-defined runs *)

(** C8, as amended. On input and output fraction grids of one and the same
    shape (in particular nVegIn = nVegOut), with the configured variables on
    that grid, contributing types that index the vegetation axis, a
    positive [minimum_points] and the module-level fractions bound on the
    output grid, the run returns a dataset in either mode: the fill policy,
    the per-cell aggregation and the per-tile synthesis meet no shape,
    broadcast or index failure. *)
Theorem remap_well_defined_on_one_shape :
  forall (view : bool) (NewVegetation : option (arr3 num))
         (InputDataset : variables) (InputVegetation OutputVegetation : arr3 num)
         (FillAll : bool) (Config : yaml),
    well_formed_run NewVegetation InputDataset InputVegetation OutputVegetation
                    Config = true ->
    exists out,
      remap_vegetation view NewVegetation InputDataset InputVegetation
                       OutputVegetation FillAll Config = Ok out.
Proof.
  intros view NV Inp IV OV FillAll Config Hwf.
  exact (synthesis_total view NV Inp IV OV FillAll Config Hwf).
Qed.

(** ** Fill-all on a fully populated grid *)

Lemma ds_assign_ok ds name a out :
  ds_assign ds name a = Ok out ->
  shape3 a = coords ds /\ out = mkDataset (coords ds) (var_set (data_vars ds) name a).
Proof.
  unfold ds_assign. destruct (shape_eqb (shape3 a) (coords ds)) eqn:E;
    [|discriminate].
  intros [= <-]. split; auto. now apply shape_eqb_true.
Qed.


Lemma filter_none {A} (f : A -> bool) (l : list A) :
  (forall x, In x l -> f x = false) -> filter f l = [].
Proof.
  induction l as [|a l IH]; intros H; cbn [filter]; auto.
  rewrite (H a) by now left. apply IH. intros x Hx. apply H. now right.
Qed.

Lemma fully_populated_true (IV : arr3 num) :
  fully_populated IV = true ->
  forall v i j, inside IV v i j -> le0 (at3 IV v i j) = false.
Proof.
  unfold fully_populated. rewrite forallb_forall. intros H v i j Hp.
  specialize (H (v, i, j)). cbn [fst snd] in H.
  apply negb_true_iff, H, in_cells3. exact Hp.
Qed.

Lemma same_inside_refl V : same_inside V V.
Proof. split; auto. Qed.

Lemma same_inside_trans V1 V2 V3 :
  same_inside V1 V2 -> same_inside V2 V3 -> same_inside V1 V3.
Proof.
  intros [S12 H12] [S23 H23]. split; [congruence|].
  intros v i j Hp. rewrite H23, H12; auto.
  unfold inside in *. unfold shape3 in S12. inversion S12. lia.
Qed.

(** What a per-cell step that returned has done where neither mask is set. *)
Lemma per_cell_variable_inv view n (IV : arr3 num) Fill Empty s name s' :
  per_cell_variable view n IV Fill Empty s name = Ok s' ->
  exists Var OutData,
    Input s name = Some Var /\ s' = stored view s name OutData /\
    shape3 Var = shape3 Fill /\ shape3 OutData = shape3 Var /\
    shape3 OutData = coords (Output s) /\
    forall v i j, at3 Fill v i j = false -> at3 Empty v i j = false ->
                  at3 OutData v i j = at3 Var v i j.
Proof.
  unfold per_cell_variable, getitem, required. intros H.
  destruct (Input s name) as [Var|] eqn:HVar; [|discriminate]. cbn [bind] in H.
  bind_inv H as Product HP. bind_inv H as AWM HA.
  bind_inv H as D1 HD1. bind_inv H as D2 HD2.
  unfold masked_copy in HD1.
  destruct (same_shape3 AWM Fill); [|discriminate].
  destruct (same_shape3 Var Fill) eqn:HVF; [|discriminate].
  cbn [andb] in HD1. inversion HD1; subst D1; clear HD1.
  unfold masked_fill in HD2.
  match type of HD2 with (if ?c then _ else _) = _ =>
    destruct c; [|discriminate] end.
  inversion HD2; subst D2; clear HD2. cbn [nveg nlat nlon at3] in *.
  unfold store in H. bind_inv H as out Hout.
  apply ds_assign_ok in Hout as [Hshape ->]. inversion H; subst s'; clear H.
  eexists Var, _. split; [reflexivity|]. split; [reflexivity|].
  repeat split; auto.
  - now apply same_shape3_shape.
  - cbn [at3]. intros v i j -> ->. reflexivity.
Qed.

Lemma per_tile_variable_inv view Empty s name s' :
  per_tile_variable view Empty s name = Ok s' ->
  exists Var OutData,
    Input s name = Some Var /\ s' = stored view s name OutData /\
    shape3 Var = shape3 Empty /\ shape3 OutData = shape3 Var /\
    shape3 OutData = coords (Output s) /\
    forall v i j, at3 Empty v i j = false -> at3 OutData v i j = at3 Var v i j.
Proof.
  unfold per_tile_variable, getitem, required. intros H.
  destruct (Input s name) as [Var|] eqn:HVar; [|discriminate]. cbn [bind] in H.
  bind_inv H as D HD. unfold masked_fill in HD.
  destruct (same_shape3 Var Empty) eqn:HVE; [|discriminate].
  inversion HD; subst D; clear HD.
  unfold store in H. bind_inv H as out Hout.
  apply ds_assign_ok in Hout as [Hshape ->]. inversion H; subst s'; clear H.
  eexists Var, _. split; [reflexivity|]. split; [reflexivity|].
  repeat split; auto.
  - now apply same_shape3_shape.
  - cbn [at3]. intros v i j ->. reflexivity.
Qed.

(** A finished loop of variable steps, each of which binds an array that
    agrees with the input array on the grid: the bound arrays agree with
    the original inputs, and every step's side fact [Q] holds. *)
Lemma variable_loop_inv view (Inp : variables) (shape : nat * nat * nat)
    (Q : Prop) (body : state -> string -> result state) :
  (forall s name s',
      coords (Output s) = shape -> body s name = Ok s' ->
      exists Var OutData,
        Input s name = Some Var /\ s' = stored view s name OutData /\
        same_inside Var OutData /\ Q) ->
  forall l s s',
    for_each body l s = Ok s' ->
    coords (Output s) = shape ->
    (forall n V, Input s n = Some V ->
                 exists V0, Inp n = Some V0 /\ same_inside V0 V) ->
    coords (Output s') = shape /\
    (forall n V, Input s' n = Some V ->
                 exists V0, Inp n = Some V0 /\ same_inside V0 V) /\
    (forall name, In name l ->
       Q /\ exists V0 Out, Inp name = Some V0 /\
                           data_vars (Output s') name = Some Out /\
                           same_inside V0 Out) /\
    (forall n V0 Out, Inp n = Some V0 -> data_vars (Output s) n = Some Out ->
       same_inside V0 Out ->
       exists Out', data_vars (Output s') n = Some Out' /\ same_inside V0 Out').
Proof.
  intros Hbody. induction l as [|name l IH]; intros s s' Hrun Hco HJ;
    cbn [for_each] in Hrun.
  - inversion Hrun; subst s'. split; [exact Hco|]. split; [exact HJ|]. split.
    + intros name [].
    + intros n V0 Out _ HO HS. exists Out; auto.
  - bind_inv Hrun as s1 Hs1.
    destruct (Hbody s name s1 Hco Hs1) as (Var & D & HVar & -> & HVD & HQ).
    destruct (HJ name Var HVar) as (V0 & HV0 & HV0V).
    assert (HV0D : same_inside V0 D) by (eapply same_inside_trans; eauto).
    set (s1 := stored view s name D) in *.
    assert (HJ1 : forall n V, Input s1 n = Some V ->
                    exists V1, Inp n = Some V1 /\ same_inside V1 V).
    { intros n V. unfold s1, stored; cbn [Input]. destruct view; [|apply HJ].
      destruct (String.eqb_spec n name) as [->|Hne].
      - rewrite var_set_same. intros [= <-]. exists V0; auto.
      - rewrite var_set_other by auto. apply HJ. }
    destruct (IH s1 s' Hrun) as (Hco' & HJ' & Hall & Hkeep); auto.
    split; [exact Hco'|]. split; [exact HJ'|]. split.
    + intros n [<-|Hn]; [|apply (Hall n Hn)]. split; [exact HQ|].
      destruct (Hkeep name V0 D HV0) as (Out' & HO' & HS'); auto.
      { unfold s1, stored; cbn [Output data_vars]. apply var_set_same. }
      exists V0, Out'. auto.
    + intros n V1 Out HV1 HO HS.
      destruct (String.eqb_spec n name) as [->|Hne].
      * rewrite HV0 in HV1. inversion HV1; subst V1.
        apply (Hkeep name V0 D); auto.
        unfold s1, stored; cbn [Output data_vars]. apply var_set_same.
      * apply (Hkeep n V1 Out); auto.
        unfold s1, stored; cbn [Output data_vars].
        now rewrite var_set_other.
Qed.

(** C9. A fill-all run on an input fraction grid with no entry [<= 0.0]
    leaves the variables as they were: in every dataset such a run returns,
    each configured per-cell and per-tile variable has the shape and, at
    every position of the grid, the value of the input variable of the same
    name. On well-formed inputs the run does return. *)
Theorem fill_all_on_populated_grid_changes_nothing :
  forall (view : bool) (NewVegetation : option (arr3 num))
         (InputDataset : variables) (InputVegetation OutputVegetation : arr3 num)
         (Config : yaml),
    fully_populated InputVegetation = true ->
    (forall out,
        remap_vegetation view NewVegetation InputDataset InputVegetation
                         OutputVegetation true Config = Ok out ->
        forall name, In name (configured Config) ->
          exists Var Out,
            InputDataset name = Some Var /\ data_vars out name = Some Out /\
            same_inside Var Out) /\
    (well_formed_run NewVegetation InputDataset InputVegetation OutputVegetation
                     Config = true ->
     exists out,
       remap_vegetation view NewVegetation InputDataset InputVegetation
                        OutputVegetation true Config = Ok out).
Proof.
  intros view NV Inp IV OV Config Hfull.
  split; [|apply synthesis_total].
  intros out Hrun name Hname.
  (* the prelude went through *)
  assert (Hpre : exists PerCell PerTile G,
            yaml_per_cell Config = Some PerCell /\
            yaml_per_tile Config = Some PerTile /\
            NV = Some G /\ shape3 G = shape3 OV).
  { unfold remap_vegetation in Hrun. unfold shape3 at 1 in Hrun.
    cbn [prepare_mapping per_cell per_tile] in Hrun.
    destruct (yaml_per_cell Config) as [PerCell|]; [|discriminate].
    destruct (yaml_per_tile Config) as [PerTile|]; [|discriminate].
    destruct NV as [G|]; [|discriminate].
    cbn [required bind] in Hrun. bind_inv Hrun as D1 HD1.
    apply ds_assign_ok in HD1 as [HD1 _].
    exists PerCell, PerTile, G. auto. }
  destruct Hpre as (PerCell & PerTile & G & Hpc & Hpt & -> & HG).
  rewrite (remap_vegetation_unfold view G Inp IV OV true Config PerCell PerTile)
    in Hrun by auto.
  unfold configured in Hname. rewrite Hpc, Hpt in Hname. cbn [get_default] in Hname.
  unfold synthesis in Hrun. cbn [tiles_policy bind] in Hrun.
  set (Fill := map3 le0 IV) in *. set (Empty := map3 (fun _ => false) IV) in *.
  bind_inv Hrun as s1 Hs1. bind_inv Hrun as s2 Hs2. bind_inv Hrun as Mask HMask.
  bind_inv Hrun as final Hfinal. inversion Hrun; subst out; clear Hrun.
  assert (HFill : forall (V : arr3 num) v i j,
                    shape3 V = shape3 IV -> inside V v i j ->
                    at3 Fill v i j = false).
  { intros V v i j HV Hp. cbn [Fill map3 at3].
    apply (fully_populated_true IV Hfull).
    unfold inside in *. unfold shape3 in HV. inversion HV. lia. }
  set (Q := shape3 IV = shape3 OV).
  (* the per-cell loop *)
  destruct (variable_loop_inv view Inp (shape3 OV) Q
              (per_cell_variable view (nveg OV) IV Fill Empty))
    with (l := PerCell) (s := mkState Inp (start_dataset OV G)) (s' := s1)
    as (Hco1 & HJ1 & Hall1 & Hkeep1); auto.
  { intros s n s' Hco Hstep.
    destruct (per_cell_variable_inv _ _ _ _ _ _ _ _ Hstep)
      as (Var & D & HVar & -> & HVF & HDV & HDc & Hat).
    exists Var, D. repeat split; auto.
    - intros v i j Hp. apply Hat; [eapply HFill; eauto|reflexivity].
    - unfold Q. change (shape3 Fill) with (shape3 IV) in HVF. congruence. }
  { intros n V HV. exists V. split; auto using same_inside_refl. }
  (* the per-tile loop *)
  destruct (variable_loop_inv view Inp (shape3 OV) Q
              (per_tile_variable view Empty))
    with (l := PerTile) (s := s1) (s' := s2)
    as (Hco2 & HJ2 & Hall2 & Hkeep2); auto.
  { intros s n s' Hco Hstep.
    destruct (per_tile_variable_inv _ _ _ _ _ Hstep)
      as (Var & D & HVar & -> & HVE & HDV & HDc & Hat).
    exists Var, D. repeat split; auto.
    unfold Q. change (shape3 Empty) with (shape3 IV) in HVE. congruence. }
  (* the variable is bound after both loops, and the grids have one shape *)
  assert (Hbound : Q /\ exists V0 Out, Inp name = Some V0 /\
                     data_vars (Output s2) name = Some Out /\ same_inside V0 Out).
  { apply in_app_or in Hname as [Hc|Ht]; [|apply (Hall2 name Ht)].
    destruct (Hall1 name Hc) as (HQ & V0 & Out & HV0 & HO & HS).
    split; [exact HQ|].
    destruct (Hkeep2 name V0 Out HV0 HO HS) as (Out' & HO' & HS').
    exists V0, Out'. auto. }
  destruct Hbound as (HQ & V0 & Out & HV0 & HO & HS).
  (* no point is left to synthesise *)
  assert (HsF : same_shape3 (map3 negb Fill) OV = true).
  { apply same_shape3_shape. exact HQ. }
  rewrite masked_array_mask_same in HMask by exact HsF.
  inversion HMask; subst Mask; clear HMask.
  assert (Hpts : ndenumerate (shape3 OV) (map3 negb Fill) = []).
  { unfold ndenumerate, shape3. apply filter_none. intros [[v i] j] Hp.
    apply in_cells3 in Hp. cbn [fst snd map3 at3].
    rewrite (HFill OV v i j); auto. }
  rewrite Hpts in Hfinal. cbn [for_each] in Hfinal.
  inversion Hfinal; subst final; clear Hfinal. cbn [fst].
  exists V0, Out. auto.
Qed.

(** ** Where the written fractions come from *)

(** A loop whose steps leave the output variable [X] alone leaves it alone. *)
Lemma loop_frame (body : state -> string -> result state) (X : string) :
  (forall s name s', body s name = Ok s' -> X <> name ->
     data_vars (Output s') X = data_vars (Output s) X) ->
  forall l s s', ~ In X l -> for_each body l s = Ok s' ->
    data_vars (Output s') X = data_vars (Output s) X.
Proof.
  intros Hbody l s s' Hnot Hrun.
  apply (for_each_inv body
           (fun s1 => data_vars (Output s1) X = data_vars (Output s) X)
           (fun name => X <> name)) with (xs := l) (s := s); auto.
  - intros s1 name s2 H1 Hne Hstep. rewrite <- H1. eapply Hbody; eauto.
  - apply Forall_forall. intros name Hname ->. contradiction.
Qed.

Lemma store_frame view s name D s' X :
  store view s name D = Ok s' -> X <> name ->
  data_vars (Output s') X = data_vars (Output s) X.
Proof.
  unfold store, ds_assign. intros H Hne.
  destruct (shape_eqb (shape3 D) (coords (Output s))); [|discriminate].
  cbn [bind] in H. inversion H; subst; clear H. cbn [Output data_vars].
  now apply var_set_other.
Qed.

Lemma per_cell_variable_frame view n IV Fill Empty s name s' X :
  per_cell_variable view n IV Fill Empty s name = Ok s' -> X <> name ->
  data_vars (Output s') X = data_vars (Output s) X.
Proof.
  unfold per_cell_variable. intros H Hne.
  bind_inv H as Var HVar. bind_inv H as Product HP. bind_inv H as AWM HA.
  bind_inv H as D1 HD1. bind_inv H as D2 HD2.
  eapply store_frame; eauto.
Qed.

Lemma per_tile_variable_frame view Empty s name s' X :
  per_tile_variable view Empty s name = Ok s' -> X <> name ->
  data_vars (Output s') X = data_vars (Output s) X.
Proof.
  unfold per_tile_variable. intros H Hne.
  bind_inv H as Var HVar. bind_inv H as D HD.
  eapply store_frame; eauto.
Qed.

Lemma assign_point_frame view p x s name s' X :
  assign_point view p x s name = Ok s' -> X <> name ->
  data_vars (Output s') X = data_vars (Output s) X.
Proof.
  unfold assign_point. intros H Hne.
  bind_inv H as Arr HArr. bind_inv H as Arr' HArr'.
  inversion H; subst; clear H. cbn [Output data_vars].
  now apply var_set_other.
Qed.

Lemma average_point_frame view p VegMapping o s name s' X :
  average_point view p VegMapping o s name = Ok s' -> X <> name ->
  data_vars (Output s') X = data_vars (Output s) X.
Proof.
  unfold average_point. intros H Hne.
  bind_inv H as InVegs HI. bind_inv H as Total HT. bind_inv H as Mean HM.
  eapply assign_point_frame; eauto.
Qed.

Lemma synthesise_point_frame view IV Conf PerTile X st p st' :
  ~ In X PerTile ->
  synthesise_point view IV Conf PerTile st p = Ok st' ->
  data_vars (Output (fst st')) X = data_vars (Output (fst st)) X.
Proof.
  destruct st as [s M]. intros Hnot H.
  rewrite synthesise_point_unfold in H.
  bind_inv H as o Ho. bind_inv H as s' Hs'. inversion H; subst; clear H.
  cbn [fst].
  destruct (PointsFound o <? minimum_points Conf).
  - eapply loop_frame; [|exact Hnot|exact Hs'].
    intros s1 name s2. apply assign_point_frame.
  - eapply loop_frame; [|exact Hnot|exact Hs'].
    intros s1 name s2. apply average_point_frame.
Qed.

Lemma episodes_frame view IV Conf PerTile X points st st' :
  ~ In X PerTile ->
  for_each (synthesise_point view IV Conf PerTile) points st = Ok st' ->
  data_vars (Output (fst st')) X = data_vars (Output (fst st)) X.
Proof.
  intros Hnot Hrun.
  apply (for_each_inv (synthesise_point view IV Conf PerTile)
           (fun st1 => data_vars (Output (fst st1)) X
                       = data_vars (Output (fst st)) X)
           (fun _ => True)) with (xs := points) (s := st); auto.
  - intros st1 p st2 H1 _ Hstep. rewrite <- H1.
    eapply synthesise_point_frame; eauto.
  - apply Forall_forall. auto.
Qed.

(** An output variable no configured list names is, at the end of the run,
    what it was after line 216. *)
Lemma synthesis_frame view Conf PerCell PerTile Out0 Inp IV OV FillAll out X :
  ~ In X (PerCell ++ PerTile) ->
  synthesis view Conf PerCell PerTile Out0 Inp IV OV FillAll = Ok out ->
  data_vars out X = data_vars Out0 X.
Proof.
  intros Hnot H. unfold synthesis in H.
  bind_inv H as policy Hpol. destruct policy as [Fill Empty].
  bind_inv H as s1 Hs1. bind_inv H as s2 Hs2. bind_inv H as Mask HMask.
  bind_inv H as final Hfinal. inversion H; subst; clear H.
  assert (HnC : ~ In X PerCell) by (intros Hc; apply Hnot, in_or_app; now left).
  assert (HnT : ~ In X PerTile) by (intros Ht; apply Hnot, in_or_app; now right).
  rewrite (episodes_frame _ _ _ _ _ _ _ _ HnT Hfinal). cbn [fst].
  rewrite (loop_frame _ X (fun s name s' => per_tile_variable_frame
                             view Empty s name s' X) _ _ _ HnT Hs2).
  rewrite (loop_frame _ X (fun s name s' => per_cell_variable_frame
                             view (nveg OV) IV Fill Empty s name s' X)
                      _ _ _ HnC Hs1).
  reflexivity.
Qed.

(** C10, as amended. The two fraction variables are written from the
    module-level name [NewVegetation], not from the [OutputVegetation]
    argument. A configuration that lacks [per_cell] or [per_tile] makes
    every call raise KeyError, whether the name is bound or not. With both
    lists configured: where the name is not bound the call raises
    NameError, whatever the other arguments are, so before the fill policy
    and any synthesis; where it is bound to an array [G], every dataset the
    call returns holds [G] under both fraction names, as long as no
    configured variable goes by one of those names, and on well-formed
    inputs the call does return. *)
Theorem fractions_are_read_from_the_global :
  forall (view : bool) (InputDataset : variables)
         (InputVegetation OutputVegetation : arr3 num) (FillAll : bool)
         (Config : yaml),
    (yaml_per_cell Config = None \/ yaml_per_tile Config = None ->
     forall NewVegetation : option (arr3 num),
       remap_vegetation view NewVegetation InputDataset InputVegetation
                        OutputVegetation FillAll Config = Raise KeyError) /\
    (forall PerCell PerTile : list string,
        yaml_per_cell Config = Some PerCell ->
        yaml_per_tile Config = Some PerTile ->
        remap_vegetation view None InputDataset InputVegetation OutputVegetation
                         FillAll Config = Raise NameError /\
        forall G : arr3 num,
          ~ In FRACTIONS (PerCell ++ PerTile) ->
          ~ In PREVIOUS (PerCell ++ PerTile) ->
          (forall out,
              remap_vegetation view (Some G) InputDataset InputVegetation
                               OutputVegetation FillAll Config = Ok out ->
              data_vars out FRACTIONS = Some G /\
              data_vars out PREVIOUS = Some G) /\
          (well_formed_run (Some G) InputDataset InputVegetation
                           OutputVegetation Config = true ->
           exists out,
             remap_vegetation view (Some G) InputDataset InputVegetation
                              OutputVegetation FillAll Config = Ok out)).
Proof.
  intros view Inp IV OV FillAll Config. split.
  { intros Hnone NV. unfold remap_vegetation. unfold shape3 at 1.
    cbn [prepare_mapping per_cell per_tile].
    destruct (yaml_per_cell Config) as [PerCell|]; [|reflexivity].
    destruct Hnone as [E|E]; [discriminate|]. rewrite E. reflexivity. }
  intros PerCell PerTile Hpc Hpt. split.
  - unfold remap_vegetation. unfold shape3 at 1.
    cbn [prepare_mapping per_cell per_tile]. rewrite Hpc, Hpt. reflexivity.
  - intros G HnF HnP. split.
    + intros out Hrun.
      assert (HG : shape3 G = shape3 OV).
      { unfold remap_vegetation in Hrun. unfold shape3 at 1 in Hrun.
        cbn [prepare_mapping per_cell per_tile] in Hrun.
        rewrite Hpc, Hpt in Hrun. cbn [required bind] in Hrun.
        bind_inv Hrun as D1 HD1. apply ds_assign_ok in HD1 as [HD1 _].
        exact HD1. }
      rewrite (remap_vegetation_unfold view G Inp IV OV FillAll Config
                 PerCell PerTile Hpc Hpt HG) in Hrun.
      rewrite (synthesis_frame _ _ _ _ _ _ _ _ _ _ FRACTIONS HnF Hrun).
      rewrite (synthesis_frame _ _ _ _ _ _ _ _ _ _ PREVIOUS HnP Hrun).
      unfold start_dataset. cbn [data_vars]. split; reflexivity.
    + apply synthesis_total.
Qed.

(** * The worked example and instances *)

(** The scenarios of the design document: with [minimum_points = 1] the
    radius stage finds the two source cells and the centre gets their mean,
    (10 + 20) / 2; with [minimum_points = 3] no stage finds enough and the
    centre is zero. Tiles that leave existence are zeroed. *)
Example scenario_mean_of_two_sources :
  forall view,
    value_at (remap_vegetation view (Some ex_OV) ex_inputs ex_IV ex_OV false
                               (ex_yaml 1)) "T"%string 0 1 1 = Some (Num (30 # 2)).
Proof. intros []; vm_compute; reflexivity. Qed.

Example scenario_too_few_sources :
  forall view,
    value_at (remap_vegetation view (Some ex_OV) ex_inputs ex_IV ex_OV false
                               (ex_yaml 3)) "T"%string 0 1 1 = Some zero.
Proof. intros []; vm_compute; reflexivity. Qed.

Example scenario_emptied_tile :
  forall view,
    value_at (remap_vegetation view (Some ex_OV) ex_inputs ex_IV ex_OV false
                               (ex_yaml 1)) "T"%string 1 1 1 = Some zero.
Proof. intros []; vm_compute; reflexivity. Qed.

Lemma ex_episode_ready minimum :
  episode_ready ex_IV ex_OV (ex_conf minimum) ex_empty_mask (0, 1, 1)%nat [0; 1].
Proof.
  constructor; try reflexivity.
  - unfold inside; cbn; lia.
  - apply Forall_forall. intros x [<-|[<-|[]]]; unfold valid_index; cbn; lia.
Defined.

Lemma ex_tiles_ready view : tiles_ready view ex_OV ["T"%string] ex_state.
Proof.
  split; [reflexivity|].
  intros name [<-|[]]. exists ex_T, ex_T. repeat split.
Defined.

Lemma stage_only_adds_marks_example :
  In modify_mask_for_nearest SearchMethods /\
  modify_mask_for_nearest ex_cell_mask (Some 1) (1, 1) = Ok ex_block_mask /\
  covers ex_cell_mask ex_block_mask /\
  forall (InputVegetation : arr3 num) (InVegs : list Z) Masks,
    find_active_tiles ex_cell_mask InputVegetation InVegs = Ok Masks ->
    exists Masks',
      find_active_tiles ex_block_mask InputVegetation InVegs = Ok Masks' /\
      points_found Masks <= points_found Masks'.
Proof.
  assert (Hin : In modify_mask_for_nearest SearchMethods)
    by (right; left; reflexivity).
  assert (Hrun : modify_mask_for_nearest ex_cell_mask (Some 1) (1, 1)
                 = Ok ex_block_mask) by reflexivity.
  split; [exact Hin|]. split; [exact Hrun|].
  exact (stage_only_adds_marks modify_mask_for_nearest (Some 1) (1, 1)
           ex_cell_mask ex_block_mask Hin Hrun).
Defined.

Lemma synthesised_value_is_pooled_mean_witness :
  episode_ready ex_IV ex_OV (ex_conf 1) ex_empty_mask (0, 1, 1)%nat [0; 1] /\
  tiles_ready true ex_OV ["T"%string] ex_state /\
  1 <= minimum_points (ex_conf 1) /\
  exists o,
    episode_search ex_IV (ex_conf 1) ex_empty_mask (0, 1, 1)%nat = Ok o /\
    (minimum_points (ex_conf 1) <= PointsFound o ->
     exists s',
       synthesise_point true ex_IV (ex_conf 1) ["T"%string]
                        (ex_state, ex_empty_mask) (0, 1, 1)%nat
       = Ok (s', full2 (nrow ex_empty_mask) (ncol ex_empty_mask) false) /\
       forall name Var,
         In name ["T"%string] -> Input ex_state name = Some Var ->
         let Pool := matched_values Var [0; 1] (ActiveTileMasks o) in
         output_at s' name (0, 1, 1)%nat
         = Some (ndiv (nsum Pool) (PointsFound o)) /\
         PointsFound o = Z.of_nat (List.length Pool)).
Proof.
  assert (Hmin : 1 <= minimum_points (ex_conf 1)) by (cbn; lia).
  split; [exact (ex_episode_ready 1)|]. split; [exact (ex_tiles_ready true)|].
  split; [exact Hmin|].
  exact (synthesised_value_is_pooled_mean true ex_IV ex_OV (ex_conf 1)
           ["T"%string] ex_state ex_empty_mask (0, 1, 1)%nat [0; 1]
           (ex_episode_ready 1) (ex_tiles_ready true) Hmin).
Defined.

Lemma too_few_points_gives_zero_witness :
  episode_ready ex_IV ex_OV (ex_conf 3) ex_empty_mask (0, 1, 1)%nat [0; 1] /\
  tiles_ready false ex_OV ["T"%string] ex_state /\
  exists o,
    episode_search ex_IV (ex_conf 3) ex_empty_mask (0, 1, 1)%nat = Ok o /\
    (PointsFound o < minimum_points (ex_conf 3) ->
     exists s',
       synthesise_point false ex_IV (ex_conf 3) ["T"%string]
                        (ex_state, ex_empty_mask) (0, 1, 1)%nat
       = Ok (s', full2 (nrow ex_empty_mask) (ncol ex_empty_mask) false) /\
       forall name, In name ["T"%string] ->
         output_at s' name (0, 1, 1)%nat = Some zero).
Proof.
  split; [exact (ex_episode_ready 3)|]. split; [exact (ex_tiles_ready false)|].
  exact (too_few_points_gives_zero false ex_IV ex_OV (ex_conf 3)
           ["T"%string] ex_state ex_empty_mask (0, 1, 1)%nat [0; 1]
           (ex_episode_ready 3) (ex_tiles_ready false)).
Defined.

(** In the example with [minimum_points = 3] the loop runs all four stages
    and ends after the global stage with two points. *)
Example ex_search_reaches_global_stage :
  match episode_search ex_IV (ex_conf 3) ex_empty_mask (0, 1, 1)%nat with
  | Ok o => Some (stages_run o, PointsFound o)
  | Raise _ => None
  end = Some (4%nat, 2).
Proof. vm_compute. reflexivity. Qed.

Lemma find_active_tiles_contract_witness :
  (nrow ex_block_mask = nlat ex_IV /\ ncol ex_block_mask = nlon ex_IV /\
   Forall (valid_index (nveg ex_IV)) [0; -1] /\
   exists Masks,
     find_active_tiles ex_block_mask ex_IV [0; -1] = Ok Masks /\
     List.length Masks = List.length [0; -1] /\
     Forall2 (is_active_tile_mask ex_block_mask ex_IV) [0; -1] Masks) /\
  find_active_tiles ex_block_mask ex_IV [] = Ok [] /\
  (Forall (valid_index (nveg ex_IV)) [0] /\ ~ valid_index (nveg ex_IV) 2 /\
   mask_broadcasts ex_block_mask ex_IV = true /\
   find_active_tiles ex_block_mask ex_IV ([0] ++ 2 :: [1]) = Raise IndexError) /\
  (valid_index (nveg ex_IV) 0 /\ mask_broadcasts (full2 2 2 true) ex_IV = false /\
   find_active_tiles (full2 2 2 true) ex_IV (0 :: [5]) = Raise ValueError).
Proof.
  assert (Hv : Forall (valid_index (nveg ex_IV)) [0; -1]).
  { apply Forall_forall. intros x [<-|[<-|[]]]; unfold valid_index; cbn; lia. }
  assert (Hv0 : Forall (valid_index (nveg ex_IV)) [0]).
  { apply Forall_forall. intros x [<-|[]]; unfold valid_index; cbn; lia. }
  assert (Hbad : ~ valid_index (nveg ex_IV) 2) by (unfold valid_index; cbn; lia).
  assert (H0 : valid_index (nveg ex_IV) 0) by (unfold valid_index; cbn; lia).
  split; [|split; [|split]].
  - split; [reflexivity|]. split; [reflexivity|]. split; [exact Hv|].
    exact (proj1 (find_active_tiles_contract ex_block_mask ex_IV)
             [0; -1] eq_refl eq_refl Hv).
  - exact (proj1 (proj2 (find_active_tiles_contract ex_block_mask ex_IV))).
  - split; [exact Hv0|]. split; [exact Hbad|]. split; [reflexivity|].
    exact (proj1 (proj2 (proj2 (find_active_tiles_contract ex_block_mask ex_IV)))
             [0] 2 [1] Hv0 Hbad (or_intror eq_refl)).
  - split; [exact H0|]. split; [reflexivity|].
    exact (proj2 (proj2 (proj2 (find_active_tiles_contract (full2 2 2 true) ex_IV)))
             0 [5] H0 eq_refl).
Defined.

Lemma per_cell_value_is_area_weighted_sum_witness :
  same_shape3 ex_IV ex_OV = true /\ shape3 ex_T = shape3 ex_OV /\
  (0 < nveg ex_OV)%nat /\ coords (Output ex_state) = shape3 ex_OV /\
  Input ex_state "C"%string = Some ex_T /\
  exists TilesToFill TilesToEmpty OutData,
    tiles_policy false ex_IV ex_OV = Ok (TilesToFill, TilesToEmpty) /\
    per_cell_variable true (nveg ex_OV) ex_IV TilesToFill TilesToEmpty
                      ex_state "C"%string = Ok (stored true ex_state "C"%string OutData) /\
    forall v i j, inside ex_OV v i j ->
      (at3 TilesToFill v i j = true ->
       at3 OutData v i j = area_weighted_sum ex_T ex_IV i j) /\
      (at3 TilesToFill v i j = false ->
       at3 OutData v i j = if at3 TilesToEmpty v i j then zero else at3 ex_T v i j).
Proof.
  assert (Hpos : (0 < nveg ex_OV)%nat) by (cbn; lia).
  split; [reflexivity|]. split; [reflexivity|]. split; [exact Hpos|].
  split; [reflexivity|]. split; [reflexivity|].
  exact (per_cell_value_is_area_weighted_sum true false ex_IV ex_OV ex_state "C"%string
           ex_T eq_refl eq_refl Hpos eq_refl eq_refl).
Defined.

(** The per-cell value at the centre of the example: no input type is
    active there, so the sum is empty. At the north-east cell type 1 alone
    is active: 10 * 1/2. *)
Example ex_area_weighted_sums :
  area_weighted_sum ex_T ex_IV 1 1 = zero /\
  area_weighted_sum ex_T ex_IV 0 2 = Num (10 # 2).
Proof. split; reflexivity. Qed.

Lemma fill_and_empty_disjoint_witness :
  tiles_policy false ex_IV ex_OV
  = Ok (fst (unwrap (map3 le0 ex_IV, map3 le0 ex_IV)
                    (tiles_policy false ex_IV ex_OV)),
        map3 le0 ex_OV) /\
  exists Both,
    zip3 andb (fst (unwrap (map3 le0 ex_IV, map3 le0 ex_IV)
                           (tiles_policy false ex_IV ex_OV)))
              (map3 le0 ex_OV) = Ok Both /\
    all_false Both.
Proof.
  split; [reflexivity|].
  exact (fill_and_empty_disjoint false ex_IV ex_OV _ _ eq_refl).
Defined.

Lemma remap_well_defined_on_one_shape_witness :
  well_formed_run (Some ex_OV) ex_inputs ex_IV ex_OV (ex_yaml 1) = true /\
  exists out,
    remap_vegetation true (Some ex_OV) ex_inputs ex_IV ex_OV false (ex_yaml 1)
    = Ok out.
Proof.
  split; [reflexivity|].
  exact (remap_well_defined_on_one_shape true (Some ex_OV) ex_inputs ex_IV ex_OV
           false (ex_yaml 1) eq_refl).
Defined.

(** C8 as stated fails: with two input and three output vegetation types
    the fill policy cannot broadcast the two grids (fill-new-only), the
    per-cell aggregation cannot index the stacked means with the fill mask
    (fill-all), and with no per-cell variable the mask over the output grid
    cannot be built (fill-all). *)
Lemma remap_fails_when_lengths_differ :
  (forall view,
     remap_vegetation view (Some three_types) (only "C"%string two_types)
                      two_types three_types false one_per_cell
     = Raise ValueError) /\
  (forall view,
     remap_vegetation view (Some three_types) (only "C"%string two_types)
                      two_types three_types true one_per_cell
     = Raise IndexError) /\
  (forall view,
     remap_vegetation view (Some three_types) (fun _ => None)
                      two_types three_types true no_variables
     = Raise MaskError).
Proof. repeat split; intros []; vm_compute; reflexivity. Qed.

Lemma fill_all_on_populated_grid_changes_nothing_witness :
  fully_populated two_full = true /\
  (forall out,
      remap_vegetation true (Some two_full) (only "T"%string two_types) two_full two_full
                       true one_per_tile = Ok out ->
      forall name, In name (configured one_per_tile) ->
        exists Var Out,
          only "T"%string two_types name = Some Var /\ data_vars out name = Some Out /\
          same_inside Var Out) /\
  (well_formed_run (Some two_full) (only "T"%string two_types) two_full two_full
                   one_per_tile = true ->
   exists out,
     remap_vegetation true (Some two_full) (only "T"%string two_types) two_full two_full
                      true one_per_tile = Ok out).
Proof.
  split; [reflexivity|].
  exact (fill_all_on_populated_grid_changes_nothing true (Some two_full)
           (only "T"%string two_types) two_full two_full one_per_tile eq_refl).
Defined.

(** The run of that instance does return, with the variable as it was. *)
Example ex_fill_all_returns :
  forall view,
    well_formed_run (Some two_full) (only "T"%string two_types) two_full two_full
                    one_per_tile = true /\
    value_at (remap_vegetation view (Some two_full) (only "T"%string two_types)
                               two_full two_full true one_per_tile)
             "T"%string 1 0 0 = Some half.
Proof. intros []; vm_compute; split; reflexivity. Qed.

Lemma fractions_are_read_from_the_global_witness :
  (yaml_per_cell no_lists = None \/ yaml_per_tile no_lists = None) /\
  (forall NewVegetation : option (arr3 num),
      remap_vegetation true NewVegetation ex_inputs ex_IV ex_OV false no_lists
      = Raise KeyError) /\
  yaml_per_cell (ex_yaml 1) = Some ["C"%string] /\
  yaml_per_tile (ex_yaml 1) = Some ["T"%string] /\
  remap_vegetation true None ex_inputs ex_IV ex_OV false (ex_yaml 1)
  = Raise NameError /\
  forall G : arr3 num,
    ~ In FRACTIONS (["C"%string] ++ ["T"%string]) ->
    ~ In PREVIOUS (["C"%string] ++ ["T"%string]) ->
    (forall out,
        remap_vegetation true (Some G) ex_inputs ex_IV ex_OV false (ex_yaml 1)
        = Ok out ->
        data_vars out FRACTIONS = Some G /\ data_vars out PREVIOUS = Some G) /\
    (well_formed_run (Some G) ex_inputs ex_IV ex_OV (ex_yaml 1) = true ->
     exists out,
       remap_vegetation true (Some G) ex_inputs ex_IV ex_OV false (ex_yaml 1)
       = Ok out).
Proof.
  assert (Hnone : yaml_per_cell no_lists = None \/ yaml_per_tile no_lists = None)
    by (left; reflexivity).
  split; [exact Hnone|]. split.
  - exact (proj1 (fractions_are_read_from_the_global true ex_inputs ex_IV ex_OV
                    false no_lists) Hnone).
  - split; [reflexivity|]. split; [reflexivity|].
    exact (proj2 (fractions_are_read_from_the_global true ex_inputs ex_IV ex_OV
                    false (ex_yaml 1)) ["C"%string] ["T"%string] eq_refl eq_refl).
Defined.

(** C10 as stated fails. Without [per_cell] in the configuration a call
    with the name unbound raises KeyError, not NameError; and with a
    per-tile variable that goes by the name of the fraction field, the
    dataset returned holds that variable (one half at the north-east tile),
    not the module-level array (10 there), which differs from the
    [OutputVegetation] argument. *)
Lemma fractions_are_not_always_the_global :
  remap_vegetation true None ex_inputs ex_IV ex_OV false no_lists
  = Raise KeyError /\
  value_at (remap_vegetation true (Some ex_T) (only FRACTIONS ex_IV) ex_IV ex_OV
                             false fraction_as_variable)
           FRACTIONS 0 0 2 = Some half /\
  at3 ex_T 0 0 2 = q 10 /\
  at3 ex_OV 0 0 2 = half.
Proof. vm_compute. repeat split; reflexivity. Qed.

(** A run whose module-level fractions differ from the [OutputVegetation]
    argument: the dataset holds the module-level values (1 at the centre of
    type 2, where the argument has 0). *)
Example ex_written_fractions_are_the_global :
  forall view,
    value_at (remap_vegetation view (Some ex_T) ex_inputs ex_IV ex_OV false
                               (ex_yaml 1)) FRACTIONS 0 0 0 = Some (q 1) /\
    at3 ex_OV 0 0 0 = q 0.
Proof. intros []; vm_compute; split; reflexivity. Qed.

(** C7: grids of different shapes are not rejected. One input vegetation
    type against two output types broadcasts silently: with no configured
    variable, and with a per-tile variable on the output grid, the run
    returns a dataset and no dimension check stops it. *)
Lemma mismatched_grids_are_not_rejected :
  forall view,
    same_shape3 one_tile two_full = false /\
    (exists out,
       remap_vegetation view (Some two_full) (fun _ => None) one_tile two_full
                        false no_variables = Ok out) /\
    (exists out,
       remap_vegetation view (Some two_full) (only "T"%string two_types) one_tile
                        two_full false one_per_tile = Ok out).
Proof.
  intros []; (split; [reflexivity|]); split; eexists; vm_compute; reflexivity.
Qed.

(** * Further properties of the code *)

(** ** The radius and band stages in closed form *)

Lemma in_arange lo hi k : In k (arange lo hi) <-> lo <= k < hi.
Proof.
  unfold arange. rewrite in_map_iff. split.
  - intros (n & <- & Hn). apply in_seq in Hn. lia.
  - intros H. exists (Z.to_nat (k - lo)). split; [lia|]. apply in_seq. lia.
Qed.

(** Marking a list of columns of one row. *)
Lemma mark_columns (M : arr2 bool) (r : Z) (cols : list Z) :
  valid_index (nrow M) r -> Forall (valid_index (ncol M)) cols ->
  exists M',
    for_each (fun m c => setitem2 m r c true) cols M = Ok M' /\
    nrow M' = nrow M /\ ncol M' = ncol M /\
    forall i j,
      at2 M' i j = at2 M i j
                   || ((i =? position (nrow M) r)%nat
                       && existsb (fun c => (j =? position (ncol M) c)%nat) cols).
Proof.
  intros Hr Hcols. revert M Hr Hcols.
  induction cols as [|c cols IH]; intros M Hr Hcols; cbn [for_each existsb].
  - exists M. repeat split; auto. intros i j.
    now rewrite andb_false_r, orb_false_r.
  - inversion Hcols as [|? ? Hc Hrest]; subst.
    unfold setitem2 at 1.
    destruct (py_index_valid _ _ Hr) as [-> _].
    destruct (py_index_valid _ _ Hc) as [-> _]. cbn [bind].
    set (M1 := mkArr2 (nrow M) (ncol M) _).
    destruct (IH M1) as (M' & -> & Hrow & Hcol & Hat); auto.
    exists M'. repeat split; auto. intros i j. rewrite Hat.
    cbn [M1 nrow ncol at2].
    destruct (at2 M i j), (i =? position (nrow M) r)%nat,
      (j =? position (ncol M) c)%nat,
      (existsb (fun c0 => (j =? position (ncol M) c0)%nat) cols); reflexivity.
Qed.

(** Marking a list of rows, each at the same list of columns. *)
Lemma mark_block (M : arr2 bool) (rows cols : list Z) :
  Forall (valid_index (nrow M)) rows -> Forall (valid_index (ncol M)) cols ->
  exists M',
    for_each (fun m r => for_each (fun m' c => setitem2 m' r c true) cols m)
             rows M = Ok M' /\
    nrow M' = nrow M /\ ncol M' = ncol M /\
    forall i j,
      at2 M' i j = at2 M i j
                   || (existsb (fun r => (i =? position (nrow M) r)%nat) rows
                       && existsb (fun c => (j =? position (ncol M) c)%nat) cols).
Proof.
  intros Hrows Hcols. revert M Hrows Hcols.
  induction rows as [|r rows IH]; intros M Hrows Hcols; cbn [for_each existsb].
  - exists M. repeat split; auto. intros i j. now rewrite orb_false_r.
  - inversion Hrows as [|? ? Hr Hrest]; subst.
    destruct (mark_columns M r cols Hr Hcols) as (M1 & -> & Hrow1 & Hcol1 & Hat1).
    cbn [bind].
    destruct (IH M1) as (M' & -> & Hrow & Hcol & Hat).
    { now rewrite Hrow1. } { now rewrite Hcol1. }
    exists M'. repeat split; try congruence. intros i j.
    rewrite Hat, Hat1, Hrow1, Hcol1.
    destruct (at2 M i j), (i =? position (nrow M) r)%nat,
      (existsb (fun r0 => (i =? position (nrow M) r0)%nat) rows),
      (existsb (fun c => (j =? position (ncol M) c)%nat) cols); reflexivity.
Qed.

(** Marking a list of whole rows. *)
Lemma mark_rows (M : arr2 bool) (rows : list Z) :
  Forall (valid_index (nrow M)) rows ->
  exists M',
    for_each (fun m r => setrow2 m r true) rows M = Ok M' /\
    nrow M' = nrow M /\ ncol M' = ncol M /\
    forall i j,
      at2 M' i j = at2 M i j
                   || existsb (fun r => (i =? position (nrow M) r)%nat) rows.
Proof.
  intros Hrows. revert M Hrows.
  induction rows as [|r rows IH]; intros M Hrows; cbn [for_each existsb].
  - exists M. repeat split; auto. intros i j. now rewrite orb_false_r.
  - inversion Hrows as [|? ? Hr Hrest]; subst.
    unfold setrow2 at 1. destruct (py_index_valid _ _ Hr) as [-> _]. cbn [bind].
    set (M1 := mkArr2 (nrow M) (ncol M) _).
    destruct (IH M1) as (M' & -> & Hrow & Hcol & Hat); auto.
    exists M'. repeat split; auto. intros i j. rewrite Hat.
    cbn [M1 nrow ncol at2].
    destruct (at2 M i j), (i =? position (nrow M) r)%nat,
      (existsb (fun r0 => (i =? position (nrow M) r0)%nat) rows); reflexivity.
Qed.

(** The clamped rows around [Lat] are the rows within the radius. *)
Lemma clamped_rows n (Lat : nat) radius (i : nat) :
  (Lat < n)%nat -> (i < n)%nat ->
  existsb (fun r => (i =? position n r)%nat)
          (map (fun k => clip (Z.of_nat Lat + k) 0 (Z.of_nat n - 1))
               (arange (- radius) (radius + 1)))
  = (Z.abs (Z.of_nat i - Z.of_nat Lat) <=? radius).
Proof.
  intros HLat Hi. apply eq_true_iff_eq.
  rewrite existsb_exists, Z.leb_le. split.
  - intros (r & Hr & Heq). apply in_map_iff in Hr as (k & <- & Hk).
    apply in_arange in Hk. apply Nat.eqb_eq in Heq.
    unfold position, clip in Heq.
    destruct (Z.ltb_spec (Z.min (Z.max (Z.of_nat Lat + k) 0) (Z.of_nat n - 1)) 0);
      lia.
  - intros Habs. exists (Z.of_nat i). split.
    + apply in_map_iff. exists (Z.of_nat i - Z.of_nat Lat). split.
      * unfold clip. lia.
      * apply in_arange. lia.
    + apply Nat.eqb_eq. unfold position.
      destruct (Z.ltb_spec (Z.of_nat i) 0); lia.
Qed.

(** The wrapped columns around [Lon] in closed form. *)
Lemma wrapped_columns n (Lon : nat) radius (j : nat) :
  (Lon < n)%nat -> (j < n)%nat ->
  existsb (fun c => (j =? position n c)%nat)
          (map (fun k => np_mod (Z.of_nat Lon + k) (Z.of_nat n))
               (arange (- radius) (radius + 1)))
  = ((Z.of_nat j - Z.of_nat Lon + radius) mod Z.of_nat n <=? 2 * radius).
Proof.
  intros HLon Hj. apply eq_true_iff_eq.
  rewrite existsb_exists, Z.leb_le.
  assert (Hn : 0 < Z.of_nat n) by lia.
  assert (Hpos : forall x, position n (np_mod x (Z.of_nat n))
                           = Z.to_nat (x mod Z.of_nat n)).
  { intros x. unfold position, np_mod.
    destruct (Z.eqb_spec (Z.of_nat n) 0); [lia|].
    pose proof (Z.mod_pos_bound x (Z.of_nat n) Hn).
    destruct (Z.ltb_spec (x mod Z.of_nat n) 0); [lia|reflexivity]. }
  split.
  - intros (c & Hc & Heq). apply in_map_iff in Hc as (k & <- & Hk).
    apply in_arange in Hk. apply Nat.eqb_eq in Heq. rewrite Hpos in Heq.
    pose proof (Z.mod_pos_bound (Z.of_nat Lon + k) (Z.of_nat n) Hn).
    assert (Hjz : Z.of_nat j = (Z.of_nat Lon + k) mod Z.of_nat n) by lia.
    rewrite Hjz.
    replace ((Z.of_nat Lon + k) mod Z.of_nat n - Z.of_nat Lon + radius)
      with ((Z.of_nat Lon + k) mod Z.of_nat n + (radius - Z.of_nat Lon)) by lia.
    rewrite Zplus_mod_idemp_l.
    replace (Z.of_nat Lon + k + (radius - Z.of_nat Lon)) with (k + radius) by lia.
    pose proof (Z.mod_le (k + radius) (Z.of_nat n)). lia.
  - intros Hle.
    set (m := (Z.of_nat j - Z.of_nat Lon + radius) mod Z.of_nat n) in *.
    pose proof (Z.mod_pos_bound (Z.of_nat j - Z.of_nat Lon + radius)
                                (Z.of_nat n) Hn) as Hm. fold m in Hm.
    exists (np_mod (Z.of_nat Lon + (m - radius)) (Z.of_nat n)). split.
    + apply in_map_iff. exists (m - radius). split; [reflexivity|].
      apply in_arange. lia.
    + apply Nat.eqb_eq. rewrite Hpos.
      replace (Z.of_nat Lon + (m - radius))
        with (m + (Z.of_nat Lon - radius)) by lia.
      unfold m. rewrite Zplus_mod_idemp_l.
      replace (Z.of_nat j - Z.of_nat Lon + radius + (Z.of_nat Lon - radius))
        with (Z.of_nat j) by lia.
      rewrite Z.mod_small by lia. lia.
Qed.

(** X1. On a grid plane, for a target cell on it and a radius of at most
    [search_extent_limit] in absolute value, the radius stage returns,
    keeps the shape, and the mask it leaves marks a cell exactly when it was
    marked before or lies in the block: at most [radius] rows from the
    target, rows past the poles being dropped, and at most [radius] columns
    from it counted around the globe. A negative radius adds nothing. *)
Theorem nearest_stage_marks_the_block :
  forall (SearchMask : arr2 bool) (radius : Z) (Lat Lon : nat),
    Z.abs radius <= search_extent_limit ->
    (Lat < nrow SearchMask)%nat -> (Lon < ncol SearchMask)%nat ->
    exists M',
      modify_mask_for_nearest SearchMask (Some radius)
                              (Z.of_nat Lon, Z.of_nat Lat) = Ok M' /\
      nrow M' = nrow SearchMask /\ ncol M' = ncol SearchMask /\
      forall i j, (i < nrow SearchMask)%nat -> (j < ncol SearchMask)%nat ->
        at2 M' i j
        = at2 SearchMask i j
          || in_block (ncol SearchMask) radius (Z.of_nat Lat) (Z.of_nat Lon) i j.
Proof.
  intros M radius Lat Lon _ HLat HLon. unfold modify_mask_for_nearest.
  destruct (mark_block M
              (map (fun k => clip (Z.of_nat Lat + k) 0 (Z.of_nat (nrow M) - 1))
                   (arange (- radius) (radius + 1)))
              (map (fun k => np_mod (Z.of_nat Lon + k) (Z.of_nat (ncol M)))
                   (arange (- radius) (radius + 1))))
    as (M' & HM' & Hrow & Hcol & Hat).
  - apply Forall_forall. intros x Hx. apply in_map_iff in Hx as (k & <- & _).
    apply clip_valid. lia.
  - apply Forall_forall. intros x Hx. apply in_map_iff in Hx as (k & <- & _).
    apply np_mod_valid. lia.
  - exists M'. split; [exact HM'|]. repeat split; auto.
    intros i j Hi Hj. rewrite Hat. unfold in_block.
    now rewrite clamped_rows, wrapped_columns.
Qed.

(** X2. On a grid plane, for a target cell on it and a band of at most
    [search_extent_limit] in absolute value, the band stage returns, keeps
    the shape, and the mask it leaves marks a cell exactly when it was
    marked before or its row is at most [band] rows from the target, at
    every longitude. *)
Theorem band_stage_marks_whole_rows :
  forall (SearchMask : arr2 bool) (band : Z) (Lat Lon : nat),
    Z.abs band <= search_extent_limit ->
    (Lat < nrow SearchMask)%nat ->
    exists M',
      modify_mask_for_latitude_band SearchMask (Some band)
                                    (Z.of_nat Lon, Z.of_nat Lat) = Ok M' /\
      nrow M' = nrow SearchMask /\ ncol M' = ncol SearchMask /\
      forall i j, (i < nrow SearchMask)%nat ->
        at2 M' i j = at2 SearchMask i j || in_band band (Z.of_nat Lat) i.
Proof.
  intros M band Lat Lon _ HLat. unfold modify_mask_for_latitude_band.
  destruct (mark_rows M
              (map (fun k => clip (Z.of_nat Lat + k) 0 (Z.of_nat (nrow M) - 1))
                   (arange (- band) (band + 1))))
    as (M' & HM' & Hrow & Hcol & Hat).
  - apply Forall_forall. intros x Hx. apply in_map_iff in Hx as (k & <- & _).
    apply clip_valid. lia.
  - exists M'. split; [exact HM'|]. repeat split; auto.
    intros i j Hi. rewrite Hat. unfold in_band. now rewrite clamped_rows.
Qed.

(** ** The stage loop stops at the first sufficient stage *)

Lemma for_each_app {S X} (body : S -> X -> result S) (l1 l2 : list X) (s : S) :
  for_each body (l1 ++ l2) s = (s1 <- for_each body l1 s ;; for_each body l2 s1).
Proof.
  revert s. induction l1 as [|x l1 IH]; intros s; cbn [app for_each bind]; auto.
  destruct (body s x) as [s1|e]; cbn [bind]; auto.
Qed.

Lemma firstn_snoc {X} (pre rest : list X) (x : X) :
  firstn (S (List.length pre)) (pre ++ x :: rest) = pre ++ [x].
Proof.
  induction pre as [|a pre IH]; simpl; [reflexivity|].
  f_equal. exact IH.
Qed.

Lemma firstn_prefix {X} (pre rest : list X) :
  firstn (List.length pre) (pre ++ rest) = pre.
Proof.
  induction pre as [|a pre IH]; simpl.
  - now destruct rest.
  - f_equal. exact IH.
Qed.

(** The loop over the stages still to run, given what the stages already
    run have left. *)
Lemma staged_search_trace Conf (IV : arr3 num) OutVeg Coord M0 InVegs :
  dict_get (vegetation_map Conf) (Z.of_nat OutVeg) = Ok InVegs ->
  forall rest pre M last o,
    stages_of Conf = pre ++ rest ->
    apply_stages Conf Coord (List.length pre) M0 = Ok M ->
    (forall k, (1 <= k <= List.length pre)%nat ->
       exists pk, points_at_stage IV InVegs Conf Coord M0 k = Ok pk /\
                  pk < stage_threshold Conf k) ->
    match last with
    | Some l => l = mkOutcome M (ActiveTileMasks l)
                              (points_found (ActiveTileMasks l))
                              (List.length pre) /\
                find_active_tiles M IV InVegs = Ok (ActiveTileMasks l) /\
                pre <> []
    | None => pre = []
    end ->
    staged_search rest IV (vegetation_map Conf) OutVeg Coord M
                  (List.length pre) last = Ok o ->
    (1 <= stages_run o <= List.length (stages_of Conf))%nat /\
    apply_stages Conf Coord (stages_run o) M0 = Ok (SearchMask_after o) /\
    find_active_tiles (SearchMask_after o) IV InVegs = Ok (ActiveTileMasks o) /\
    PointsFound o = points_found (ActiveTileMasks o) /\
    ((stages_run o < List.length (stages_of Conf))%nat ->
     stage_threshold Conf (stages_run o) <= PointsFound o) /\
    (forall k, (1 <= k < stages_run o)%nat ->
       exists pk, points_at_stage IV InVegs Conf Coord M0 k = Ok pk /\
                  pk < stage_threshold Conf k).
Proof.
  intros Hget. induction rest as [|[[Method Param] MinPoints] rest IH];
    intros pre M last o Hsplit HM Hfail Hlast Hrun; cbn [staged_search] in Hrun.
  - destruct last as [l|]; [|discriminate].
    inversion Hrun; subst o; clear Hrun.
    destruct Hlast as (-> & Hmasks & Hne).
    rewrite app_nil_r in Hsplit. rewrite Hsplit. cbn [stages_run SearchMask_after
      ActiveTileMasks PointsFound].
    repeat split; auto.
    + destruct pre; [congruence|cbn [List.length]; lia].
    + lia.
    + intros k Hk. apply Hfail. lia.
  - bind_inv Hrun as M' HM'. rewrite Hget in Hrun. cbn [bind] in Hrun.
    bind_inv Hrun as Masks HMasks.
    assert (Hnext : apply_stages Conf Coord (S (List.length pre)) M0 = Ok M').
    { unfold apply_stages in *. rewrite Hsplit, firstn_snoc, for_each_app.
      rewrite Hsplit, firstn_prefix in HM. rewrite HM. cbn [bind for_each fst snd].
      now rewrite HM'. }
    assert (Hth : stage_threshold Conf (S (List.length pre)) = MinPoints).
    { unfold stage_threshold. rewrite Hsplit.
      replace (S (List.length pre) - 1)%nat with (List.length pre) by lia.
      now rewrite nth_middle. }
    assert (Hlen : (S (List.length pre) <= List.length (stages_of Conf))%nat).
    { rewrite Hsplit, length_app. cbn [List.length]. lia. }
    destruct (Z.leb_spec MinPoints (points_found Masks)) as [Hge|Hlt].
    + inversion Hrun; subst o; clear Hrun.
      cbn [stages_run SearchMask_after ActiveTileMasks PointsFound].
      repeat split; auto; try lia.
      intros k Hk. apply Hfail. lia.
    + replace (S (List.length pre)) with (List.length (pre ++ [(Method, Param, MinPoints)]))
        in Hrun, Hnext, Hth by (rewrite length_app; cbn [List.length]; lia).
      refine (IH (pre ++ [(Method, Param, MinPoints)]) M' _ o _ _ _ _ Hrun); auto.
      * now rewrite <- app_assoc.
      * intros k Hk. rewrite length_app in Hk. cbn [List.length] in Hk.
        destruct (Nat.eq_dec k (List.length pre + 1)) as [->|Hne].
        -- exists (points_found Masks). split.
           ++ unfold points_at_stage.
              replace (List.length pre + 1)%nat
                with (List.length (pre ++ [(Method, Param, MinPoints)]))
                by (rewrite length_app; cbn [List.length]; lia).
              rewrite Hnext. cbn [bind]. rewrite HMasks. reflexivity.
           ++ replace (List.length pre + 1)%nat
                with (List.length (pre ++ [(Method, Param, MinPoints)]))
                by (rewrite length_app; cbn [List.length]; lia).
              rewrite Hth. exact Hlt.
        -- apply Hfail. lia.
      * split; [|split]; auto. now destruct pre.
Qed.

Lemma stages_of_length Conf : List.length (stages_of Conf) = 4%nat.
Proof. reflexivity. Qed.

Lemma stage_threshold_pos Conf k :
  1 <= minimum_points Conf -> 1 <= stage_threshold Conf k.
Proof.
  intros Hmin. unfold stage_threshold, stages_of.
  destruct (k - 1)%nat as [|[|[|[|n]]]]; cbn; try lia.
  destruct n; cbn; lia.
Qed.

Lemma episode_search_types IV Conf M OutVeg Lat Lon o :
  episode_search IV Conf M (OutVeg, Lat, Lon) = Ok o ->
  exists InVegs, dict_get (vegetation_map Conf) (Z.of_nat OutVeg) = Ok InVegs.
Proof.
  unfold episode_search, stages_of. cbn [SearchMethods combine staged_search].
  intros Hrun. bind_inv Hrun as M1 HM1.
  destruct (dict_get (vegetation_map Conf) (Z.of_nat OutVeg)) as [InVegs|e];
    [eauto|discriminate].
Qed.

Lemma search_trace_of :
  forall (InputVegetation : arr3 num) (Conf : MappingConf)
         (SearchMask : arr2 bool) (OutVeg Lat Lon : nat) (o : search_outcome),
    episode_search InputVegetation Conf SearchMask (OutVeg, Lat, Lon) = Ok o ->
    exists InVegs,
      let Coord := (Z.of_nat Lon, Z.of_nat Lat) in
      dict_get (vegetation_map Conf) (Z.of_nat OutVeg) = Ok InVegs /\
      (1 <= stages_run o <= 4)%nat /\
      apply_stages Conf Coord (stages_run o) SearchMask = Ok (SearchMask_after o) /\
      find_active_tiles (SearchMask_after o) InputVegetation InVegs
        = Ok (ActiveTileMasks o) /\
      PointsFound o = points_found (ActiveTileMasks o) /\
      ((stages_run o < 4)%nat ->
       stage_threshold Conf (stages_run o) <= PointsFound o) /\
      (forall k, (1 <= k < stages_run o)%nat ->
         exists pk,
           points_at_stage InputVegetation InVegs Conf Coord SearchMask k = Ok pk /\
           pk < stage_threshold Conf k).
Proof.
  intros IV Conf M OutVeg Lat Lon o Hrun.
  destruct (episode_search_types IV Conf M OutVeg Lat Lon o Hrun) as (InVegs & Hget).
  exists InVegs. cbv zeta. split; [exact Hget|].
  unfold episode_search in Hrun.
  apply (staged_search_trace Conf IV OutVeg (Z.of_nat Lon, Z.of_nat Lat) M InVegs
           Hget (stages_of Conf) [] M None o); auto.
  intros k Hk. cbn [List.length] in Hk. lia.
Qed.

(** X3. Whenever the stage loop of an episode returns, it ran between one
    and four stages, in the order cell, radius, latitude band, global; the
    mask, the tile masks and the count it leaves are those of the last stage
    run; every stage before the last found fewer points than its own
    threshold (1, [minimum_points], [minimum_points], 1); and unless all four
    stages ran, the last one met its threshold. *)
Theorem search_stops_at_first_sufficient_stage :
  forall (InputVegetation : arr3 num) (Conf : MappingConf)
         (SearchMask : arr2 bool) (OutVeg Lat Lon : nat) (o : search_outcome),
    episode_search InputVegetation Conf SearchMask (OutVeg, Lat, Lon) = Ok o ->
    exists InVegs,
      let Coord := (Z.of_nat Lon, Z.of_nat Lat) in
      dict_get (vegetation_map Conf) (Z.of_nat OutVeg) = Ok InVegs /\
      (1 <= stages_run o <= 4)%nat /\
      apply_stages Conf Coord (stages_run o) SearchMask = Ok (SearchMask_after o) /\
      find_active_tiles (SearchMask_after o) InputVegetation InVegs
        = Ok (ActiveTileMasks o) /\
      PointsFound o = points_found (ActiveTileMasks o) /\
      ((stages_run o < 4)%nat ->
       stage_threshold Conf (stages_run o) <= PointsFound o) /\
      (forall k, (1 <= k < stages_run o)%nat ->
         exists pk,
           points_at_stage InputVegetation InVegs Conf Coord SearchMask k = Ok pk /\
           pk < stage_threshold Conf k).
Proof.
  intros IV Conf M OutVeg Lat Lon o Hrun.
  destruct (episode_search_types IV Conf M OutVeg Lat Lon o Hrun) as (InVegs & Hget).
  exists InVegs. cbv zeta. split; [exact Hget|].
  unfold episode_search in Hrun.
  apply (staged_search_trace Conf IV OutVeg (Z.of_nat Lon, Z.of_nat Lat) M InVegs
           Hget (stages_of Conf) [] M None o); auto.
  intros k Hk. cbn [List.length] in Hk. lia.
Qed.

(** ** No source anywhere *)

Lemma absent_mask_empty (M : arr2 bool) (IV : arr3 num) VegType T :
  nrow M = nlat IV -> ncol M = nlon IV ->
  (forall i j, (i < nlat IV)%nat -> (j < nlon IV)%nat ->
     gt0 (at3 IV (position (nveg IV) VegType) i j) = false) ->
  is_active_tile_mask M IV VegType T -> count_true T = 0%nat.
Proof.
  intros Hr Hc Habs (Tr & Tc & HT). unfold count_true, marked.
  rewrite filter_none; [reflexivity|].
  intros [i j] Hin. apply in_cells2 in Hin as [Hi Hj]. cbn [fst snd].
  rewrite HT by congruence. cbv zeta.
  rewrite Habs by congruence. apply andb_false_r.
Qed.

Lemma absent_points_found (M : arr2 bool) (IV : arr3 num) InVegs Masks :
  nrow M = nlat IV -> ncol M = nlon IV ->
  absent_everywhere IV InVegs ->
  Forall2 (is_active_tile_mask M IV) InVegs Masks ->
  points_found Masks = 0.
Proof.
  intros Hr Hc Habs HF. unfold points_found.
  enough (list_sum (map count_true Masks) = 0%nat) as -> by reflexivity.
  induction HF as [|VegType T InVegs Masks HT _ IH]; [reflexivity|].
  cbn [map list_sum].
  rewrite (absent_mask_empty M IV VegType T Hr Hc); auto.
  - cbn. apply IH. intros v i j Hin. apply Habs. now right.
  - intros i j Hi Hj. apply Habs; auto. now left.
Qed.

Lemma apply_all_stages Conf Coord (M M' : arr2 bool) :
  apply_stages Conf Coord 4 M = Ok M' ->
  M' = full2 (nrow M') (ncol M') true.
Proof.
  unfold apply_stages, stages_of.
  cbn [SearchMethods combine firstn for_each fst snd].
  intros H. bind_inv H as M1 H1. bind_inv H as M2 H2. bind_inv H as M3 H3.
  bind_inv H as M4 H4. inversion H; subst M'.
  unfold modify_mask_for_global in H4. inversion H4. reflexivity.
Qed.

(** X4. At a point among the tiles to fill, with [minimum_points] at least
    1: when none of the contributing vegetation types has a positive
    fraction anywhere on the grid, the stage loop runs all four stages, ends
    on the whole grid with no point found, and the episode returns without
    raising, writing exactly zero to every per-tile variable at the point. *)
Theorem no_source_anywhere_gives_zero :
  forall (view : bool) (InputVegetation OutputVegetation : arr3 num)
         (Conf : MappingConf) (PerTileVariables : list string) (s : state)
         (SearchMask : arr2 bool) (p : nat * nat * nat) (InVegs : list Z),
    episode_ready InputVegetation OutputVegetation Conf SearchMask p InVegs ->
    tiles_ready view OutputVegetation PerTileVariables s ->
    1 <= minimum_points Conf ->
    absent_everywhere InputVegetation InVegs ->
    exists o s',
      episode_search InputVegetation Conf SearchMask p = Ok o /\
      stages_run o = 4%nat /\
      all_marked (SearchMask_after o) /\
      PointsFound o = 0 /\
      synthesise_point view InputVegetation Conf PerTileVariables (s, SearchMask) p
        = Ok (s', full2 (nrow SearchMask) (ncol SearchMask) false) /\
      forall name, In name PerTileVariables -> output_at s' name p = Some zero.
Proof.
  intros view IV OV Conf PerTile s M [[OutVeg Lat] Lon] InVegs Hep Hready Hmin Habs.
  destruct (synthesise_point_ok view IV OV Conf PerTile s M _ InVegs Hep Hready)
    as (o & Ho & (Hcov & HF & HPF) & Hzero & _).
  destruct Hcov as (Cr & Cc & _).
  assert (Hshape := ready_shape _ _ _ _ _ _ Hep).
  apply same_shape3_true in Hshape as (_ & Sr & Sc).
  assert (H0 : PointsFound o = 0).
  { rewrite HPF. apply (absent_points_found (SearchMask_after o) IV InVegs); auto.
    - rewrite Cr, (ready_rows _ _ _ _ _ _ Hep). congruence.
    - rewrite Cc, (ready_cols _ _ _ _ _ _ Hep). congruence. }
  destruct (search_trace_of IV Conf M OutVeg Lat Lon o Ho)
    as (InVegs' & _ & Hn & Happ & _ & _ & Hstop & _).
  assert (H4 : stages_run o = 4%nat).
  { destruct (Nat.eq_dec (stages_run o) 4) as [E|NE]; [exact E|].
    assert (Hlt : (stages_run o < 4)%nat) by lia.
    specialize (Hstop Hlt).
    pose proof (stage_threshold_pos Conf (stages_run o) Hmin). lia. }
  destruct Hzero as (s' & Hrun & _ & Hall); [lia|].
  exists o, s'. repeat split; auto.
  rewrite H4 in Happ. apply apply_all_stages in Happ.
  intros i j. rewrite Happ. reflexivity.
Qed.

(** ** The search mask between episodes *)

Lemma apply_stages_covers Conf Coord k (M M' : arr2 bool) :
  apply_stages Conf Coord k M = Ok M' -> covers M M'.
Proof.
  unfold apply_stages. intros H.
  assert (HF : Forall (fun st => In st (stages_of Conf)) (firstn k (stages_of Conf))).
  { apply Forall_forall. intros st Hin.
    rewrite <- (firstn_skipn k (stages_of Conf)). apply in_or_app. now left. }
  refine (for_each_inv _ (covers M) (fun st => In st (stages_of Conf))
            _ _ M M' HF (covers_refl M) H).
  intros M1 [[Method Param] MinPoints] M2 Hcov Hin Hstep. cbn [fst snd] in Hstep.
  apply covers_trans with M1; [exact Hcov|].
  apply (method_covers Method M1 Param Coord); [|exact Hstep].
  unfold stages_of in Hin.
  apply in_combine_l in Hin. apply in_combine_l in Hin. exact Hin.
Qed.

Lemma synthesise_point_mask view IV Conf PerTile s M p s' M' :
  synthesise_point view IV Conf PerTile (s, M) p = Ok (s', M') ->
  M' = full2 (nrow M) (ncol M) false.
Proof.
  rewrite synthesise_point_unfold. intros H.
  bind_inv H as o Ho. bind_inv H as s1 Hs1. inversion H; subst s' M'.
  destruct p as [[OutVeg Lat] Lon].
  destruct (search_trace_of IV Conf M OutVeg Lat Lon o Ho)
    as (InVegs & _ & _ & Happ & _).
  apply apply_stages_covers in Happ as (-> & -> & _). reflexivity.
Qed.

(** X5. In a loop over points that returns, every episode starts on a
    search mask of the size the loop started with and with no cell marked,
    provided the loop itself started on an unmarked mask: whatever the
    earlier episodes marked has been cleared. *)
Theorem every_episode_starts_unmarked :
  forall (view : bool) (InputVegetation : arr3 num) (Conf : MappingConf)
         (PerTileVariables : list string)
         (before after : list (nat * nat * nat))
         (s : state) (SearchMask : arr2 bool) (final : state * arr2 bool),
    unmarked SearchMask ->
    for_each (synthesise_point view InputVegetation Conf PerTileVariables)
             (before ++ after) (s, SearchMask) = Ok final ->
    exists s1 M1,
      for_each (synthesise_point view InputVegetation Conf PerTileVariables)
               before (s, SearchMask) = Ok (s1, M1) /\
      nrow M1 = nrow SearchMask /\ ncol M1 = ncol SearchMask /\ unmarked M1 /\
      for_each (synthesise_point view InputVegetation Conf PerTileVariables)
               after (s1, M1) = Ok final.
Proof.
  intros view IV Conf PerTile before after s M final HM.
  rewrite for_each_app. intros H. bind_inv H as mid Hmid.
  destruct mid as [s1 M1]. exists s1, M1.
  enough (nrow M1 = nrow M /\ ncol M1 = ncol M /\ unmarked M1)
    as (Hr & Hc & Hu) by auto.
  clear H. revert s M HM Hmid.
  induction before as [|p before IH]; intros s M HM Hmid; cbn [for_each] in Hmid.
  - inversion Hmid; subst. auto.
  - bind_inv Hmid as st Hst. destruct st as [s2 M2].
    apply synthesise_point_mask in Hst. subst M2.
    apply IH in Hmid; [exact Hmid|]. intros i j. reflexivity.
Qed.

(** ** A threshold below one *)





(** ** Episodes do not interfere *)

(** Matched cells have a positive fraction: arrays that agree wherever the
    fraction is not [<= 0.0] pool the same values. *)
Lemma matched_values_agree (IV V V' : arr3 num) (M : arr2 bool) InVegs Masks :
  shape3 V' = shape3 V -> nveg V = nveg IV ->
  (forall v i j, le0 (at3 IV v i j) = false -> at3 V' v i j = at3 V v i j) ->
  Forall2 (is_active_tile_mask M IV) InVegs Masks ->
  matched_values V' InVegs Masks = matched_values V InVegs Masks.
Proof.
  intros Hs Hn Hag. unfold shape3 in Hs. inversion Hs as [[Hv Hr Hc]].
  induction 1 as [|InVeg T InVegs Masks (HTr & HTc & HT) _ IH]; auto.
  unfold matched_values in *. cbn [combine flat_map fst snd].
  rewrite IH. f_equal. apply map_ext_in. intros [a b] Hab. cbn [fst snd].
  rewrite Hv. apply Hag.
  unfold marked in Hab. apply filter_In in Hab as [Hcell Htrue].
  cbn [fst snd] in Htrue. rewrite HTr, HTc in Hcell.
  apply in_cells2 in Hcell as [Hi Hj].
  rewrite (HT a b Hi Hj) in Htrue. cbv zeta in Htrue.
  rewrite <- Hn in Htrue.
  apply andb_true_iff in Htrue as [_ Hg].
  apply gt0_not_le0 in Hg. exact Hg.
Qed.

Lemma sources_kept_refl IV s : sources_kept IV s s.
Proof. intros name V H. exists V. auto. Qed.

Lemma sources_kept_trans IV s1 s2 s3 :
  sources_kept IV s1 s2 -> sources_kept IV s2 s3 -> sources_kept IV s1 s3.
Proof.
  intros H12 H23 name V H.
  destruct (H12 name V H) as (V2 & H2 & S2 & A2).
  destruct (H23 name V2 H2) as (V3 & H3 & S3 & A3).
  exists V3. split; [exact H3|]. split; [congruence|].
  intros v i j Hle. now rewrite A3, A2.
Qed.

Lemma inputs_kept_sources (IV : arr3 num) p s s' :
  le0 (at3 IV (fst (fst p)) (snd (fst p)) (snd p)) = true ->
  inputs_kept p s s' -> sources_kept IV s s'.
Proof.
  destruct p as [[v i] j]. cbn [fst snd]. intros Hle Hk name V H.
  destruct (Hk name V H) as (V' & H' & Hs & Hoff).
  exists V'. split; [exact H'|]. split; [congruence|].
  intros v' i' j' Hle'. symmetry. apply Hoff. intros [= -> -> ->]. congruence.
Qed.

Lemma pooled_mean_of_kept (IV : arr3 num) (M : arr2 bool) s0 s InVegs Masks name V0 :
  sources_kept IV s0 s ->
  Input s0 name = Some V0 -> nveg V0 = nveg IV ->
  Forall2 (is_active_tile_mask M IV) InVegs Masks ->
  pooled_mean_of s InVegs Masks name = pooled_mean_of s0 InVegs Masks name.
Proof.
  intros Hk H0 Hn HF. destruct (Hk name V0 H0) as (V & HV & Hs & Hag).
  unfold pooled_mean_of, pooled_mean. rewrite H0, HV.
  now rewrite (matched_values_agree IV V0 V M InVegs Masks).
Qed.

(** What a write at one point leaves alone. *)
Lemma setitem3_inv (a a' : arr3 num) p x :
  setitem3 a p x = Ok a' ->
  forall v i j, (v, i, j) <> p -> at3 a' v i j = at3 a v i j.
Proof.
  destruct p as [[pv pi] pj]. unfold setitem3.
  destruct ((pv <? nveg a) && (pi <? nlat a) && (pj <? nlon a))%nat; [|discriminate].
  intros [= <-] v i j Hne. cbn [at3].
  destruct (Nat.eqb_spec v pv), (Nat.eqb_spec i pi), (Nat.eqb_spec j pj);
    cbn [andb]; auto. subst. congruence.
Qed.

Lemma assign_point_out_kept view p x s name s' :
  assign_point view p x s name = Ok s' ->
  forall n q, q <> p -> output_at s' n q = output_at s n q.
Proof.
  unfold assign_point, getitem, required. intros H n [[v i] j] Hne.
  destruct (data_vars (Output s) name) as [Arr|] eqn:HArr; [|discriminate].
  cbn [bind] in H. bind_inv H as Arr' HArr'. inversion H; subst s'; clear H.
  unfold output_at. cbn [Output data_vars fst snd].
  destruct (String.eqb_spec n name) as [->|Hn].
  - rewrite var_set_same, HArr. f_equal. eapply setitem3_inv; eauto.
  - now rewrite var_set_other.
Qed.

Lemma average_point_out_kept view p VegMapping o s name s' :
  average_point view p VegMapping o s name = Ok s' ->
  forall n q, q <> p -> output_at s' n q = output_at s n q.
Proof.
  unfold average_point. intros H.
  bind_inv H as InVegs HI. bind_inv H as Total HT. bind_inv H as Mean HM.
  eapply assign_point_out_kept; eauto.
Qed.

Lemma synthesise_point_out_kept view IV Conf PerTile s M p s' M' :
  synthesise_point view IV Conf PerTile (s, M) p = Ok (s', M') ->
  forall n q, q <> p -> output_at s' n q = output_at s n q.
Proof.
  rewrite synthesise_point_unfold. intros H n q Hne.
  bind_inv H as o Ho. bind_inv H as s1 Hs1. inversion H; subst s1 M'; clear H.
  assert (HF : Forall (fun _ : string => True) PerTile)
    by (apply Forall_forall; auto).
  destruct (PointsFound o <? minimum_points Conf).
  - refine (for_each_inv _ (fun s1 => output_at s1 n q = output_at s n q)
              (fun _ => True) _ PerTile s s' HF eq_refl Hs1).
    intros s1 name s2 H1 _ Hstep. rewrite <- H1.
    eapply assign_point_out_kept; eauto.
  - refine (for_each_inv _ (fun s1 => output_at s1 n q = output_at s n q)
              (fun _ => True) _ PerTile s s' HF eq_refl Hs1).
    intros s1 name s2 H1 _ Hstep. rewrite <- H1.
    eapply average_point_out_kept; eauto.
Qed.

(** One episode of a well-defined run, in full: what it returns, what it
    writes at its point, and what it keeps. *)
Lemma synthesise_point_step view (IV OV : arr3 num) Conf PerTile s M p InVegs :
  episode_ready IV OV Conf M p InVegs ->
  tiles_ready view OV PerTile s ->
  1 <= minimum_points Conf ->
  exists o s',
    episode_search IV Conf M p = Ok o /\ outcome_ok IV InVegs M o /\
    synthesise_point view IV Conf PerTile (s, M) p
      = Ok (s', full2 (nrow M) (ncol M) false) /\
    tiles_ready view OV PerTile s' /\ inputs_kept p s s' /\
    (forall name, In name PerTile ->
       output_at s' name p = Some (episode_value Conf s InVegs o name)) /\
    (forall n q, q <> p -> output_at s' n q = output_at s n q).
Proof.
  intros Hep Hready Hmin.
  destruct (episode_search_ok IV OV Conf M p InVegs Hep) as (o & Ho & Hok).
  exists o.
  assert (Hrun : exists s',
             synthesise_point view IV Conf PerTile (s, M) p
               = Ok (s', full2 (nrow M) (ncol M) false) /\
             tiles_ready view OV PerTile s' /\ inputs_kept p s s' /\
             (forall name, In name PerTile ->
                output_at s' name p = Some (episode_value Conf s InVegs o name))).
  { pose proof Hok as ((Cr & Cc & Cm) & HF & HPF).
    rewrite synthesise_point_unfold, Ho. cbn [bind]. rewrite Cr, Cc.
    unfold episode_value.
    destruct (Z.ltb_spec (PointsFound o) (minimum_points Conf)) as [Hlt|Hge].
    - destruct p as [[v i] j].
      destruct (point_loop (assign_point view (v, i, j) zero)
                  (fun s1 => tiles_ready view OV PerTile s1 /\
                             inputs_kept (v, i, j) s s1)
                  (fun _ => zero) (v, i, j) PerTile)
        with (l := PerTile) (s := s) as (s' & -> & [Hready' Hkept] & Hall & _);
        auto using incl_refl, inputs_kept_refl.
      { intros s1 name [H1 K1] Hname.
        destruct (assign_point_ok view OV PerTile s1 name v i j zero)
          as (s2 & H2 & Hr2 & Ho2 & Hf2 & Hk2); auto.
        - exact (ready_inside _ _ _ _ _ _ Hep).
        - exists s2. split; [exact H2|].
          split; [split; [exact Hr2 | eapply inputs_kept_trans; eauto]|].
          split; [exact Ho2 | exact Hf2]. }
      exists s'. cbn [bind]. auto.
    - destruct (point_loop (average_point view p (vegetation_map Conf) o)
                  (fun s1 => tiles_ready view OV PerTile s1 /\ inputs_kept p s s1)
                  (pooled_mean_of s InVegs (ActiveTileMasks o)) p PerTile)
        with (l := PerTile) (s := s) as (s' & -> & [Hready' Hkept] & Hall & _);
        auto using incl_refl, inputs_kept_refl.
      { apply (average_point_ok view IV OV Conf PerTile M p InVegs o s); auto.
        lia. }
      exists s'. cbn [bind]. auto. }
  destruct Hrun as (s' & Hrun & Hready' & Hkept & Hval).
  exists s'. split; [exact Ho|]. split; [exact Hok|]. split; [exact Hrun|].
  split; [exact Hready'|]. split; [exact Hkept|]. split; [exact Hval|].
  eapply synthesise_point_out_kept; eauto.
Qed.

Lemma episode_value_kept (IV OV : arr3 num) view PerTile Conf (M : arr2 bool)
    s0 s InVegs o name :
  same_shape3 IV OV = true ->
  tiles_ready view OV PerTile s0 -> In name PerTile ->
  sources_kept IV s0 s ->
  Forall2 (is_active_tile_mask M IV) InVegs (ActiveTileMasks o) ->
  episode_value Conf s InVegs o name = episode_value Conf s0 InVegs o name.
Proof.
  intros Hs [_ Hready] Hname Hk HF. unfold episode_value.
  destruct (PointsFound o <? minimum_points Conf); [reflexivity|].
  destruct (Hready name Hname) as (V0 & _ & HV0 & HV0s & _).
  apply (pooled_mean_of_kept IV M s0 s InVegs (ActiveTileMasks o) name V0); auto.
  apply same_shape3_true in Hs as (Hv & _ & _).
  unfold shape3 in HV0s. inversion HV0s. congruence.
Qed.

(** The loop over the points to fill: every point ends with the value of
    its own episode, computed from the data the loop started with. *)
Lemma episodes_values view (IV OV : arr3 num) Conf PerTile s0 :
  same_shape3 IV OV = true ->
  1 <= minimum_points Conf ->
  (forall OutVeg, (OutVeg < nveg OV)%nat ->
     exists InVegs,
       dict_get (vegetation_map Conf) (Z.of_nat OutVeg) = Ok InVegs /\
       Forall (valid_index (nveg IV)) InVegs) ->
  tiles_ready view OV PerTile s0 ->
  forall points s,
    NoDup points -> Forall (fill_point IV OV) points ->
    tiles_ready view OV PerTile s -> sources_kept IV s0 s ->
    exists final,
      for_each (synthesise_point view IV Conf PerTile) points
               (s, unmarked_plane OV) = Ok (final, unmarked_plane OV) /\
      tiles_ready view OV PerTile final /\ sources_kept IV s0 final /\
      outputs_kept_outside points s final /\
      forall p, In p points ->
        exists InVegs o,
          dict_get (vegetation_map Conf) (Z.of_nat (fst (fst p))) = Ok InVegs /\
          episode_search IV Conf (unmarked_plane OV) p = Ok o /\
          forall name, In name PerTile ->
            output_at final name p = Some (episode_value Conf s0 InVegs o name).
Proof.
  intros Hs Hmin Hmap Hready0.
  induction points as [|p points IH]; intros s Hnd Hfill Hready Hk;
    cbn [for_each].
  - exists s. split; [reflexivity|]. split; [exact Hready|].
    split; [exact Hk|]. split; [intros n q _; reflexivity|]. intros p [].
  - inversion Hnd as [|? ? Hnotin Hnd']; subst.
    inversion Hfill as [|? ? [Hin Hle] Hfill']; subst.
    destruct (Hmap (fst (fst p))) as (InVegs & Hget & Hval);
      [destruct Hin; auto|].
    assert (Hep : episode_ready IV OV Conf (unmarked_plane OV) p InVegs)
      by (constructor; auto).
    destruct (synthesise_point_step view IV OV Conf PerTile s (unmarked_plane OV)
                p InVegs Hep Hready Hmin)
      as (o & s1 & Ho & Hok & Hrun & Hready1 & Hkept1 & Hval1 & Hout1).
    rewrite Hrun. cbn [bind].
    change (full2 (nrow (unmarked_plane OV)) (ncol (unmarked_plane OV)) false)
      with (unmarked_plane OV).
    assert (Hk1 : sources_kept IV s0 s1).
    { eapply sources_kept_trans; [exact Hk|].
      eapply inputs_kept_sources; eauto. }
    destruct (IH s1 Hnd' Hfill' Hready1 Hk1)
      as (final & Hfinal & Hreadyf & Hkf & Houtf & Hvalf).
    exists final. split; [exact Hfinal|]. split; [exact Hreadyf|].
    split; [exact Hkf|]. split.
    + intros n q Hq. rewrite Houtf by (intros Hc; apply Hq; now right).
      apply Hout1. intros ->. apply Hq. now left.
    + intros q [<-|Hq]; [|auto].
      exists InVegs, o. split; [exact Hget|]. split; [exact Ho|].
      intros name Hname. rewrite Houtf by exact Hnotin.
      rewrite Hval1 by exact Hname. f_equal.
      destruct Hok as (_ & HF & _).
      eapply episode_value_kept; eauto.
Qed.

(** X7. The order in which the loop visits the points to fill does not
    matter: on grids of one shape, with valid contributing types, a positive
    [minimum_points] and the per-tile variables ready, two loops over the
    same points in any two orders both return, and their outputs hold the
    same value of every variable at every position. *)
Theorem point_order_does_not_matter :
  forall (view : bool) (InputVegetation OutputVegetation : arr3 num)
         (Conf : MappingConf) (PerTileVariables : list string) (s : state)
         (points points' : list (nat * nat * nat)),
    same_shape3 InputVegetation OutputVegetation = true ->
    1 <= minimum_points Conf ->
    (forall OutVeg, (OutVeg < nveg OutputVegetation)%nat ->
       exists InVegs,
         dict_get (vegetation_map Conf) (Z.of_nat OutVeg) = Ok InVegs /\
         Forall (valid_index (nveg InputVegetation)) InVegs) ->
    tiles_ready view OutputVegetation PerTileVariables s ->
    NoDup points -> NoDup points' ->
    (forall p, In p points <-> In p points') ->
    Forall (fill_point InputVegetation OutputVegetation) points ->
    exists final final',
      for_each (synthesise_point view InputVegetation Conf PerTileVariables)
               points (s, unmarked_plane OutputVegetation)
        = Ok (final, unmarked_plane OutputVegetation) /\
      for_each (synthesise_point view InputVegetation Conf PerTileVariables)
               points' (s, unmarked_plane OutputVegetation)
        = Ok (final', unmarked_plane OutputVegetation) /\
      forall name q, output_at final name q = output_at final' name q.
Proof.
  intros view IV OV Conf PerTile s points points' Hs Hmin Hmap Hready
         Hnd Hnd' Hsame Hfill.
  assert (Hfill' : Forall (fill_point IV OV) points').
  { rewrite Forall_forall in *. intros p Hp. apply Hfill, Hsame, Hp. }
  destruct (episodes_values view IV OV Conf PerTile s Hs Hmin Hmap Hready
              points s Hnd Hfill Hready (sources_kept_refl IV s))
    as (final & Hrun & _ & _ & Hout & Hval).
  destruct (episodes_values view IV OV Conf PerTile s Hs Hmin Hmap Hready
              points' s Hnd' Hfill' Hready (sources_kept_refl IV s))
    as (final' & Hrun' & _ & _ & Hout' & Hval').
  exists final, final'. split; [exact Hrun|]. split; [exact Hrun'|].
  intros name q.
  destruct (in_dec string_dec name PerTile) as [Hname|Hname].
  - destruct (in_dec (fun a b : nat * nat * nat =>
                        ltac:(decide equality; try apply Nat.eq_dec;
                              decide equality; apply Nat.eq_dec))
                     q points) as [Hq|Hq].
    + destruct (Hval q Hq) as (InVegs & o & Hget & Ho & Hv).
      destruct (Hval' q (proj1 (Hsame q) Hq)) as (InVegs' & o' & Hget' & Ho' & Hv').
      rewrite Hv, Hv' by exact Hname.
      assert (InVegs' = InVegs) by congruence.
      assert (o' = o) by congruence. subst. reflexivity.
    + rewrite Hout by exact Hq.
      rewrite Hout' by (intros Hc; apply Hq, Hsame, Hc). reflexivity.
  - unfold output_at.
    pose proof (episodes_frame view IV Conf PerTile name points _ _ Hname Hrun)
      as E.
    pose proof (episodes_frame view IV Conf PerTile name points' _ _ Hname Hrun')
      as E'.
    cbn [fst] in E, E'. rewrite E, E'. reflexivity.
Qed.

(** ** Whole runs *)

Lemma NoDup_flat_map {A B} (f : A -> list B) (l : list A) :
  NoDup l -> (forall a, In a l -> NoDup (f a)) ->
  (forall a a' b, In a l -> In a' l -> In b (f a) -> In b (f a') -> a = a') ->
  NoDup (flat_map f l).
Proof.
  induction 1 as [|a l Hnotin Hnd IH]; intros Hf Hdis; cbn [flat_map].
  - constructor.
  - apply NoDup_app.
    + apply Hf. now left.
    + apply IH.
      * intros a' Ha'. apply Hf. now right.
      * intros a1 a2 b H1 H2. apply Hdis; now right.
    + intros b Hb Hb'. apply in_flat_map in Hb' as (a' & Ha' & Hb').
      assert (a = a') by (apply (Hdis a a' b); auto; [now left | now right]).
      subst. contradiction.
Qed.

Lemma NoDup_map_inj {A B} (f : A -> B) (l : list A) :
  (forall x y, f x = f y -> x = y) -> NoDup l -> NoDup (map f l).
Proof.
  intros Hinj. induction 1 as [|a l Hnotin Hnd IH]; cbn [map]; constructor; auto.
  intros Hin. apply in_map_iff in Hin as (x & Hx & Hin).
  apply Hinj in Hx. subst. contradiction.
Qed.

Lemma NoDup_cells2 r c : NoDup (cells2 r c).
Proof.
  unfold cells2. apply NoDup_flat_map.
  - apply seq_NoDup.
  - intros i _. apply NoDup_map_inj; [|apply seq_NoDup].
    intros x y [= ->]. reflexivity.
  - intros i i' [a b] _ _ H1 H2.
    apply in_map_iff in H1 as (x & [= <- <-] & _).
    apply in_map_iff in H2 as (y & [= <- _] & _). reflexivity.
Qed.

Lemma NoDup_cells3 n r c : NoDup (cells3 n r c).
Proof.
  unfold cells3. apply NoDup_flat_map.
  - apply seq_NoDup.
  - intros v _. apply NoDup_map_inj; [|apply NoDup_cells2].
    intros [a b] [a' b'] [= -> ->]. reflexivity.
  - intros v v' [[a b] c'] _ _ H1 H2.
    apply in_map_iff in H1 as (x & [= <- _ _] & _).
    apply in_map_iff in H2 as (y & [= <- _ _] & _). reflexivity.
Qed.

Lemma NoDup_ndenumerate shape Mask : NoDup (ndenumerate shape Mask).
Proof.
  destruct shape as [[n r] c]. unfold ndenumerate.
  apply NoDup_filter, NoDup_cells3.
Qed.

Lemma le0_not_gt0 x : le0 x = true -> gt0 x = false.
Proof.
  intros H. destruct (gt0 x) eqn:Hg; [|reflexivity].
  apply gt0_not_le0 in Hg. congruence.
Qed.

Lemma value_at_output (out : Dataset) name v i j s :
  Output s = out ->
  value_at (Ok out) name v i j = output_at s name (v, i, j).
Proof.
  intros <-. unfold value_at, output_at. cbn [fst snd].
  now destruct (data_vars (Output s) name).
Qed.

(** A finished loop of variable steps, each of which binds an array
    satisfying [QO]: what the output then holds. *)
Lemma outputs_loop view (QO : arr3 num -> Prop)
    (body : state -> string -> result state) :
  (forall s name s', body s name = Ok s' ->
     exists D, s' = stored view s name D /\ QO D) ->
  forall l s s', for_each body l s = Ok s' ->
    (view = false -> Input s' = Input s) /\
    (forall name, In name l ->
       exists Out, data_vars (Output s') name = Some Out /\ QO Out) /\
    (forall n, (exists Out, data_vars (Output s) n = Some Out /\ QO Out) ->
       exists Out', data_vars (Output s') n = Some Out' /\ QO Out').
Proof.
  intros Hbody. induction l as [|name l IH]; intros s s' Hrun;
    cbn [for_each] in Hrun.
  - inversion Hrun; subst s'. repeat split; auto. intros name [].
  - bind_inv Hrun as s1 Hs1.
    destruct (Hbody s name s1 Hs1) as (D & -> & HD).
    destruct (IH _ s' Hrun) as (Hin & Hall & Hkeep).
    assert (Hkeep1 : forall n,
               (exists Out, data_vars (Output s) n = Some Out /\ QO Out) ->
               exists Out', data_vars (Output (stored view s name D)) n = Some Out'
                            /\ QO Out').
    { intros n (Out & HO & HQ). unfold stored. cbn [Output data_vars].
      destruct (String.eqb_spec n name) as [->|Hne].
      - exists D. now rewrite var_set_same.
      - exists Out. now rewrite var_set_other. }
    split; [|split].
    + intros Hv. rewrite (Hin Hv). unfold stored. cbn [Input]. now rewrite Hv.
    + intros n [<-|Hn]; [|auto].
      apply Hkeep. exists D. split; [|exact HD].
      unfold stored. cbn [Output data_vars]. apply var_set_same.
    + intros n Hn. apply Hkeep, Hkeep1, Hn.
Qed.

Lemma per_cell_variable_zero view n (IV : arr3 num) Fill Empty s name s' :
  per_cell_variable view n IV Fill Empty s name = Ok s' ->
  exists OutData,
    s' = stored view s name OutData /\
    forall v i j, at3 Empty v i j = true -> at3 OutData v i j = zero.
Proof.
  unfold per_cell_variable, getitem, required. intros H.
  destruct (Input s name) as [Var|] eqn:HVar; [|discriminate]. cbn [bind] in H.
  bind_inv H as Product HP. bind_inv H as AWM HA.
  bind_inv H as D1 HD1. bind_inv H as D2 HD2.
  unfold masked_fill in HD2.
  destruct (same_shape3 D1 Empty); [|discriminate].
  inversion HD2; subst D2; clear HD2.
  unfold store in H. bind_inv H as out Hout.
  apply ds_assign_ok in Hout as [Hshape ->]. inversion H; subst s'; clear H.
  eexists. split; [reflexivity|].
  cbn [at3]. intros v i j ->. reflexivity.
Qed.

Lemma per_tile_variable_zero view Empty s name s' :
  per_tile_variable view Empty s name = Ok s' ->
  exists OutData,
    s' = stored view s name OutData /\
    forall v i j, at3 Empty v i j = true -> at3 OutData v i j = zero.
Proof.
  unfold per_tile_variable, getitem, required. intros H.
  destruct (Input s name) as [Var|] eqn:HVar; [|discriminate]. cbn [bind] in H.
  bind_inv H as D HD. unfold masked_fill in HD.
  destruct (same_shape3 Var Empty); [|discriminate].
  inversion HD; subst D; clear HD.
  unfold store in H. bind_inv H as out Hout.
  apply ds_assign_ok in Hout as [Hshape ->]. inversion H; subst s'; clear H.
  eexists. split; [reflexivity|].
  cbn [at3]. intros v i j ->. reflexivity.
Qed.

(** A well-formed run, phase by phase. *)
Lemma run_phases view NV Inp (IV OV : arr3 num) FillAll Config :
  well_formed_run NV Inp IV OV Config = true ->
  exists PerCell PerTile Fill Empty s1 s2 final,
    yaml_per_cell Config = Some PerCell /\
    yaml_per_tile Config = Some PerTile /\
    (forall v i j, inside OV v i j ->
       at3 Fill v i j = to_fill FillAll IV OV v i j /\
       at3 Empty v i j = to_empty FillAll OV v i j) /\
    for_each (per_cell_variable view (nveg OV) IV Fill Empty) PerCell
             (mkState Inp (start_dataset OV (get_default NV OV))) = Ok s1 /\
    for_each (per_tile_variable view Empty) PerTile s1 = Ok s2 /\
    variables_done view NV Inp IV OV FillAll Config = Ok s2 /\
    (forall name, In name (PerCell ++ PerTile) ->
       bound_ok view (untouched_kept Inp OV Fill Empty) s2 name) /\
    for_each (synthesise_point view IV (prepare_mapping (nveg OV) Config) PerTile)
             (ndenumerate (shape3 OV) (map3 negb Fill))
             (s2, unmarked_plane OV) = Ok (final, unmarked_plane OV) /\
    remap_vegetation view NV Inp IV OV FillAll Config = Ok (Output final) /\
    outputs_kept_outside (ndenumerate (shape3 OV) (map3 negb Fill)) s2 final /\
    (forall v i j, In (v, i, j) (ndenumerate (shape3 OV) (map3 negb Fill)) <->
                   inside OV v i j /\ at3 Fill v i j = true) /\
    (forall p, In p (ndenumerate (shape3 OV) (map3 negb Fill)) ->
       exists InVegs o,
         dict_get (vegetation_map (prepare_mapping (nveg OV) Config))
                  (Z.of_nat (fst (fst p))) = Ok InVegs /\
         episode_search IV (prepare_mapping (nveg OV) Config)
                        (unmarked_plane OV) p = Ok o /\
         forall name, In name PerTile ->
           output_at final name p
           = Some (episode_value (prepare_mapping (nveg OV) Config) s2
                                 InVegs o name)) /\
    tiles_policy FillAll IV OV = Ok (Fill, Empty) /\
    same_shape3 Fill OV = true /\ same_shape3 Empty OV = true.
Proof.
  intros Hwf.
  destruct (well_formed_run_true _ _ _ _ _ Hwf)
    as (PerCell & PerTile & G & Hpc & Hpt & -> & HG & HS & Hpos & Hin & Hmap & Hmin).
  destruct (tiles_policy_same_shape FillAll IV OV HS)
    as (Fill & Empty & Hpol & HF & HE & Hat).
  destruct (variable_phase view (untouched_kept Inp OV Fill Empty)
              IV OV Fill Empty PerCell PerTile
              (mkState Inp (start_dataset OV G)))
    as (s1 & s2 & Hrun1 & Hrun2 & Hco2 & Hall & _); auto.
  { intros name Hname. destruct (Hin name Hname) as (V & HV & HVs).
    exists V. split; [exact HV|]. split; [exact HVs|]. exists V. auto. }
  { intros name V [HVs _]. exact HVs. }
  { intros name V D (HVs & V0 & HV0 & Hag) HDs HD.
    split; [exact HDs|]. exists V0. split; [exact HV0|].
    intros v i j Hp HFl HEm. rewrite (HD v i j Hp), HEm, HFl. auto. }
  { intros name V D (HVs & V0 & HV0 & Hag) HDs HD.
    split; [exact HDs|]. exists V0. split; [exact HV0|].
    intros v i j Hp HFl HEm. rewrite (HD v i j), HEm. auto. }
  set (Conf := prepare_mapping (nveg OV) Config) in *.
  set (points := ndenumerate (shape3 OV) (map3 negb Fill)).
  assert (Hready : tiles_ready view OV PerTile s2).
  { split; auto. intros name Hname.
    destruct (Hall name) as (V & Out & H1 & [H2 _] & H3 & [H4 _] & H5).
    { apply in_or_app. now right. }
    exists V, Out. repeat split; auto. }
  assert (Hpts : forall v i j, In (v, i, j) points <->
                               inside OV v i j /\ at3 Fill v i j = true).
  { intros v i j. unfold points. rewrite in_ndenumerate. cbn [map3 at3].
    rewrite negb_false_iff. reflexivity. }
  assert (Hfill : Forall (fill_point IV OV) points).
  { apply Forall_forall. intros [[v i] j] Hp. apply Hpts in Hp as [Hp Hm].
    split; [exact Hp|]. cbn [fst snd].
    destruct (Hat v i j Hp) as [HFill _]. rewrite HFill in Hm.
    now apply andb_true_iff in Hm as [Hle _]. }
  destruct (episodes_values view IV OV Conf PerTile s2 HS Hmin Hmap Hready
              points s2 (NoDup_ndenumerate _ _) Hfill Hready
              (sources_kept_refl IV s2))
    as (final & Hfinal & _ & _ & Hout & Hval).
  exists PerCell, PerTile, Fill, Empty, s1, s2, final.
  split; [exact Hpc|]. split; [exact Hpt|].
  split; [exact Hat|]. split; [exact Hrun1|]. split; [exact Hrun2|].
  split.
  { unfold variables_done. cbn [prepare_mapping per_cell per_tile].
    rewrite Hpc, Hpt. cbn [required bind]. rewrite Hpol. cbn [bind].
    cbn [get_default] in Hrun1. rewrite Hrun1. cbn [bind]. exact Hrun2. }
  split; [exact Hall|]. split; [exact Hfinal|].
  split.
  { rewrite (remap_vegetation_unfold view G Inp IV OV FillAll Config PerCell PerTile)
      by auto.
    unfold synthesis. rewrite Hpol. cbn [bind].
    cbn [get_default] in Hrun1. rewrite Hrun1. cbn [bind].
    rewrite Hrun2. cbn [bind].
    rewrite masked_array_mask_same.
    2:{ apply same_shape3_true in HF as (? & ? & ?).
        apply same_shape3_true; cbn [map3 nveg nlat nlon]; auto. }
    cbn [bind]. fold Conf. fold points.
    change (full2 (nlat OV) (nlon OV) false) with (unmarked_plane OV).
    rewrite Hfinal. reflexivity. }
  split; [exact Hout|]. split; [exact Hpts|]. split; [exact Hval|].
  split; [exact Hpol|]. split; [exact HF | exact HE].
Qed.

Lemma configured_lists Config PerCell PerTile :
  yaml_per_cell Config = Some PerCell -> yaml_per_tile Config = Some PerTile ->
  configured Config = PerCell ++ PerTile.
Proof. unfold configured. now intros -> ->. Qed.

(** X8. In a well-formed run the value every per-tile variable ends with
    on a tile to fill is the value of that tile's own episode (zero below
    [minimum_points] points, else the pooled mean), searched from the
    unmarked mask and computed from the data as the two variable loops left
    them: no earlier or later episode changes it. When [to_numpy] copies,
    those data are the input dataset itself. *)
Theorem filled_tiles_hold_their_episode_value :
  forall (view : bool) (NewVegetation : option (arr3 num))
         (InputDataset : variables) (InputVegetation OutputVegetation : arr3 num)
         (FillAll : bool) (Config : yaml),
    well_formed_run NewVegetation InputDataset InputVegetation OutputVegetation
                    Config = true ->
    exists s out,
      variables_done view NewVegetation InputDataset InputVegetation
                     OutputVegetation FillAll Config = Ok s /\
      (view = false -> Input s = InputDataset) /\
      remap_vegetation view NewVegetation InputDataset InputVegetation
                       OutputVegetation FillAll Config = Ok out /\
      forall v i j,
        inside OutputVegetation v i j ->
        to_fill FillAll InputVegetation OutputVegetation v i j = true ->
        exists InVegs o,
          dict_get (vegetation_map (prepare_mapping (nveg OutputVegetation) Config))
                   (Z.of_nat v) = Ok InVegs /\
          episode_search InputVegetation
                         (prepare_mapping (nveg OutputVegetation) Config)
                         (unmarked_plane OutputVegetation) (v, i, j) = Ok o /\
          forall name, In name (get_default (yaml_per_tile Config) []) ->
            value_at (Ok out) name v i j
            = Some (episode_value (prepare_mapping (nveg OutputVegetation) Config)
                                  s InVegs o name).
Proof.
  intros view NV Inp IV OV FillAll Config Hwf.
  destruct (run_phases view NV Inp IV OV FillAll Config Hwf)
    as (PerCell & PerTile & Fill & Empty & s1 & s2 & final & Hpc & Hpt & Hat &
        Hrun1 & Hrun2 & Hdone & _ & _ & Hrun & _ & Hpts & Hval & _).
  exists s2, (Output final). split; [exact Hdone|]. split; [|split; [exact Hrun|]].
  - intros Hv.
    destruct (outputs_loop view (fun _ => True) _
                (fun s name s' H =>
                   match per_cell_variable_zero view _ IV Fill Empty s name s' H with
                   | ex_intro _ D (conj E _) => ex_intro _ D (conj E I)
                   end) _ _ _ Hrun1) as (E1 & _).
    destruct (outputs_loop view (fun _ => True) _
                (fun s name s' H =>
                   match per_tile_variable_zero view Empty s name s' H with
                   | ex_intro _ D (conj E _) => ex_intro _ D (conj E I)
                   end) _ _ _ Hrun2) as (E2 & _).
    rewrite (E2 Hv), (E1 Hv). reflexivity.
  - intros v i j Hp Hfill.
    assert (Hin : In (v, i, j) (ndenumerate (shape3 OV) (map3 negb Fill))).
    { apply Hpts. split; [exact Hp|]. now rewrite (proj1 (Hat v i j Hp)). }
    destruct (Hval _ Hin) as (InVegs & o & Hget & Ho & Hv).
    exists InVegs, o. split; [exact Hget|]. split; [exact Ho|].
    rewrite Hpt. cbn [get_default]. intros name Hname.
    rewrite (value_at_output (Output final) name v i j final eq_refl).
    apply Hv, Hname.
Qed.

(** X9. In a well-formed run without fill-all, every configured variable
    of the returned dataset holds exactly zero on every tile whose output
    fraction is [<= 0.0]. *)
Theorem emptied_tiles_end_zero :
  forall (view : bool) (NewVegetation : option (arr3 num))
         (InputDataset : variables) (InputVegetation OutputVegetation : arr3 num)
         (Config : yaml),
    well_formed_run NewVegetation InputDataset InputVegetation OutputVegetation
                    Config = true ->
    exists out,
      remap_vegetation view NewVegetation InputDataset InputVegetation
                       OutputVegetation false Config = Ok out /\
      forall name v i j,
        In name (configured Config) ->
        inside OutputVegetation v i j ->
        le0 (at3 OutputVegetation v i j) = true ->
        value_at (Ok out) name v i j = Some zero.
Proof.
  intros view NV Inp IV OV Config Hwf.
  destruct (run_phases view NV Inp IV OV false Config Hwf)
    as (PerCell & PerTile & Fill & Empty & s1 & s2 & final & Hpc & Hpt & Hat &
        Hrun1 & Hrun2 & _ & _ & _ & Hrun & Hout & Hpts & _).
  exists (Output final). split; [exact Hrun|].
  intros name v i j Hname Hp Hle.
  rewrite (configured_lists Config PerCell PerTile Hpc Hpt) in Hname.
  set (QO := fun D : arr3 num =>
               forall v i j, at3 Empty v i j = true -> at3 D v i j = zero).
  destruct (outputs_loop view QO _
              (per_cell_variable_zero view (nveg OV) IV Fill Empty) _ _ _ Hrun1)
    as (_ & Hall1 & _).
  destruct (outputs_loop view QO _ (per_tile_variable_zero view Empty) _ _ _ Hrun2)
    as (_ & Hall2 & Hkeep2).
  assert (Hs2 : exists Out, data_vars (Output s2) name = Some Out /\ QO Out).
  { apply in_app_or in Hname as [Hc|Ht]; auto. }
  destruct Hs2 as (Out & HOut & HQ).
  destruct (Hat v i j Hp) as [HFill HEmpty].
  unfold to_fill, to_empty in *. cbn [negb orb andb] in *.
  rewrite (value_at_output (Output final) name v i j final eq_refl).
  rewrite Hout.
  - unfold output_at. rewrite HOut. cbn [fst snd]. f_equal. apply HQ. congruence.
  - intros Hin. apply Hpts in Hin as [_ Hf]. rewrite HFill in Hf.
    rewrite (le0_not_gt0 _ Hle), andb_false_r in Hf. discriminate.
Qed.

(** X10. In a well-formed run every configured variable of the returned
    dataset keeps the value of the input variable of its name on every tile
    the run neither fills nor empties. *)
Theorem untouched_tiles_keep_input :
  forall (view : bool) (NewVegetation : option (arr3 num))
         (InputDataset : variables) (InputVegetation OutputVegetation : arr3 num)
         (FillAll : bool) (Config : yaml),
    well_formed_run NewVegetation InputDataset InputVegetation OutputVegetation
                    Config = true ->
    exists out,
      remap_vegetation view NewVegetation InputDataset InputVegetation
                       OutputVegetation FillAll Config = Ok out /\
      forall name, In name (configured Config) ->
        exists Var,
          InputDataset name = Some Var /\
          forall v i j,
            inside OutputVegetation v i j ->
            to_fill FillAll InputVegetation OutputVegetation v i j = false ->
            to_empty FillAll OutputVegetation v i j = false ->
            value_at (Ok out) name v i j = Some (at3 Var v i j).
Proof.
  intros view NV Inp IV OV FillAll Config Hwf.
  destruct (run_phases view NV Inp IV OV FillAll Config Hwf)
    as (PerCell & PerTile & Fill & Empty & s1 & s2 & final & Hpc & Hpt & Hat &
        _ & _ & _ & Hall & _ & Hrun & Hout & Hpts & _).
  exists (Output final). split; [exact Hrun|].
  intros name Hname.
  rewrite (configured_lists Config PerCell PerTile Hpc Hpt) in Hname.
  destruct (Hall name Hname)
    as (V & Out & _ & _ & HOut & (HOs & V0 & HV0 & Hag) & _).
  exists V0. split; [exact HV0|].
  intros v i j Hp Hfill Hempty.
  destruct (Hat v i j Hp) as [HFill HEmpty].
  rewrite (value_at_output (Output final) name v i j final eq_refl).
  rewrite Hout.
  - unfold output_at. rewrite HOut. cbn [fst snd]. f_equal.
    apply Hag; congruence.
  - intros Hin. apply Hpts in Hin as [_ Hf]. congruence.
Qed.

(** ** The prepared configuration *)

Lemma dict_get_set d k v k' :
  dict_get (dict_set d k v) k' = if k =? k' then Ok v else dict_get d k'.
Proof.
  induction d as [|[k0 v0] d IH]; cbn [dict_set dict_get].
  - reflexivity.
  - destruct (Z.eqb_spec k0 k) as [->|Hne]; cbn [dict_get].
    + destruct (Z.eqb_spec k k'); reflexivity.
    + rewrite IH. destruct (Z.eqb_spec k0 k') as [->|Hne'].
      * destruct (Z.eqb_spec k k'); [congruence|reflexivity].
      * reflexivity.
Qed.

Lemma find_app {A} (f : A -> bool) (l1 l2 : list A) :
  find f (l1 ++ l2) = match find f l1 with Some x => Some x | None => find f l2 end.
Proof.
  induction l1 as [|a l1 IH]; cbn [app find]; [reflexivity|].
  destruct (f a); auto.
Qed.

Lemma identity_map_get start n k :
  dict_get (map (fun i => (Z.of_nat i, [Z.of_nat i])) (seq start n)) k
  = if (Z.of_nat start <=? k) && (k <? Z.of_nat (start + n)) then Ok [k]
    else Raise KeyError.
Proof.
  revert start. induction n as [|n IH]; intros start; cbn [seq map dict_get].
  - destruct ((Z.of_nat start <=? k) && (k <? Z.of_nat (start + 0))) eqn:E;
      [|reflexivity].
    apply andb_true_iff in E as [E1 E2].
    apply Z.leb_le in E1. apply Z.ltb_lt in E2. lia.
  - destruct (Z.eqb_spec (Z.of_nat start) k) as [<-|Hne].
    + replace (Z.of_nat start <=? Z.of_nat start) with true
        by (symmetry; apply Z.leb_le; lia).
      replace (Z.of_nat start <? Z.of_nat (start + S n)) with true
        by (symmetry; apply Z.ltb_lt; lia).
      reflexivity.
    + rewrite IH.
      replace (Z.of_nat (S start) <=? k) with (Z.of_nat start <=? k).
      2:{ destruct (Z.leb_spec (Z.of_nat start) k);
          symmetry; [apply Z.leb_le | apply Z.leb_gt]; lia. }
      replace (S start + n)%nat with (start + S n)%nat by lia.
      reflexivity.
Qed.

Lemma overrides_get items : forall d k,
  dict_get (fold_left (fun d item =>
                         dict_set d (fst item - 1)
                                  (map (fun InVeg => InVeg - 1) (snd item)))
                      items d) k
  = match find (fun item => fst item - 1 =? k) (rev items) with
    | Some item => Ok (map (fun InVeg => InVeg - 1) (snd item))
    | None => dict_get d k
    end.
Proof.
  induction items as [|item items IH]; intros d k; cbn [fold_left rev].
  - reflexivity.
  - rewrite IH, find_app. cbn [find].
    destruct (find _ (rev items)); [reflexivity|].
    rewrite dict_get_set. now destruct (fst item - 1 =? k).
Qed.

(** X11. Looking up output type [k] in the prepared vegetation map gives:
    the input types of the last YAML entry for type [k + 1], each shifted
    from 1-based to 0-based; without such an entry, the type itself when it
    is one of the [nVeg] types of the grid; and KeyError otherwise. *)
Theorem vegetation_map_lookup :
  forall (nVeg : nat) (Config : yaml) (k : Z),
    dict_get (vegetation_map (prepare_mapping nVeg Config)) k
    = contributing nVeg Config k.
Proof.
  intros nVeg Config k. unfold prepare_mapping, contributing.
  cbn [vegetation_map].
  destruct (yaml_vegetation_map Config) as [items|]; cbn [get_default rev find].
  - rewrite overrides_get. destruct (find _ (rev items)); [reflexivity|].
    apply identity_map_get.
  - apply identity_map_get.
Qed.

(** ** A configured variable the input does not have *)

Lemma loop_missing view (OV : arr3 num) (all : list string) (name : string)
    (body : state -> string -> result state) :
  (forall s n V, coords (Output s) = shape3 OV -> Input s n = Some V ->
                 shape3 V = shape3 OV ->
                 exists D, body s n = Ok (stored view s n D) /\
                           shape3 D = shape3 OV) ->
  (forall s, Input s name = None -> body s name = Raise KeyError) ->
  forall l s, incl l all -> missing_only OV all name s ->
    (In name l -> for_each body l s = Raise KeyError) /\
    (~ In name l ->
     exists s', for_each body l s = Ok s' /\ missing_only OV all name s').
Proof.
  intros Hok Hmiss. induction l as [|n l IH]; intros s Hincl Hinv;
    cbn [for_each].
  - split; [intros []|]. intros _. exists s. auto.
  - destruct Hinv as (Hco & Hnone & Hothers).
    destruct (String.eqb_spec n name) as [->|Hne].
    + split.
      * intros _. rewrite (Hmiss s Hnone). reflexivity.
      * intros Hnot. exfalso. apply Hnot. now left.
    + destruct (Hothers n) as (V & HV & HVs); auto.
      { apply Hincl. now left. }
      destruct (Hok s n V Hco HV HVs) as (D & -> & HDs). cbn [bind].
      assert (Hinv1 : missing_only OV all name (stored view s n D)).
      { unfold stored. split; [exact Hco|]. cbn [Input]. split.
        - destruct view; [|exact Hnone].
          rewrite var_set_other by congruence. exact Hnone.
        - intros m Hm Hmn. destruct view; [|auto].
          destruct (String.eqb_spec m n) as [->|Hmn'].
          + rewrite var_set_same. eauto.
          + rewrite var_set_other by exact Hmn'. auto. }
      destruct (IH (stored view s n D)) as [Hraise Hpass]; auto.
      { intros m Hm. apply Hincl. now right. }
      split.
      * intros [E|Hin]; [congruence|auto].
      * intros Hnot. apply Hpass. intros Hin. apply Hnot. now right.
Qed.

(** X12. A configured variable that the input dataset does not have makes
    the run raise KeyError: with both lists configured, fraction grids of
    one shape with at least one vegetation type and every other configured
    variable on the grid, nothing is returned. *)
Theorem missing_variable_raises_key_error :
  forall (view : bool) (Fractions : arr3 num) (InputDataset : variables)
         (InputVegetation OutputVegetation : arr3 num) (FillAll : bool)
         (Config : yaml) (PerCell PerTile : list string) (name : string),
    yaml_per_cell Config = Some PerCell ->
    yaml_per_tile Config = Some PerTile ->
    shape3 Fractions = shape3 OutputVegetation ->
    same_shape3 InputVegetation OutputVegetation = true ->
    (0 < nveg OutputVegetation)%nat ->
    In name (PerCell ++ PerTile) ->
    InputDataset name = None ->
    (forall n, In n (PerCell ++ PerTile) -> n <> name ->
       exists V, InputDataset n = Some V /\
                 shape3 V = shape3 OutputVegetation) ->
    remap_vegetation view (Some Fractions) InputDataset InputVegetation
                     OutputVegetation FillAll Config = Raise KeyError.
Proof.
  intros view G Inp IV OV FillAll Config PerCell PerTile name
         Hpc Hpt HG HS Hpos Hname Hnone Hothers.
  rewrite (remap_vegetation_unfold view G Inp IV OV FillAll Config PerCell PerTile)
    by auto.
  unfold synthesis.
  destruct (tiles_policy_same_shape FillAll IV OV HS)
    as (Fill & Empty & -> & HF & HE & _).
  cbn [bind].
  assert (Hinv0 : missing_only OV (PerCell ++ PerTile) name
                    (mkState Inp (start_dataset OV G))).
  { split; [reflexivity|]. split; [exact Hnone|]. exact Hothers. }
  destruct (loop_missing view OV (PerCell ++ PerTile) name
              (per_cell_variable view (nveg OV) IV Fill Empty))
    with (l := PerCell) (s := mkState Inp (start_dataset OV G))
    as [Hraise Hpass]; auto.
  { intros s n V Hco HV HVs.
    destruct (per_cell_variable_ok view IV OV Fill Empty s n V HF HE HS
                (proj2 (same_shape3_shape V OV) HVs) Hpos Hco HV)
      as (D & HD & HDs & _).
    exists D. split; [exact HD | exact HDs]. }
  { intros s Hn. unfold per_cell_variable, getitem. now rewrite Hn. }
  { apply incl_appl, incl_refl. }
  destruct (in_dec string_dec name PerCell) as [Hc|Hc].
  - rewrite (Hraise Hc). reflexivity.
  - destruct (Hpass Hc) as (s1 & -> & Hinv1). cbn [bind].
    destruct (loop_missing view OV (PerCell ++ PerTile) name
                (per_tile_variable view Empty))
      with (l := PerTile) (s := s1) as [Hraise2 _]; auto.
    { intros s n V Hco HV HVs.
      destruct (per_tile_variable_ok view OV Empty s n V HE HVs Hco HV)
        as (D & HD & HDs & _).
      exists D. split; [exact HD | exact HDs]. }
    { intros s Hn. unfold per_tile_variable, getitem. now rewrite Hn. }
    { apply incl_appr, incl_refl. }
    rewrite Hraise2; [reflexivity|].
    apply in_app_or in Hname as [Hin|Hin]; [contradiction|exact Hin].
Qed.

(** ** Variables configured once *)

(** A loop of variable steps over distinct names, none of them processed
    before: every step reads the input dataset's own array. *)
Lemma fresh_loop view (Inp : variables) (OV : arr3 num)
    (QO : string -> arr3 num -> Prop)
    (body : state -> string -> result state) :
  (forall s name V,
      coords (Output s) = shape3 OV -> Input s name = Some V ->
      Inp name = Some V -> shape3 V = shape3 OV ->
      exists D, body s name = Ok (stored view s name D) /\ QO name D) ->
  forall l s,
    NoDup l -> coords (Output s) = shape3 OV ->
    (forall n, In n l ->
       exists V, Input s n = Some V /\ Inp n = Some V /\ shape3 V = shape3 OV) ->
    exists s',
      for_each body l s = Ok s' /\
      (forall n, In n l ->
         exists Out, data_vars (Output s') n = Some Out /\ QO n Out) /\
      (forall n, ~ In n l ->
         data_vars (Output s') n = data_vars (Output s) n /\
         Input s' n = Input s n).
Proof.
  intros Hbody. induction l as [|name l IH]; intros s Hnd Hco Hin;
    cbn [for_each].
  - exists s. split; [reflexivity|]. split; [intros n []|auto].
  - inversion Hnd as [|? ? Hnotin Hnd']; subst.
    destruct (Hin name) as (V & HV & HV0 & HVs); [now left|].
    destruct (Hbody s name V Hco HV HV0 HVs) as (D & -> & HD). cbn [bind].
    set (s1 := stored view s name D).
    assert (Hother : forall n, n <> name ->
              data_vars (Output s1) n = data_vars (Output s) n /\
              Input s1 n = Input s n).
    { intros n Hne. unfold s1, stored. cbn [Output Input data_vars].
      rewrite var_set_other by exact Hne.
      destruct view; [rewrite var_set_other by exact Hne|]; auto. }
    destruct (IH s1 Hnd') as (s' & Hrun & Hall & Hframe).
    { exact Hco. }
    { intros n Hn. destruct (Hother n) as [_ E]; [congruence|].
      rewrite E. apply Hin. now right. }
    exists s'. split; [exact Hrun|]. split.
    + intros n [<-|Hn]; [|auto].
      destruct (Hframe name Hnotin) as [E _]. rewrite E.
      exists D. split; [|exact HD].
      unfold s1, stored. cbn [Output data_vars]. apply var_set_same.
    + intros n Hn.
      assert (Hne : n <> name) by (intros ->; apply Hn; now left).
      destruct (Hframe n) as [E1 E2]; [intros Hc; apply Hn; now right|].
      destruct (Hother n Hne) as [E3 E4]. split; congruence.
Qed.

(** The per-cell variables of a well-formed run whose variables are each
    configured once. *)
Lemma run_per_cell_values view NV Inp (IV OV : arr3 num) FillAll Config :
  well_formed_run NV Inp IV OV Config = true ->
  NoDup (configured Config) ->
  exists out,
    remap_vegetation view NV Inp IV OV FillAll Config = Ok out /\
    forall name, In name (get_default (yaml_per_cell Config) []) ->
      exists Var,
        Inp name = Some Var /\
        forall v i j, inside OV v i j ->
          value_at (Ok out) name v i j
          = Some (if to_empty FillAll OV v i j then zero
                  else if to_fill FillAll IV OV v i j
                       then area_weighted_sum Var IV i j
                       else at3 Var v i j).
Proof.
  intros Hwf Hnd.
  destruct (run_phases view NV Inp IV OV FillAll Config Hwf)
    as (PerCell & PerTile & Fill & Empty & s1 & s2 & final & Hpc & Hpt & Hat &
        Hrun1 & Hrun2 & _ & _ & Hfinal & Hrun & _ & _ & _ & Hpol & HF & HE).
  destruct (well_formed_run_true _ _ _ _ _ Hwf)
    as (PerCell' & PerTile' & G & Hpc' & Hpt' & -> & HG & HS & Hpos & Hin & _).
  assert (PerCell' = PerCell) by congruence.
  assert (PerTile' = PerTile) by congruence. subst PerCell' PerTile'.
  rewrite (configured_lists Config PerCell PerTile Hpc Hpt) in Hnd.
  exists (Output final). split; [exact Hrun|].
  rewrite Hpc. cbn [get_default]. intros name Hname.
  cbn [get_default] in Hrun1.
  destruct (fresh_loop view Inp OV
              (fun n D => exists V0, Inp n = Some V0 /\
                                     per_cell_result IV OV Fill Empty V0 D)
              (per_cell_variable view (nveg OV) IV Fill Empty))
    with (l := PerCell) (s := mkState Inp (start_dataset OV G))
    as (s1' & Hrun1' & Hall1 & _).
  { intros s n V Hco HV HV0 HVs.
    destruct (per_cell_variable_ok view IV OV Fill Empty s n V HF HE HS
                (proj2 (same_shape3_shape V OV) HVs) Hpos Hco HV)
      as (D & HD & HDs & HDat).
    exists D. split; [exact HD|]. exists V. split; [exact HV0|].
    split; [exact HDs | exact HDat]. }
  { eapply NoDup_app_remove_r; eauto. }
  { reflexivity. }
  { intros n Hn. destruct (Hin n) as (V & HV & HVs); [apply in_or_app; now left|].
    exists V. auto. }
  assert (s1' = s1) by congruence. subst s1'.
  destruct (Hall1 name Hname) as (Out & HOut & V0 & HV0 & _ & HOat).
  assert (HnT : ~ In name PerTile).
  { intros Ht. clear - Hnd Hname Ht.
    induction PerCell as [|a l IH]; [contradiction|].
    cbn [app] in Hnd. inversion Hnd as [|? ? Hnotin Hnd']; subst.
    destruct Hname as [<-|Hn]; [|auto].
    apply Hnotin, in_or_app. now right. }
  assert (E2 : data_vars (Output s2) name = data_vars (Output s1) name).
  { apply (loop_frame _ name (fun s n s' => per_tile_variable_frame
                                view Empty s n s' name) _ _ _ HnT Hrun2). }
  pose proof (episodes_frame view IV _ PerTile name _ _ _ HnT Hfinal) as E3.
  cbn [fst] in E3.
  exists V0. split; [exact HV0|]. intros v i j Hp.
  unfold value_at. rewrite E3, E2, HOut. cbn [option_map]. f_equal.
  rewrite (HOat v i j Hp).
  destruct (Hat v i j Hp) as [-> ->]. reflexivity.
Qed.

(** X13. In a well-formed run whose variables are each configured once,
    every per-cell variable of the returned dataset holds, at every tile of
    the grid: zero where the tile is emptied; the area-weighted sum of the
    input variable over the cell's input fractions where the tile is filled;
    and the input value everywhere else. *)
Theorem per_cell_variables_of_a_run :
  forall (view : bool) (NewVegetation : option (arr3 num))
         (InputDataset : variables) (InputVegetation OutputVegetation : arr3 num)
         (FillAll : bool) (Config : yaml),
    well_formed_run NewVegetation InputDataset InputVegetation OutputVegetation
                    Config = true ->
    NoDup (configured Config) ->
    exists out,
      remap_vegetation view NewVegetation InputDataset InputVegetation
                       OutputVegetation FillAll Config = Ok out /\
      forall name, In name (get_default (yaml_per_cell Config) []) ->
        exists Var,
          InputDataset name = Some Var /\
          forall v i j, inside OutputVegetation v i j ->
            value_at (Ok out) name v i j
            = Some (if to_empty FillAll OutputVegetation v i j then zero
                    else if to_fill FillAll InputVegetation OutputVegetation v i j
                         then area_weighted_sum Var InputVegetation i j
                         else at3 Var v i j).
Proof.
  intros view NV Inp IV OV FillAll Config Hwf Hnd.
  destruct (run_phases view NV Inp IV OV FillAll Config Hwf)
    as (PerCell & PerTile & Fill & Empty & s1 & s2 & final & Hpc & Hpt & Hat &
        Hrun1 & Hrun2 & _ & _ & Hfinal & Hrun & _ & _ & _ & Hpol & HF & HE).
  destruct (well_formed_run_true _ _ _ _ _ Hwf)
    as (PerCell' & PerTile' & G & Hpc' & Hpt' & -> & HG & HS & Hpos & Hin & _).
  assert (PerCell' = PerCell) by congruence.
  assert (PerTile' = PerTile) by congruence. subst PerCell' PerTile'.
  rewrite (configured_lists Config PerCell PerTile Hpc Hpt) in Hnd.
  exists (Output final). split; [exact Hrun|].
  rewrite Hpc. cbn [get_default]. intros name Hname.
  cbn [get_default] in Hrun1.
  destruct (fresh_loop view Inp OV
              (fun n D => exists V0, Inp n = Some V0 /\
                                     per_cell_result IV OV Fill Empty V0 D)
              (per_cell_variable view (nveg OV) IV Fill Empty))
    with (l := PerCell) (s := mkState Inp (start_dataset OV G))
    as (s1' & Hrun1' & Hall1 & _).
  { intros s n V Hco HV HV0 HVs.
    destruct (per_cell_variable_ok view IV OV Fill Empty s n V HF HE HS
                (proj2 (same_shape3_shape V OV) HVs) Hpos Hco HV)
      as (D & HD & HDs & HDat).
    exists D. split; [exact HD|]. exists V. split; [exact HV0|].
    split; [exact HDs | exact HDat]. }
  { eapply NoDup_app_remove_r; eauto. }
  { reflexivity. }
  { intros n Hn. destruct (Hin n) as (V & HV & HVs); [apply in_or_app; now left|].
    exists V. auto. }
  assert (s1' = s1) by congruence. subst s1'.
  destruct (Hall1 name Hname) as (Out & HOut & V0 & HV0 & _ & HOat).
  assert (HnT : ~ In name PerTile).
  { intros Ht. clear - Hnd Hname Ht.
    induction PerCell as [|a l IH]; [contradiction|].
    cbn [app] in Hnd. inversion Hnd as [|? ? Hnotin Hnd']; subst.
    destruct Hname as [<-|Hn]; [|auto].
    apply Hnotin, in_or_app. now right. }
  assert (E2 : data_vars (Output s2) name = data_vars (Output s1) name).
  { apply (loop_frame _ name (fun s n s' => per_tile_variable_frame
                                view Empty s n s' name) _ _ _ HnT Hrun2). }
  pose proof (episodes_frame view IV _ PerTile name _ _ _ HnT Hfinal) as E3.
  cbn [fst] in E3.
  exists V0. split; [exact HV0|]. intros v i j Hp.
  unfold value_at. rewrite E3, E2, HOut. cbn [option_map]. f_equal.
  rewrite (HOat v i j Hp).
  destruct (Hat v i j Hp) as [-> ->]. reflexivity.
Qed.

(** ** Runs that empty no source *)

(** Matched cells lie on the grid and have a positive fraction: arrays
    that agree on such cells pool the same values. *)
Lemma matched_values_sources (IV V V' : arr3 num) (M : arr2 bool) InVegs Masks :
  shape3 V' = shape3 V -> shape3 V = shape3 IV ->
  nrow M = nlat IV -> ncol M = nlon IV ->
  Forall (valid_index (nveg IV)) InVegs ->
  (forall v i j, inside IV v i j -> gt0 (at3 IV v i j) = true ->
                 at3 V' v i j = at3 V v i j) ->
  Forall2 (is_active_tile_mask M IV) InVegs Masks ->
  matched_values V' InVegs Masks = matched_values V InVegs Masks.
Proof.
  intros Hs HsIV Mr Mc Hval Hag HF.
  unfold shape3 in Hs, HsIV. inversion Hs as [[Hv Hr Hc]].
  inversion HsIV as [[Iv Ir Ic]].
  induction HF as [|InVeg T InVegs Masks (HTr & HTc & HT) _ IH]; auto.
  inversion Hval as [|? ? Hx Hval']; subst.
  unfold matched_values in *. cbn [combine flat_map fst snd].
  rewrite IH by assumption. f_equal.
  apply map_ext_in. intros [a b] Hab. cbn [fst snd].
  rewrite Hv.
  unfold marked in Hab. apply filter_In in Hab as [Hcell Htrue].
  cbn [fst snd] in Htrue. rewrite HTr, HTc in Hcell.
  apply in_cells2 in Hcell as [Hi Hj].
  rewrite (HT a b Hi Hj) in Htrue. cbv zeta in Htrue.
  apply andb_true_iff in Htrue as [_ Hg].
  destruct (py_index_valid _ _ Hx) as [_ Hlt].
  rewrite Iv. apply Hag; [|exact Hg].
  repeat split; [exact Hlt | congruence | congruence].
Qed.

(** The per-tile variables of a well-formed run that empties no source,
    in terms of the input dataset. *)
Lemma run_per_tile_values view NV Inp (IV OV : arr3 num) FillAll Config :
  well_formed_run NV Inp IV OV Config = true ->
  no_source_emptied FillAll IV OV ->
  exists out,
    remap_vegetation view NV Inp IV OV FillAll Config = Ok out /\
    forall name v i j,
      In name (get_default (yaml_per_tile Config) []) ->
      inside OV v i j -> to_empty FillAll OV v i j = false ->
      exists Var,
        Inp name = Some Var /\
        (to_fill FillAll IV OV v i j = true ->
         exists InVegs o,
           dict_get (vegetation_map (prepare_mapping (nveg OV) Config))
                    (Z.of_nat v) = Ok InVegs /\
           episode_search IV (prepare_mapping (nveg OV) Config)
                          (unmarked_plane OV) (v, i, j) = Ok o /\
           PointsFound o
           = Z.of_nat (List.length
                         (matched_values Var InVegs (ActiveTileMasks o))) /\
           value_at (Ok out) name v i j
           = Some (filled_value (prepare_mapping (nveg OV) Config)
                                Var InVegs o)) /\
        (to_fill FillAll IV OV v i j = false ->
         value_at (Ok out) name v i j = Some (at3 Var v i j)).
Proof.
  intros Hwf Hkeep.
  destruct (run_phases view NV Inp IV OV FillAll Config Hwf)
    as (PerCell & PerTile & Fill & Empty & s1 & s2 & final & Hpc & Hpt & Hat &
        _ & _ & _ & Hall & _ & Hrun & Hout & Hpts & Hval & _).
  destruct (well_formed_run_true _ _ _ _ _ Hwf)
    as (PerCell' & PerTile' & G & Hpc' & Hpt' & _ & _ & HS & _ & Hin0 & Hmap & _).
  assert (PerCell' = PerCell) by congruence.
  assert (PerTile' = PerTile) by congruence. subst PerCell' PerTile'.
  exists (Output final). split; [exact Hrun|].
  rewrite Hpt. cbn [get_default].
  intros name v i j Hname Hp Hempty.
  destruct (Hat v i j Hp) as [HFill HEmpty].
  destruct (Hall name) as (V & Out & HV & (HVs & V0 & HV0 & HVag) & HOut &
                           (HOs & V0' & HV0' & Hag) & _).
  { apply in_or_app. now right. }
  assert (V0' = V0) by congruence. subst V0'.
  exists V0. split; [exact HV0|].
  rewrite (value_at_output (Output final) name v i j final eq_refl).
  split.
  - intros Hfill.
    assert (Hin : In (v, i, j) (ndenumerate (shape3 OV) (map3 negb Fill))).
    { apply Hpts. split; [exact Hp|]. congruence. }
    destruct (Hval _ Hin) as (InVegs & o & Hget & Ho & Hv). cbn [fst] in Hget.
    destruct (Hmap v) as (InVegs' & Hget' & Hvalid); [destruct Hp; auto|].
    assert (InVegs' = InVegs) by congruence. subst InVegs'.
    assert (Hle : le0 (at3 IV v i j) = true).
    { unfold to_fill in Hfill. now apply andb_true_iff in Hfill as [Hle _]. }
    assert (Hep : episode_ready IV OV (prepare_mapping (nveg OV) Config)
                    (unmarked_plane OV) (v, i, j) InVegs)
      by (constructor; auto).
    destruct (episode_search_ok IV OV _ _ _ InVegs Hep)
      as (o' & Ho' & (Cr & Cc & _) & HF & HPF).
    assert (o' = o) by congruence. subst o'.
    pose proof HS as HS'. apply same_shape3_true in HS' as (Sv & Sr & Sc).
    assert (HV0s : shape3 V0 = shape3 IV).
    { destruct (Hin0 name) as (W & HW & HWs); [apply in_or_app; now right|].
      assert (W = V0) by congruence. subst W.
      unfold shape3 in *. congruence. }
    assert (Hpool : matched_values V InVegs (ActiveTileMasks o)
                    = matched_values V0 InVegs (ActiveTileMasks o)).
    { apply (matched_values_sources IV V0 V (SearchMask_after o)); auto.
      - unfold shape3 in *. congruence.
      - rewrite Cr. cbn [unmarked_plane full2 nrow]. congruence.
      - rewrite Cc. cbn [unmarked_plane full2 ncol]. congruence.
      - intros a b c Hin' Hg.
        assert (Hp' : inside OV a b c).
        { unfold inside in *. rewrite <- Sv, <- Sr, <- Sc. exact Hin'. }
        apply HVag; [exact Hp'| |].
        + rewrite (proj1 (Hat a b c Hp')). unfold to_fill.
          now rewrite (gt0_not_le0 _ Hg).
        + rewrite (proj2 (Hat a b c Hp')). now apply Hkeep. }
    assert (Hlen : PointsFound o
                   = Z.of_nat (List.length
                                 (matched_values V0 InVegs (ActiveTileMasks o)))).
    { rewrite HPF. symmetry. apply matched_values_length.
      eapply Forall2_length; eauto. }
    exists InVegs, o. split; [exact Hget|]. split; [exact Ho|].
    split; [exact Hlen|].
    rewrite (Hv name Hname). f_equal.
    unfold episode_value, filled_value, pooled_mean_of, pooled_mean.
    rewrite HV, Hpool, <- Hlen. reflexivity.
  - intros Hfill. rewrite Hout.
    + unfold output_at. rewrite HOut. cbn [fst snd]. f_equal.
      apply Hag; congruence.
    + intros Hin. apply Hpts in Hin as [_ Hf]. congruence.
Qed.

Lemma filled_not_emptied FillAll (IV OV : arr3 num) v i j :
  to_fill FillAll IV OV v i j = true -> to_empty FillAll OV v i j = false.
Proof.
  unfold to_fill, to_empty. destruct FillAll; [reflexivity|].
  cbn [negb orb andb]. intros H. apply andb_true_iff in H as [_ Hg].
  now apply gt0_not_le0.
Qed.

(** X17. In a well-formed run that empties no tile with a positive input
    fraction (every fill-all run; a default run in which each such tile
    keeps an output fraction that is not [<= 0.0]), every per-tile variable
    of the returned dataset holds on every filled tile: zero when the
    tile's search found fewer than [minimum_points] points, else the sum of
    the input dataset's values of that variable over the matched
    (contributing type, cell) pairs divided by PointsFound, which is the
    number of those pairs. *)
Theorem filled_tiles_get_the_mean_of_the_input :
  forall (view : bool) (NewVegetation : option (arr3 num))
         (InputDataset : variables) (InputVegetation OutputVegetation : arr3 num)
         (FillAll : bool) (Config : yaml),
    well_formed_run NewVegetation InputDataset InputVegetation OutputVegetation
                    Config = true ->
    no_source_emptied FillAll InputVegetation OutputVegetation ->
    exists out,
      remap_vegetation view NewVegetation InputDataset InputVegetation
                       OutputVegetation FillAll Config = Ok out /\
      forall name v i j,
        In name (get_default (yaml_per_tile Config) []) ->
        inside OutputVegetation v i j ->
        to_fill FillAll InputVegetation OutputVegetation v i j = true ->
        exists Var InVegs o,
          InputDataset name = Some Var /\
          dict_get (vegetation_map (prepare_mapping (nveg OutputVegetation) Config))
                   (Z.of_nat v) = Ok InVegs /\
          episode_search InputVegetation
                         (prepare_mapping (nveg OutputVegetation) Config)
                         (unmarked_plane OutputVegetation) (v, i, j) = Ok o /\
          PointsFound o
          = Z.of_nat (List.length
                        (matched_values Var InVegs (ActiveTileMasks o))) /\
          value_at (Ok out) name v i j
          = Some (filled_value (prepare_mapping (nveg OutputVegetation) Config)
                               Var InVegs o).
Proof.
  intros view NV Inp IV OV FillAll Config Hwf Hkeep.
  destruct (run_per_tile_values view NV Inp IV OV FillAll Config Hwf Hkeep)
    as (out & Hrun & Hvalues).
  exists out. split; [exact Hrun|].
  intros name v i j Hname Hp Hfill.
  destruct (Hvalues name v i j Hname Hp (filled_not_emptied _ _ _ _ _ _ Hfill))
    as (Var & HVar & Hfilled & _).
  destruct (Hfilled Hfill) as (InVegs & o & Hget & Ho & Hlen & Hvalue).
  exists Var, InVegs, o. auto.
Qed.

(** ** Fill-all against the default mode *)

(** X14. On every tile whose output fraction is positive, the well-formed
    runs with and without fill-all return the same value of every per-cell
    variable when each variable is configured once, and of every per-tile
    variable when the default run empties no tile with a positive input
    fraction. *)
Theorem fill_all_agrees_when_no_source_is_emptied :
  forall (view : bool) (NewVegetation : option (arr3 num))
         (InputDataset : variables) (InputVegetation OutputVegetation : arr3 num)
         (Config : yaml),
    well_formed_run NewVegetation InputDataset InputVegetation OutputVegetation
                    Config = true ->
    exists out_all out_new,
      remap_vegetation view NewVegetation InputDataset InputVegetation
                       OutputVegetation true Config = Ok out_all /\
      remap_vegetation view NewVegetation InputDataset InputVegetation
                       OutputVegetation false Config = Ok out_new /\
      forall name v i j,
        inside OutputVegetation v i j ->
        gt0 (at3 OutputVegetation v i j) = true ->
        (NoDup (configured Config) ->
         In name (get_default (yaml_per_cell Config) []) ->
         value_at (Ok out_all) name v i j = value_at (Ok out_new) name v i j) /\
        (no_source_emptied false InputVegetation OutputVegetation ->
         In name (get_default (yaml_per_tile Config) []) ->
         value_at (Ok out_all) name v i j = value_at (Ok out_new) name v i j).
Proof.
  intros view NV Inp IV OV Config Hwf.
  destruct (synthesis_total view NV Inp IV OV true Config Hwf) as (out_all & Hall).
  destruct (synthesis_total view NV Inp IV OV false Config Hwf) as (out_new & Hnew).
  exists out_all, out_new. split; [exact Hall|]. split; [exact Hnew|].
  intros name v i j Hp Hgt.
  assert (Hle : le0 (at3 OV v i j) = false) by (apply gt0_not_le0, Hgt).
  split.
  - intros Hnd Hname.
    destruct (run_per_cell_values view NV Inp IV OV true Config Hwf Hnd)
      as (out1 & Hrun1 & Hv1).
    destruct (run_per_cell_values view NV Inp IV OV false Config Hwf Hnd)
      as (out2 & Hrun2 & Hv2).
    assert (out1 = out_all) by congruence.
    assert (out2 = out_new) by congruence. subst out1 out2.
    destruct (Hv1 name Hname) as (Var & HVar & Hat1).
    destruct (Hv2 name Hname) as (Var' & HVar' & Hat2).
    assert (Var' = Var) by congruence. subst Var'.
    rewrite (Hat1 v i j Hp), (Hat2 v i j Hp).
    unfold to_empty, to_fill. rewrite Hle, Hgt. cbn [negb andb orb].
    now rewrite !andb_true_r.
  - intros Hkeep Hname.
    assert (Hkeep_all : no_source_emptied true IV OV)
      by (intros a b c _ _; reflexivity).
    destruct (run_per_tile_values view NV Inp IV OV true Config Hwf Hkeep_all)
      as (out1 & Hrun1 & Hv1).
    destruct (run_per_tile_values view NV Inp IV OV false Config Hwf Hkeep)
      as (out2 & Hrun2 & Hv2).
    assert (out1 = out_all) by congruence.
    assert (out2 = out_new) by congruence. subst out1 out2.
    destruct (Hv1 name v i j Hname Hp) as (Var & HVar & Hfill1 & Hkeep1);
      [reflexivity|].
    destruct (Hv2 name v i j Hname Hp) as (Var' & HVar' & Hfill2 & Hkeep2).
    { unfold to_empty. now rewrite Hle. }
    assert (Var' = Var) by congruence. subst Var'.
    unfold to_fill in *. rewrite Hgt in *. cbn [orb] in *.
    destruct (le0 (at3 IV v i j)); cbn [andb] in *.
    + destruct (Hfill1 eq_refl) as (InVegs & o & Hget & Ho & _ & ->).
      destruct (Hfill2 eq_refl) as (InVegs' & o' & Hget' & Ho' & _ & ->).
      assert (InVegs' = InVegs) by congruence.
      assert (o' = o) by congruence. subst. reflexivity.
    + rewrite (Hkeep1 eq_refl), (Hkeep2 eq_refl). reflexivity.
Qed.

(** ** What the returned dataset holds *)

Lemma output_at_bound s n q :
  (exists D, data_vars (Output s) n = Some D) <-> output_at s n q <> None.
Proof.
  unfold output_at. destruct (data_vars (Output s) n) as [D|].
  - split; [discriminate | eauto].
  - split; [intros (D & H); discriminate | congruence].
Qed.

Lemma episodes_bound view IV Conf PerTile points st st' n :
  for_each (synthesise_point view IV Conf PerTile) points st = Ok st' ->
  (exists D, data_vars (Output (fst st)) n = Some D) ->
  exists D', data_vars (Output (fst st')) n = Some D'.
Proof.
  intros Hrun Hb.
  assert (HF : Forall (fun _ : nat * nat * nat => True) points)
    by (apply Forall_forall; auto).
  refine (for_each_inv _ (fun st1 => exists D, data_vars (Output (fst st1)) n = Some D)
            (fun _ => True) _ points st st' HF Hb Hrun).
  intros [s M] [[v i] j] [s' M'] Hs _ Hstep. cbn [fst] in *.
  apply (output_at_bound s n (S v, i, j)) in Hs.
  apply (output_at_bound s' n (S v, i, j)).
  rewrite (synthesise_point_out_kept _ _ _ _ _ _ _ _ _ Hstep n (S v, i, j)); auto.
  intros [= E]. lia.
Qed.

(** X15. Whatever dataset a run returns holds exactly the configured
    per-cell and per-tile variables and the two fraction fields: no other
    variable of the input dataset is carried over. *)
Theorem returned_dataset_holds_exactly_the_configured_variables :
  forall (view : bool) (NewVegetation : option (arr3 num))
         (InputDataset : variables) (InputVegetation OutputVegetation : arr3 num)
         (FillAll : bool) (Config : yaml) (out : Dataset),
    remap_vegetation view NewVegetation InputDataset InputVegetation
                     OutputVegetation FillAll Config = Ok out ->
    forall X,
      (exists D, data_vars out X = Some D) <->
      (In X (configured Config) \/ X = FRACTIONS \/ X = PREVIOUS).
Proof.
  intros view NV Inp IV OV FillAll Config out Hrun X.
  assert (Hpre : exists PerCell PerTile G,
            yaml_per_cell Config = Some PerCell /\
            yaml_per_tile Config = Some PerTile /\
            NV = Some G /\ shape3 G = shape3 OV).
  { unfold remap_vegetation in Hrun. unfold shape3 at 1 in Hrun.
    cbn [prepare_mapping per_cell per_tile] in Hrun.
    destruct (yaml_per_cell Config) as [PerCell|]; [|discriminate].
    destruct (yaml_per_tile Config) as [PerTile|]; [|discriminate].
    destruct NV as [G|]; [|discriminate].
    cbn [required bind] in Hrun. bind_inv Hrun as D1 HD1.
    apply ds_assign_ok in HD1 as [HD1 _].
    exists PerCell, PerTile, G. auto. }
  destruct Hpre as (PerCell & PerTile & G & Hpc & Hpt & -> & HG).
  rewrite (remap_vegetation_unfold view G Inp IV OV FillAll Config PerCell PerTile)
    in Hrun by auto.
  rewrite (configured_lists Config PerCell PerTile Hpc Hpt).
  split.
  - intros (D & HD).
    destruct (in_dec string_dec X (PerCell ++ PerTile)) as [Hin|Hnot]; [now left|].
    right.
    rewrite (synthesis_frame _ _ _ _ _ _ _ _ _ _ X Hnot Hrun) in HD.
    unfold start_dataset in HD. cbn [data_vars] in HD. unfold var_set in HD.
    destruct (String.eqb_spec X PREVIOUS) as [->|_]; [now right|].
    destruct (String.eqb_spec X FRACTIONS) as [->|_]; [now left|discriminate].
  - intros Hcase. unfold synthesis in Hrun.
    bind_inv Hrun as policy Hpol. destruct policy as [Fill Empty].
    bind_inv Hrun as s1 Hs1. bind_inv Hrun as s2 Hs2. bind_inv Hrun as Mask HMask.
    bind_inv Hrun as final Hfinal. inversion Hrun; subst out; clear Hrun.
    destruct (outputs_loop view (fun _ => True) _
                (fun s name s' H =>
                   match per_cell_variable_zero view _ IV Fill Empty s name s' H with
                   | ex_intro _ D (conj E _) => ex_intro _ D (conj E I)
                   end) _ _ _ Hs1) as (_ & Hall1 & Hkeep1).
    destruct (outputs_loop view (fun _ => True) _
                (fun s name s' H =>
                   match per_tile_variable_zero view Empty s name s' H with
                   | ex_intro _ D (conj E _) => ex_intro _ D (conj E I)
                   end) _ _ _ Hs2) as (_ & Hall2 & Hkeep2).
    apply (episodes_bound _ _ _ _ _ _ _ X Hfinal). cbn [fst].
    assert (Hb : exists Out, data_vars (Output s2) X = Some Out /\ True).
    { destruct Hcase as [Hin|Hfr].
      - apply in_app_or in Hin as [Hc|Ht]; auto.
      - apply Hkeep2, Hkeep1. cbn [Output start_dataset data_vars].
        unfold var_set.
        destruct Hfr as [-> | ->].
        + destruct (String.eqb FRACTIONS PREVIOUS); eauto.
          rewrite String.eqb_refl. eauto.
        + rewrite String.eqb_refl. eauto. }
    destruct Hb as (Out & HOut & _). eauto.
Qed.

(** ** A source somewhere is always found *)

Lemma gt0_not_nan x : gt0 x = true -> isnan x = false.
Proof. destruct x; [discriminate|reflexivity]. Qed.

Lemma marked_cell_counts (T : arr2 bool) i j :
  (i < nrow T)%nat -> (j < ncol T)%nat -> at2 T i j = true ->
  (1 <= count_true T)%nat.
Proof.
  intros Hi Hj Ht. unfold count_true, marked.
  assert (Hin : In (i, j) (filter (fun p => at2 T (fst p) (snd p))
                                  (cells2 (nrow T) (ncol T)))).
  { apply filter_In. split; [apply in_cells2; auto | exact Ht]. }
  destruct (filter _ _); [contradiction | cbn [List.length]; lia].
Qed.

Lemma present_points_found (M : arr2 bool) (IV : arr3 num) InVegs Masks :
  nrow M = nlat IV -> ncol M = nlon IV -> all_marked M ->
  present_somewhere IV InVegs ->
  Forall2 (is_active_tile_mask M IV) InVegs Masks ->
  1 <= points_found Masks.
Proof.
  intros Hr Hc Hall (InVeg & i & j & Hin & Hi & Hj & Hg) HF.
  unfold points_found.
  enough (1 <= list_sum (map count_true Masks))%nat by lia.
  induction HF as [|VegType T InVegs Masks (Tr & Tc & HT) _ IH];
    [contradiction|].
  cbn [map].
  change (list_sum (count_true T :: map count_true Masks))
    with (count_true T + list_sum (map count_true Masks))%nat.
  destruct Hin as [->|Hin].
  - enough (1 <= count_true T)%nat by lia.
    apply (marked_cell_counts T i j); try congruence.
    rewrite HT by congruence. cbv zeta.
    now rewrite Hall, Hg, (gt0_not_nan _ Hg).
  - specialize (IH Hin). lia.
Qed.

(** X16. At a tile to fill, with [minimum_points] at least 1: when some
    contributing vegetation type has a positive fraction at some cell of
    the grid, the search ends with at least one point found; and with
    [minimum_points] equal to 1 (the default) the episode does not take the
    zero branch of line 333: it returns and writes the sum, over the
    matched (contributing type, cell) pairs, of the values [InputDataset]
    holds when the episode starts, divided by PointsFound. (Those values
    are what the variable loops left: a source emptied in place counts
    as 0.) *)
Theorem a_source_somewhere_is_always_found :
  forall (view : bool) (InputVegetation OutputVegetation : arr3 num)
         (Conf : MappingConf) (PerTileVariables : list string) (s : state)
         (SearchMask : arr2 bool) (p : nat * nat * nat) (InVegs : list Z),
    episode_ready InputVegetation OutputVegetation Conf SearchMask p InVegs ->
    tiles_ready view OutputVegetation PerTileVariables s ->
    1 <= minimum_points Conf ->
    present_somewhere InputVegetation InVegs ->
    exists o,
      episode_search InputVegetation Conf SearchMask p = Ok o /\
      1 <= PointsFound o /\
      (minimum_points Conf = 1 ->
       (PointsFound o <? minimum_points Conf) = false /\
       exists s',
         synthesise_point view InputVegetation Conf PerTileVariables
                          (s, SearchMask) p
         = Ok (s', full2 (nrow SearchMask) (ncol SearchMask) false) /\
         forall name Var,
           In name PerTileVariables -> Input s name = Some Var ->
           output_at s' name p
           = Some (ndiv (nsum (matched_values Var InVegs (ActiveTileMasks o)))
                        (PointsFound o))).
Proof.
  intros view IV OV Conf PerTile s M [[OutVeg Lat] Lon] InVegs Hep Hready Hmin
         Hpresent.
  destruct (synthesise_point_ok view IV OV Conf PerTile s M _ InVegs Hep Hready)
    as (o & Ho & (Hcov & HF & HPF) & _ & Hmean).
  destruct Hcov as (Cr & Cc & _).
  assert (Hshape := ready_shape _ _ _ _ _ _ Hep).
  apply same_shape3_true in Hshape as (_ & Sr & Sc).
  destruct (search_trace_of IV Conf M OutVeg Lat Lon o Ho)
    as (InVegs' & _ & Hn & Happ & _ & _ & Hstop & _).
  assert (Hpos : 1 <= PointsFound o).
  { destruct (Nat.eq_dec (stages_run o) 4) as [E|NE].
    - rewrite E in Happ. apply apply_all_stages in Happ.
      rewrite HPF.
      apply (present_points_found (SearchMask_after o) IV InVegs); auto.
      + rewrite Cr, (ready_rows _ _ _ _ _ _ Hep). congruence.
      + rewrite Cc, (ready_cols _ _ _ _ _ _ Hep). congruence.
      + intros i j. rewrite Happ. reflexivity.
    - assert (Hlt : (stages_run o < 4)%nat) by lia.
      specialize (Hstop Hlt).
      pose proof (stage_threshold_pos Conf (stages_run o) Hmin). lia. }
  exists o. split; [exact Ho|]. split; [exact Hpos|].
  intros Hone. split; [apply Z.ltb_ge; lia|].
  destruct Hmean as (s' & Hrun & _ & Hall); [lia | exact Hpos |].
  exists s'. split; [exact Hrun|].
  intros name Var Hname HVar.
  rewrite (Hall name Hname). unfold pooled_mean_of, pooled_mean. rewrite HVar.
  rewrite matched_values_length by (eapply Forall2_length; eauto).
  now rewrite <- HPF.
Qed.

(** ** Instances of the further properties *)

Lemma nearest_stage_marks_the_block_witness :
  Z.abs 1 <= search_extent_limit /\
  (0 < nrow ex_empty_mask)%nat /\ (0 < ncol ex_empty_mask)%nat /\
  exists M',
    modify_mask_for_nearest ex_empty_mask (Some 1) (Z.of_nat 0, Z.of_nat 0) = Ok M' /\
    nrow M' = nrow ex_empty_mask /\ ncol M' = ncol ex_empty_mask /\
    forall i j, (i < nrow ex_empty_mask)%nat -> (j < ncol ex_empty_mask)%nat ->
      at2 M' i j
      = at2 ex_empty_mask i j
        || in_block (ncol ex_empty_mask) 1 (Z.of_nat 0) (Z.of_nat 0) i j.
Proof.
  assert (H1 : (0 < nrow ex_empty_mask)%nat) by (cbn; lia).
  assert (H2 : (0 < ncol ex_empty_mask)%nat) by (cbn; lia).
  assert (H0 : Z.abs 1 <= search_extent_limit) by (cbn; discriminate).
  split; [exact H0|]. split; [exact H1|]. split; [exact H2|].
  exact (nearest_stage_marks_the_block ex_empty_mask 1 0 0 H0 H1 H2).
Defined.

(** At the north-west corner the block of radius 1 wraps around in
    longitude and is cut off at the pole: rows 0 and 1, columns 2, 0, 1. *)
Example ex_corner_block :
  map (fun p => in_block 3 1 0 0 (fst p) (snd p)) (cells2 3 3)
  = [true; true; true; true; true; true; false; false; false]
  /\ map (fun p => in_block 5 1 0 0 (fst p) (snd p)) (cells2 2 5)
  = [true; true; false; false; true; true; true; false; false; true].
Proof. vm_compute. split; reflexivity. Qed.

Lemma band_stage_marks_whole_rows_witness :
  Z.abs 1 <= search_extent_limit /\
  (2 < nrow ex_empty_mask)%nat /\
  exists M',
    modify_mask_for_latitude_band ex_empty_mask (Some 1)
                                  (Z.of_nat 0, Z.of_nat 2) = Ok M' /\
    nrow M' = nrow ex_empty_mask /\ ncol M' = ncol ex_empty_mask /\
    forall i j, (i < nrow ex_empty_mask)%nat ->
      at2 M' i j = at2 ex_empty_mask i j || in_band 1 (Z.of_nat 2) i.
Proof.
  assert (H1 : (2 < nrow ex_empty_mask)%nat) by (cbn; lia).
  assert (H0 : Z.abs 1 <= search_extent_limit) by (cbn; discriminate).
  split; [exact H0|]. split; [exact H1|].
  exact (band_stage_marks_whole_rows ex_empty_mask 1 2 0 H0 H1).
Defined.

Lemma ex_outcome_found :
  episode_search ex_IV (ex_conf 1) ex_empty_mask (0, 1, 1)%nat = Ok ex_outcome.
Proof. vm_compute. reflexivity. Defined.

Lemma search_stops_at_first_sufficient_stage_witness :
  episode_search ex_IV (ex_conf 1) ex_empty_mask (0, 1, 1)%nat = Ok ex_outcome /\
  exists InVegs,
    let Coord := (Z.of_nat 1, Z.of_nat 1) in
    dict_get (vegetation_map (ex_conf 1)) (Z.of_nat 0) = Ok InVegs /\
    (1 <= stages_run ex_outcome <= 4)%nat /\
    apply_stages (ex_conf 1) Coord (stages_run ex_outcome) ex_empty_mask
      = Ok (SearchMask_after ex_outcome) /\
    find_active_tiles (SearchMask_after ex_outcome) ex_IV InVegs
      = Ok (ActiveTileMasks ex_outcome) /\
    PointsFound ex_outcome = points_found (ActiveTileMasks ex_outcome) /\
    ((stages_run ex_outcome < 4)%nat ->
     stage_threshold (ex_conf 1) (stages_run ex_outcome) <= PointsFound ex_outcome) /\
    (forall k, (1 <= k < stages_run ex_outcome)%nat ->
       exists pk,
         points_at_stage ex_IV InVegs (ex_conf 1) Coord ex_empty_mask k = Ok pk /\
         pk < stage_threshold (ex_conf 1) k).
Proof.
  split; [exact ex_outcome_found|].
  exact (search_stops_at_first_sufficient_stage ex_IV (ex_conf 1) ex_empty_mask
           0 1 1 ex_outcome ex_outcome_found).
Defined.

(** In the worked example the search stops at the radius stage, with the
    two source cells. *)
Example ex_outcome_is_the_radius_stage :
  stages_run ex_outcome = 2%nat /\ PointsFound ex_outcome = 2.
Proof. vm_compute. split; reflexivity. Qed.

Lemma ex_bare_ready :
  episode_ready ex_bare_IV ex_OV (ex_conf 1) ex_empty_mask (0, 1, 1)%nat [0; 1].
Proof.
  constructor; try reflexivity.
  - unfold inside; cbn; lia.
  - apply Forall_forall. intros x [<-|[<-|[]]]; unfold valid_index; cbn; lia.
Defined.

Lemma ex_bare_absent : absent_everywhere ex_bare_IV [0; 1].
Proof. intros InVeg i j _ _ _. reflexivity. Defined.

Lemma no_source_anywhere_gives_zero_witness :
  episode_ready ex_bare_IV ex_OV (ex_conf 1) ex_empty_mask (0, 1, 1)%nat [0; 1] /\
  tiles_ready true ex_OV ["T"%string] ex_state /\
  1 <= minimum_points (ex_conf 1) /\
  absent_everywhere ex_bare_IV [0; 1] /\
  exists o s',
    episode_search ex_bare_IV (ex_conf 1) ex_empty_mask (0, 1, 1)%nat = Ok o /\
    stages_run o = 4%nat /\
    all_marked (SearchMask_after o) /\
    PointsFound o = 0 /\
    synthesise_point true ex_bare_IV (ex_conf 1) ["T"%string]
                     (ex_state, ex_empty_mask) (0, 1, 1)%nat
      = Ok (s', full2 (nrow ex_empty_mask) (ncol ex_empty_mask) false) /\
    forall name, In name ["T"%string] ->
      output_at s' name (0, 1, 1)%nat = Some zero.
Proof.
  assert (Hmin : 1 <= minimum_points (ex_conf 1)) by (cbn; lia).
  split; [exact ex_bare_ready|]. split; [exact (ex_tiles_ready true)|].
  split; [exact Hmin|]. split; [exact ex_bare_absent|].
  exact (no_source_anywhere_gives_zero true ex_bare_IV ex_OV (ex_conf 1)
           ["T"%string] ex_state ex_empty_mask (0, 1, 1)%nat [0; 1]
           ex_bare_ready (ex_tiles_ready true) Hmin ex_bare_absent).
Defined.

Lemma ex_unmarked : unmarked ex_empty_mask.
Proof. intros i j. reflexivity. Defined.

Lemma ex_after_centre_run :
  for_each (synthesise_point true ex_IV (ex_conf 1) ["T"%string])
           ([(0, 1, 1)%nat] ++ []) (ex_state, ex_empty_mask) = Ok ex_after_centre.
Proof. vm_compute. reflexivity. Defined.

Lemma every_episode_starts_unmarked_witness :
  unmarked ex_empty_mask /\
  for_each (synthesise_point true ex_IV (ex_conf 1) ["T"%string])
           ([(0, 1, 1)%nat] ++ []) (ex_state, ex_empty_mask) = Ok ex_after_centre /\
  exists s1 M1,
    for_each (synthesise_point true ex_IV (ex_conf 1) ["T"%string])
             [(0, 1, 1)%nat] (ex_state, ex_empty_mask) = Ok (s1, M1) /\
    nrow M1 = nrow ex_empty_mask /\ ncol M1 = ncol ex_empty_mask /\ unmarked M1 /\
    for_each (synthesise_point true ex_IV (ex_conf 1) ["T"%string])
             [] (s1, M1) = Ok ex_after_centre.
Proof.
  split; [exact ex_unmarked|]. split; [exact ex_after_centre_run|].
  exact (every_episode_starts_unmarked true ex_IV (ex_conf 1) ["T"%string]
           [(0, 1, 1)%nat] [] ex_state ex_empty_mask ex_after_centre
           ex_unmarked ex_after_centre_run).
Defined.


(** With [minimum_points: 0] on the bare grid the run writes NaN at the
    new tile; with an output type that draws on no input type it raises. *)
Example scenario_minimum_zero :
  forall view,
    value_at (remap_vegetation view (Some ex_OV) ex_inputs ex_bare_IV ex_OV false
                               (ex_yaml 0)) "T"%string 0 1 1 = Some NaN /\
    remap_vegetation view (Some ex_OV) ex_inputs ex_bare_IV ex_OV false
      (mkYaml (Some [(1, [])]) (Some 1) None (Some 0)
              (Some ["C"%string]) (Some ["T"%string]))
    = Raise ZeroDivisionError.
Proof. intros []; vm_compute; split; reflexivity. Qed.

Lemma ex_types_valid :
  forall OutVeg, (OutVeg < nveg ex_OV)%nat ->
    exists InVegs,
      dict_get (vegetation_map (ex_conf 1)) (Z.of_nat OutVeg) = Ok InVegs /\
      Forall (valid_index (nveg ex_IV)) InVegs.
Proof.
  intros [|[|n]] H.
  - exists [0; 1]. split; [reflexivity|].
    apply Forall_forall. intros x [<-|[<-|[]]]; unfold valid_index; cbn; lia.
  - exists [1]. split; [reflexivity|].
    apply Forall_forall. intros x [<-|[]]; unfold valid_index; cbn; lia.
  - cbn in H. lia.
Defined.

Lemma ex_two_points : NoDup [(0, 1, 1)%nat; (1, 1, 1)%nat].
Proof.
  constructor; [intros [E|[]]; discriminate|].
  constructor; [intros []|constructor].
Defined.

Lemma ex_two_points_rev : NoDup [(1, 1, 1)%nat; (0, 1, 1)%nat].
Proof.
  constructor; [intros [E|[]]; discriminate|].
  constructor; [intros []|constructor].
Defined.

Lemma ex_same_points :
  forall p, In p [(0, 1, 1)%nat; (1, 1, 1)%nat] <-> In p [(1, 1, 1)%nat; (0, 1, 1)%nat].
Proof. intros p. cbn. tauto. Defined.

Lemma ex_fill_points :
  Forall (fill_point ex_IV ex_OV) [(0, 1, 1)%nat; (1, 1, 1)%nat].
Proof.
  repeat constructor; cbn; lia.
Defined.

Lemma point_order_does_not_matter_witness :
  same_shape3 ex_IV ex_OV = true /\
  1 <= minimum_points (ex_conf 1) /\
  tiles_ready true ex_OV ["T"%string] ex_state /\
  NoDup [(0, 1, 1)%nat; (1, 1, 1)%nat] /\ NoDup [(1, 1, 1)%nat; (0, 1, 1)%nat] /\
  Forall (fill_point ex_IV ex_OV) [(0, 1, 1)%nat; (1, 1, 1)%nat] /\
  exists final final',
    for_each (synthesise_point true ex_IV (ex_conf 1) ["T"%string])
             [(0, 1, 1)%nat; (1, 1, 1)%nat] (ex_state, unmarked_plane ex_OV)
      = Ok (final, unmarked_plane ex_OV) /\
    for_each (synthesise_point true ex_IV (ex_conf 1) ["T"%string])
             [(1, 1, 1)%nat; (0, 1, 1)%nat] (ex_state, unmarked_plane ex_OV)
      = Ok (final', unmarked_plane ex_OV) /\
    forall name q, output_at final name q = output_at final' name q.
Proof.
  assert (Hs : same_shape3 ex_IV ex_OV = true) by reflexivity.
  assert (Hmin : 1 <= minimum_points (ex_conf 1)) by (cbn; lia).
  split; [exact Hs|]. split; [exact Hmin|]. split; [exact (ex_tiles_ready true)|].
  split; [exact ex_two_points|]. split; [exact ex_two_points_rev|].
  split; [exact ex_fill_points|].
  exact (point_order_does_not_matter true ex_IV ex_OV (ex_conf 1) ["T"%string]
           ex_state [(0, 1, 1)%nat; (1, 1, 1)%nat] [(1, 1, 1)%nat; (0, 1, 1)%nat]
           Hs Hmin ex_types_valid (ex_tiles_ready true)
           ex_two_points ex_two_points_rev ex_same_points ex_fill_points).
Defined.

Lemma ex_well_formed :
  well_formed_run (Some ex_OV) ex_inputs ex_IV ex_OV (ex_yaml 1) = true.
Proof. vm_compute. reflexivity. Defined.

Lemma ex_configured_once : NoDup (configured (ex_yaml 1)).
Proof.
  constructor; [intros [E|[]]; discriminate|].
  constructor; [intros []|constructor].
Defined.

Lemma filled_tiles_hold_their_episode_value_witness :
  well_formed_run (Some ex_OV) ex_inputs ex_IV ex_OV (ex_yaml 1) = true /\
  exists s out,
    variables_done false (Some ex_OV) ex_inputs ex_IV ex_OV false (ex_yaml 1)
      = Ok s /\
    (false = false -> Input s = ex_inputs) /\
    remap_vegetation false (Some ex_OV) ex_inputs ex_IV ex_OV false (ex_yaml 1)
      = Ok out /\
    forall v i j,
      inside ex_OV v i j ->
      to_fill false ex_IV ex_OV v i j = true ->
      exists InVegs o,
        dict_get (vegetation_map (prepare_mapping (nveg ex_OV) (ex_yaml 1)))
                 (Z.of_nat v) = Ok InVegs /\
        episode_search ex_IV (prepare_mapping (nveg ex_OV) (ex_yaml 1))
                       (unmarked_plane ex_OV) (v, i, j) = Ok o /\
        forall name, In name (get_default (yaml_per_tile (ex_yaml 1)) []) ->
          value_at (Ok out) name v i j
          = Some (episode_value (prepare_mapping (nveg ex_OV) (ex_yaml 1))
                                s InVegs o name).
Proof.
  split; [exact ex_well_formed|].
  exact (filled_tiles_hold_their_episode_value false (Some ex_OV) ex_inputs
           ex_IV ex_OV false (ex_yaml 1) ex_well_formed).
Defined.

Lemma emptied_tiles_end_zero_witness :
  well_formed_run (Some ex_OV) ex_inputs ex_IV ex_OV (ex_yaml 1) = true /\
  exists out,
    remap_vegetation true (Some ex_OV) ex_inputs ex_IV ex_OV false (ex_yaml 1)
      = Ok out /\
    forall name v i j,
      In name (configured (ex_yaml 1)) ->
      inside ex_OV v i j ->
      le0 (at3 ex_OV v i j) = true ->
      value_at (Ok out) name v i j = Some zero.
Proof.
  split; [exact ex_well_formed|].
  exact (emptied_tiles_end_zero true (Some ex_OV) ex_inputs ex_IV ex_OV
           (ex_yaml 1) ex_well_formed).
Defined.

Lemma untouched_tiles_keep_input_witness :
  well_formed_run (Some ex_OV) ex_inputs ex_IV ex_OV (ex_yaml 1) = true /\
  exists out,
    remap_vegetation true (Some ex_OV) ex_inputs ex_IV ex_OV false (ex_yaml 1)
      = Ok out /\
    forall name, In name (configured (ex_yaml 1)) ->
      exists Var,
        ex_inputs name = Some Var /\
        forall v i j,
          inside ex_OV v i j ->
          to_fill false ex_IV ex_OV v i j = false ->
          to_empty false ex_OV v i j = false ->
          value_at (Ok out) name v i j = Some (at3 Var v i j).
Proof.
  split; [exact ex_well_formed|].
  exact (untouched_tiles_keep_input true (Some ex_OV) ex_inputs ex_IV ex_OV
           false (ex_yaml 1) ex_well_formed).
Defined.

(** In the worked example the tile of type 1 at the north-east, which
    exists in both maps, keeps its input value. *)
Example scenario_untouched_tile :
  forall view,
    value_at (remap_vegetation view (Some ex_OV) ex_inputs ex_IV ex_OV false
                               (ex_yaml 1)) "T"%string 0 0 2 = Some (q 10) /\
    value_at (remap_vegetation view (Some ex_OV) ex_inputs ex_IV ex_OV false
                               (ex_yaml 1)) "C"%string 0 0 2 = Some (q 10).
Proof. intros []; vm_compute; split; reflexivity. Qed.

Lemma missing_variable_raises_key_error_witness :
  yaml_per_cell one_per_tile = Some [] /\
  yaml_per_tile one_per_tile = Some ["T"%string] /\
  shape3 two_full = shape3 two_full /\
  same_shape3 two_full two_full = true /\
  (0 < nveg two_full)%nat /\
  In "T"%string ([] ++ ["T"%string]) /\
  only "C"%string two_types "T"%string = None /\
  remap_vegetation true (Some two_full) (only "C"%string two_types) two_full
                   two_full false one_per_tile = Raise KeyError.
Proof.
  assert (Hpos : (0 < nveg two_full)%nat) by (cbn; lia).
  assert (Hin : In "T"%string ([] ++ ["T"%string])) by (left; reflexivity).
  assert (Hothers : forall n, In n ([] ++ ["T"%string]) -> n <> "T"%string ->
            exists V, only "C"%string two_types n = Some V /\
                      shape3 V = shape3 two_full).
  { intros n [<-|[]] Hne. congruence. }
  split; [reflexivity|]. split; [reflexivity|]. split; [reflexivity|].
  split; [reflexivity|]. split; [exact Hpos|]. split; [exact Hin|].
  split; [reflexivity|].
  exact (missing_variable_raises_key_error true two_full (only "C"%string two_types)
           two_full two_full false one_per_tile [] ["T"%string] "T"%string
           eq_refl eq_refl eq_refl eq_refl Hpos Hin eq_refl Hothers).
Defined.

Lemma per_cell_variables_of_a_run_witness :
  well_formed_run (Some ex_OV) ex_inputs ex_IV ex_OV (ex_yaml 1) = true /\
  NoDup (configured (ex_yaml 1)) /\
  exists out,
    remap_vegetation true (Some ex_OV) ex_inputs ex_IV ex_OV false (ex_yaml 1)
      = Ok out /\
    forall name, In name (get_default (yaml_per_cell (ex_yaml 1)) []) ->
      exists Var,
        ex_inputs name = Some Var /\
        forall v i j, inside ex_OV v i j ->
          value_at (Ok out) name v i j
          = Some (if to_empty false ex_OV v i j then zero
                  else if to_fill false ex_IV ex_OV v i j
                       then area_weighted_sum Var ex_IV i j
                       else at3 Var v i j).
Proof.
  split; [exact ex_well_formed|]. split; [exact ex_configured_once|].
  exact (per_cell_variables_of_a_run true (Some ex_OV) ex_inputs ex_IV ex_OV
           false (ex_yaml 1) ex_well_formed ex_configured_once).
Defined.

Lemma ex_no_source_emptied FillAll : no_source_emptied FillAll ex_IV ex_OV.
Proof.
  intros v i j (Hv & Hi & Hj) Hg. cbn in Hv, Hi, Hj.
  destruct FillAll; [reflexivity|].
  destruct v as [|[|v]]; [| |lia];
    (destruct i as [|[|[|i]]]; [| | |lia]);
    (destruct j as [|[|[|j]]]; [| | |lia]);
    first [reflexivity | discriminate Hg].
Defined.

Lemma filled_tiles_get_the_mean_of_the_input_witness :
  well_formed_run (Some ex_OV) ex_inputs ex_IV ex_OV (ex_yaml 1) = true /\
  no_source_emptied false ex_IV ex_OV /\
  exists out,
    remap_vegetation true (Some ex_OV) ex_inputs ex_IV ex_OV false (ex_yaml 1)
      = Ok out /\
    forall name v i j,
      In name (get_default (yaml_per_tile (ex_yaml 1)) []) ->
      inside ex_OV v i j ->
      to_fill false ex_IV ex_OV v i j = true ->
      exists Var InVegs o,
        ex_inputs name = Some Var /\
        dict_get (vegetation_map (prepare_mapping (nveg ex_OV) (ex_yaml 1)))
                 (Z.of_nat v) = Ok InVegs /\
        episode_search ex_IV (prepare_mapping (nveg ex_OV) (ex_yaml 1))
                       (unmarked_plane ex_OV) (v, i, j) = Ok o /\
        PointsFound o
        = Z.of_nat (List.length (matched_values Var InVegs (ActiveTileMasks o))) /\
        value_at (Ok out) name v i j
        = Some (filled_value (prepare_mapping (nveg ex_OV) (ex_yaml 1))
                             Var InVegs o).
Proof.
  split; [exact ex_well_formed|]. split; [exact (ex_no_source_emptied false)|].
  exact (filled_tiles_get_the_mean_of_the_input true (Some ex_OV) ex_inputs
           ex_IV ex_OV false (ex_yaml 1) ex_well_formed
           (ex_no_source_emptied false)).
Defined.

Lemma fill_all_agrees_when_no_source_is_emptied_witness :
  well_formed_run (Some ex_OV) ex_inputs ex_IV ex_OV (ex_yaml 1) = true /\
  exists out_all out_new,
    remap_vegetation true (Some ex_OV) ex_inputs ex_IV ex_OV true (ex_yaml 1)
      = Ok out_all /\
    remap_vegetation true (Some ex_OV) ex_inputs ex_IV ex_OV false (ex_yaml 1)
      = Ok out_new /\
    forall name v i j,
      inside ex_OV v i j ->
      gt0 (at3 ex_OV v i j) = true ->
      (NoDup (configured (ex_yaml 1)) ->
       In name (get_default (yaml_per_cell (ex_yaml 1)) []) ->
       value_at (Ok out_all) name v i j = value_at (Ok out_new) name v i j) /\
      (no_source_emptied false ex_IV ex_OV ->
       In name (get_default (yaml_per_tile (ex_yaml 1)) []) ->
       value_at (Ok out_all) name v i j = value_at (Ok out_new) name v i j).
Proof.
  split; [exact ex_well_formed|].
  exact (fill_all_agrees_when_no_source_is_emptied true (Some ex_OV) ex_inputs
           ex_IV ex_OV (ex_yaml 1) ex_well_formed).
Defined.

(** Where the default run empties a source the two modes differ on a tile
    that is in the new map: on the grid with one leaving and one new tile,
    reading the dataset's own buffer, fill-all writes 10 at the new tile
    and the default mode 0. *)
Example scenario_fill_all_differs :
  value_at (remap_vegetation true (Some leaving_OV) (only "T"%string leaving_T)
                             leaving_IV leaving_OV true one_per_tile)
           "T"%string 0 0 1 = Some (q 10) /\
  value_at (remap_vegetation true (Some leaving_OV) (only "T"%string leaving_T)
                             leaving_IV leaving_OV false one_per_tile)
           "T"%string 0 0 1 = Some zero.
Proof. vm_compute. split; reflexivity. Qed.

Lemma ex_out_returned :
  remap_vegetation true (Some ex_OV) ex_inputs ex_IV ex_OV false (ex_yaml 1)
  = Ok ex_out.
Proof. vm_compute. reflexivity. Defined.

Lemma returned_dataset_holds_exactly_the_configured_variables_witness :
  remap_vegetation true (Some ex_OV) ex_inputs ex_IV ex_OV false (ex_yaml 1)
  = Ok ex_out /\
  forall X,
    (exists D, data_vars ex_out X = Some D) <->
    (In X (configured (ex_yaml 1)) \/ X = FRACTIONS \/ X = PREVIOUS).
Proof.
  split; [exact ex_out_returned|].
  exact (returned_dataset_holds_exactly_the_configured_variables true
           (Some ex_OV) ex_inputs ex_IV ex_OV false (ex_yaml 1) ex_out
           ex_out_returned).
Defined.

(** The prepared map of the worked example: type 1 draws on types 1 and
    2, type 2 on itself, and there is no entry beyond the grid's types. *)
Example ex_contributing :
  contributing 2 (ex_yaml 1) 0 = Ok [0; 1] /\
  contributing 2 (ex_yaml 1) 1 = Ok [1] /\
  contributing 2 (ex_yaml 1) 2 = Raise KeyError.
Proof. vm_compute. repeat split; reflexivity. Qed.

Lemma ex_present : present_somewhere ex_IV [0; 1].
Proof.
  exists 0, 0%nat, 2%nat. split; [left; reflexivity|].
  split; [cbn; lia|]. split; [cbn; lia|]. reflexivity.
Defined.

Lemma a_source_somewhere_is_always_found_witness :
  episode_ready ex_IV ex_OV (ex_conf 1) ex_empty_mask (0, 1, 1)%nat [0; 1] /\
  tiles_ready true ex_OV ["T"%string] ex_state /\
  1 <= minimum_points (ex_conf 1) /\
  present_somewhere ex_IV [0; 1] /\
  exists o,
    episode_search ex_IV (ex_conf 1) ex_empty_mask (0, 1, 1)%nat = Ok o /\
    1 <= PointsFound o /\
    (minimum_points (ex_conf 1) = 1 ->
     (PointsFound o <? minimum_points (ex_conf 1)) = false /\
     exists s',
       synthesise_point true ex_IV (ex_conf 1) ["T"%string]
                        (ex_state, ex_empty_mask) (0, 1, 1)%nat
       = Ok (s', full2 (nrow ex_empty_mask) (ncol ex_empty_mask) false) /\
       forall name Var,
         In name ["T"%string] -> Input ex_state name = Some Var ->
         output_at s' name (0, 1, 1)%nat
         = Some (ndiv (nsum (matched_values Var [0; 1] (ActiveTileMasks o)))
                      (PointsFound o))).
Proof.
  assert (Hmin : 1 <= minimum_points (ex_conf 1)) by (cbn; lia).
  split; [exact (ex_episode_ready 1)|]. split; [exact (ex_tiles_ready true)|].
  split; [exact Hmin|]. split; [exact ex_present|].
  exact (a_source_somewhere_is_always_found true ex_IV ex_OV (ex_conf 1)
           ["T"%string] ex_state ex_empty_mask (0, 1, 1)%nat [0; 1]
           (ex_episode_ready 1) (ex_tiles_ready true) Hmin ex_present).
Defined.

(** ** The stages of one episode, one after the other *)

Lemma firstn_plus {X} (a b : nat) (l : list X) :
  firstn (a + b) l = firstn a l ++ firstn b (skipn a l).
Proof.
  revert l. induction a as [|a IH]; intros l; [reflexivity|].
  destruct l as [|x l]; cbn [Nat.add firstn skipn app].
  - now rewrite firstn_nil.
  - now rewrite IH.
Qed.

Lemma firstn_S_nth {X} (k : nat) (l : list X) (x : X) :
  nth_error l k = Some x -> firstn (S k) l = firstn k l ++ [x].
Proof.
  revert l. induction k as [|k IH]; intros [|y l] H; try discriminate.
  - cbn in H. inversion H. reflexivity.
  - cbn [nth_error] in H. cbn [firstn app]. f_equal.
    change (firstn (S k) l = firstn k l ++ [x]). now apply IH.
Qed.

(** A run of the first [n] stages went through every shorter run: stage
    [k + 1] was applied to the mask the first [k] stages left. *)
Lemma apply_stages_upto Conf Coord n (M Mn : arr2 bool) :
  apply_stages Conf Coord n M = Ok Mn ->
  forall k, (k < n)%nat -> (k < List.length (stages_of Conf))%nat ->
    exists stage Mk Mk1,
      nth_error (stages_of Conf) k = Some stage /\
      apply_stages Conf Coord k M = Ok Mk /\
      fst (fst stage) Mk (snd (fst stage)) Coord = Ok Mk1 /\
      apply_stages Conf Coord (S k) M = Ok Mk1.
Proof.
  intros Hn k Hk Hlen.
  destruct (nth_error (stages_of Conf) k) as [stage|] eqn:Hnth.
  2:{ apply nth_error_None in Hnth. lia. }
  unfold apply_stages in *.
  replace n with (S k + (n - S k))%nat in Hn by lia.
  rewrite firstn_plus, for_each_app in Hn. bind_inv Hn as Mk1 HMk1.
  pose proof HMk1 as Hstep.
  rewrite (firstn_S_nth k _ stage Hnth), for_each_app in Hstep.
  bind_inv Hstep as Mk HMk. cbn [for_each] in Hstep. bind_inv Hstep as M' HM'.
  inversion Hstep; subst M'.
  exists stage, Mk, Mk1. auto.
Qed.

Lemma stage_covers Conf Coord k stage (Mk Mk1 : arr2 bool) :
  nth_error (stages_of Conf) k = Some stage ->
  fst (fst stage) Mk (snd (fst stage)) Coord = Ok Mk1 ->
  covers Mk Mk1.
Proof.
  intros Hnth Hstep. apply nth_error_In in Hnth.
  destruct stage as [[Method Param] MinPoints]. cbn [fst snd] in Hstep.
  apply (method_covers Method Mk Param Coord); [|exact Hstep].
  unfold stages_of in Hnth.
  apply in_combine_l in Hnth. apply in_combine_l in Hnth. exact Hnth.
Qed.

Lemma points_at_stage_grow IV InVegs Conf Coord M k (Mk Mk1 : arr2 bool) pk pk1 :
  apply_stages Conf Coord k M = Ok Mk ->
  apply_stages Conf Coord (S k) M = Ok Mk1 ->
  covers Mk Mk1 ->
  points_at_stage IV InVegs Conf Coord M k = Ok pk ->
  points_at_stage IV InVegs Conf Coord M (S k) = Ok pk1 ->
  pk <= pk1.
Proof.
  intros HMk HMk1 Hcov Hpk Hpk1. unfold points_at_stage in *.
  rewrite HMk in Hpk. rewrite HMk1 in Hpk1. cbn [bind] in *.
  bind_inv Hpk as Masks HMasks. bind_inv Hpk1 as Masks1 HMasks1.
  inversion Hpk; inversion Hpk1; subst.
  destruct (find_active_tiles_covers _ _ IV InVegs Hcov _ HMasks)
    as (Masks' & HM' & HF).
  assert (Masks' = Masks1) by congruence. subst.
  now apply points_found_covers.
Qed.

(** C2. In every episode the stages run one after the other on one mask:
    stage [k + 1] is applied to the mask the first [k] stages left, the
    mask after it has the same shape and marks every cell marked before,
    and the points found with it are at least the points found after stage
    [k]; the mask and the count the loop ends with are those after the last
    stage run. This holds for whatever the stage loop returns, whatever
    mask the episode starts with; and at a point among the tiles to fill
    of a well-defined episode the loop does return. *)
Theorem search_stages_only_add_marks :
  forall (InputVegetation OutputVegetation : arr3 num) (Conf : MappingConf)
         (SearchMask : arr2 bool) (OutVeg Lat Lon : nat) (InVegs : list Z),
    (forall o : search_outcome,
        episode_search InputVegetation Conf SearchMask (OutVeg, Lat, Lon) = Ok o ->
        dict_get (vegetation_map Conf) (Z.of_nat OutVeg) = Ok InVegs ->
        apply_stages Conf (Z.of_nat Lon, Z.of_nat Lat) (stages_run o) SearchMask
          = Ok (SearchMask_after o) /\
        points_at_stage InputVegetation InVegs Conf (Z.of_nat Lon, Z.of_nat Lat)
                        SearchMask (stages_run o) = Ok (PointsFound o) /\
        forall k, (k < stages_run o)%nat ->
          exists stage Mk Mk1,
            nth_error (stages_of Conf) k = Some stage /\
            apply_stages Conf (Z.of_nat Lon, Z.of_nat Lat) k SearchMask = Ok Mk /\
            fst (fst stage) Mk (snd (fst stage)) (Z.of_nat Lon, Z.of_nat Lat)
              = Ok Mk1 /\
            apply_stages Conf (Z.of_nat Lon, Z.of_nat Lat) (S k) SearchMask
              = Ok Mk1 /\
            covers Mk Mk1 /\
            ((1 <= k)%nat ->
             exists pk pk1,
               points_at_stage InputVegetation InVegs Conf
                               (Z.of_nat Lon, Z.of_nat Lat) SearchMask k = Ok pk /\
               points_at_stage InputVegetation InVegs Conf
                               (Z.of_nat Lon, Z.of_nat Lat) SearchMask (S k)
                 = Ok pk1 /\
               pk <= pk1)) /\
    (episode_ready InputVegetation OutputVegetation Conf SearchMask
                   (OutVeg, Lat, Lon) InVegs ->
     exists o,
       episode_search InputVegetation Conf SearchMask (OutVeg, Lat, Lon) = Ok o).
Proof.
  intros IV OV Conf M OutVeg Lat Lon InVegs. split.
  2:{ intros Hep.
      destruct (episode_search_ok IV OV Conf M _ InVegs Hep) as (o & Ho & _).
      eauto. }
  intros o Ho Hget.
  destruct (search_trace_of IV Conf M OutVeg Lat Lon o Ho)
    as (InVegs' & Hget' & Hn & Happ & Hfind & HPF & _ & Hfail).
  cbv zeta in *.
  assert (InVegs' = InVegs) by congruence. subst InVegs'.
  assert (Hlast : points_at_stage IV InVegs Conf (Z.of_nat Lon, Z.of_nat Lat) M
                                  (stages_run o) = Ok (PointsFound o)).
  { unfold points_at_stage. rewrite Happ. cbn [bind]. rewrite Hfind.
    cbn [bind]. now rewrite HPF. }
  split; [exact Happ|]. split; [exact Hlast|].
  intros k Hk.
  destruct (apply_stages_upto Conf _ _ M _ Happ k Hk)
    as (stage & Mk & Mk1 & Hnth & HMk & Hstep & HMk1).
  { rewrite stages_of_length. lia. }
  pose proof (stage_covers Conf _ k stage Mk Mk1 Hnth Hstep) as Hcov.
  exists stage, Mk, Mk1.
  split; [exact Hnth|]. split; [exact HMk|]. split; [exact Hstep|].
  split; [exact HMk1|]. split; [exact Hcov|].
  intros Hk1.
  destruct (Hfail k) as (pk & Hpk & _); [lia|].
  assert (Hnext : exists pk1,
             points_at_stage IV InVegs Conf (Z.of_nat Lon, Z.of_nat Lat) M (S k)
             = Ok pk1).
  { destruct (Nat.eq_dec (S k) (stages_run o)) as [E|NE].
    - rewrite E. eauto.
    - destruct (Hfail (S k)) as (pk1 & Hpk1 & _); [lia|eauto]. }
  destruct Hnext as (pk1 & Hpk1).
  exists pk, pk1. split; [exact Hpk|]. split; [exact Hpk1|].
  exact (points_at_stage_grow IV InVegs Conf _ M k Mk Mk1 pk pk1
           HMk HMk1 Hcov Hpk Hpk1).
Qed.

(** ** Instances for the episode's stages and the emptied source *)

Lemma ex_types : dict_get (vegetation_map (ex_conf 1)) (Z.of_nat 0) = Ok [0; 1].
Proof. reflexivity. Defined.

Lemma search_stages_only_add_marks_witness :
  (episode_search ex_IV (ex_conf 1) ex_empty_mask (0, 1, 1)%nat = Ok ex_outcome /\
   dict_get (vegetation_map (ex_conf 1)) (Z.of_nat 0) = Ok [0; 1] /\
   apply_stages (ex_conf 1) (Z.of_nat 1, Z.of_nat 1) (stages_run ex_outcome)
                ex_empty_mask = Ok (SearchMask_after ex_outcome) /\
   points_at_stage ex_IV [0; 1] (ex_conf 1) (Z.of_nat 1, Z.of_nat 1)
                   ex_empty_mask (stages_run ex_outcome)
     = Ok (PointsFound ex_outcome) /\
   forall k, (k < stages_run ex_outcome)%nat ->
     exists stage Mk Mk1,
       nth_error (stages_of (ex_conf 1)) k = Some stage /\
       apply_stages (ex_conf 1) (Z.of_nat 1, Z.of_nat 1) k ex_empty_mask = Ok Mk /\
       fst (fst stage) Mk (snd (fst stage)) (Z.of_nat 1, Z.of_nat 1) = Ok Mk1 /\
       apply_stages (ex_conf 1) (Z.of_nat 1, Z.of_nat 1) (S k) ex_empty_mask
         = Ok Mk1 /\
       covers Mk Mk1 /\
       ((1 <= k)%nat ->
        exists pk pk1,
          points_at_stage ex_IV [0; 1] (ex_conf 1) (Z.of_nat 1, Z.of_nat 1)
                          ex_empty_mask k = Ok pk /\
          points_at_stage ex_IV [0; 1] (ex_conf 1) (Z.of_nat 1, Z.of_nat 1)
                          ex_empty_mask (S k) = Ok pk1 /\
          pk <= pk1)) /\
  episode_ready ex_IV ex_OV (ex_conf 1) ex_empty_mask (0, 1, 1)%nat [0; 1] /\
  exists o,
    episode_search ex_IV (ex_conf 1) ex_empty_mask (0, 1, 1)%nat = Ok o.
Proof.
  split; [|split].
  - split; [exact ex_outcome_found|]. split; [exact ex_types|].
    exact (proj1 (search_stages_only_add_marks ex_IV ex_OV (ex_conf 1)
                    ex_empty_mask 0 1 1 [0; 1])
             ex_outcome ex_outcome_found ex_types).
  - exact (ex_episode_ready 1).
  - exact (proj2 (search_stages_only_add_marks ex_IV ex_OV (ex_conf 1)
                    ex_empty_mask 0 1 1 [0; 1])
             (ex_episode_ready 1)).
Defined.

(** In the worked example the cell stage finds nothing and the radius
    stage, run on the mask the cell stage left, finds the two sources. *)
Example ex_points_along_the_stages :
  points_at_stage ex_IV [0; 1] (ex_conf 1) (1, 1) ex_empty_mask 1 = Ok 0 /\
  points_at_stage ex_IV [0; 1] (ex_conf 1) (1, 1) ex_empty_mask 2 = Ok 2.
Proof. vm_compute. split; reflexivity. Qed.

(** C1: the mean is not taken over the input variable's values. On the
    grid with one leaving and one new tile the run is well formed, the new
    tile is among the tiles to fill, its search stops with one point (the
    leaving tile) where [minimum_points] is 1, and the mean of the input
    variable over the matched pairs is 10. Line 276 has by then set the
    leaving tile to zero in the array it got from [to_numpy]; when that is
    the dataset's own buffer, as it is for a dataset in memory, the episode
    reads the zero and the run writes 0 at the new tile. Only with a copy
    does it write 10. *)
Theorem mean_reads_the_emptied_source :
  well_formed_run (Some leaving_OV) (only "T"%string leaving_T) leaving_IV
                  leaving_OV one_per_tile = true /\
  to_fill false leaving_IV leaving_OV 0 0 1 = true /\
  match episode_search leaving_IV (prepare_mapping 1 one_per_tile)
                       (unmarked_plane leaving_OV) (0, 0, 1)%nat with
  | Ok o =>
      Some (minimum_points (prepare_mapping 1 one_per_tile) <=? PointsFound o,
            ndiv (nsum (matched_values leaving_T [0] (ActiveTileMasks o)))
                 (PointsFound o))
  | Raise _ => None
  end = Some (true, q 10) /\
  value_at (remap_vegetation true (Some leaving_OV) (only "T"%string leaving_T)
                             leaving_IV leaving_OV false one_per_tile)
           "T"%string 0 0 1 = Some zero /\
  value_at (remap_vegetation false (Some leaving_OV) (only "T"%string leaving_T)
                             leaving_IV leaving_OV false one_per_tile)
           "T"%string 0 0 1 = Some (q 10).
Proof. vm_compute. repeat split; reflexivity. Qed.
